(** * sven-grrrrr: the lobby racing server ([lobby-server.js])

    A shallow embedding of the authoritative simulation core of the
    two-player racing server: the [GameLobby] class (seat management, match
    phases, the per-tick simulation), the socket handlers that drive it and
    the periodic sweep of the lobby registry.

    Modelling conventions.
    - JavaScript numbers are IEEE doubles.  They are modelled as exact
      rationals [Q] (scores, positions, speeds, multipliers) and as integers
      [Z] where the program only ever stores integers (streak, timers, seat
      numbers, millisecond timestamps).  Rounding error is not modelled.
    - [Math.sqrt(d2) < r] is written [d2 < r * r]; both sides are
      non-negative, so the two tests agree on the reals.
    - [Math.sin] and [Math.cos] are parameters of the development.
    - [Date.now()] is read once per handler invocation and passed in as
      [now]; [Math.random()] is a stream of draws consumed in program order.
    - A JavaScript object used as a dictionary, and a [Map], are association
      lists in insertion order: assignment to an existing key keeps its
      place, a new key is appended, [delete] removes the entry.
    - [io.to(id).emit(...)], [socket.emit(...)] and [io.emit(...)] append to a
      log of emitted messages. *)

From Stdlib Require Import QArith Qround Qabs Qminmax Lqa.
From Stdlib Require Import ZArith Lia Bool List String.
From Stdlib Require Import Permutation.
Import ListNotations.

Open Scope Q_scope.

(** ** Numbers *)

Definition Qltb (a b : Q) : bool := negb (Qle_bool b a).
Definition Qgtb (a b : Q) : bool := Qltb b a.

(** [Math.random()]: a stream of draws and a cursor into it. *)
Record Rng := mkRng { draws : nat -> Q; cursor : nat }.

Definition random (r : Rng) : Q * Rng :=
  (draws r (cursor r), mkRng (draws r) (S (cursor r))).

(** ** JavaScript objects and Maps keyed by strings *)

Section Dict.
Context {V : Type}.

Definition Dict := list (string * V).

Fixpoint dict_get (k : string) (m : Dict) : option V :=
  match m with
  | [] => None
  | (k', v) :: m' => if String.eqb k k' then Some v else dict_get k m'
  end.

Fixpoint dict_set (k : string) (v : V) (m : Dict) : Dict :=
  match m with
  | [] => [(k, v)]
  | (k', v') :: m' =>
      if String.eqb k k' then (k', v) :: m' else (k', v') :: dict_set k v m'
  end.

Fixpoint dict_delete (k : string) (m : Dict) : Dict :=
  match m with
  | [] => []
  | (k', v') :: m' =>
      if String.eqb k k' then m' else (k', v') :: dict_delete k m'
  end.

Definition dict_keys (m : Dict) : list string := map fst m.
Definition dict_values (m : Dict) : list V := map snd m.
End Dict.

Arguments Dict V : clear implicits.

(** ** Entities *)

Record Input := mkInput { up : bool; down : bool; left : bool; right : bool }.

Definition noInput : Input := mkInput false false false false.

(** A player record as [addPlayer] builds it.  [input] is [None] when a
    client sent a payload without an [input] field; [speedBonusTimer] is
    created lazily by [updatePlayer] starting from 0. *)
Record Player := mkPlayer {
  id : string;
  playerNum : Z;
  name : string;
  x : Q;
  y : Q;
  width : Q;
  height : Q;
  speed : Q;
  maxSpeed : Q;
  angle : Q;
  velocityX : Q;
  velocityY : Q;
  turnSpeed : Q;
  boosting : bool;
  boostTime : Z;
  score : Q;
  streak : Z;
  multiplier : Q;
  perfectCount : Z;
  lastObstacleTime : Z;
  comboTimer : Z;
  nearMissCount : Z;
  input : option Input;
  speedBonusTimer : Z
}.

(** Field assignment [p.f = v]. *)
Definition set_x (v : Q) (p : Player) : Player :=
  mkPlayer (id p) (playerNum p) (name p) v (y p) (width p) (height p)
    (speed p) (maxSpeed p) (angle p) (velocityX p) (velocityY p) (turnSpeed p)
    (boosting p) (boostTime p) (score p) (streak p) (multiplier p)
    (perfectCount p) (lastObstacleTime p) (comboTimer p) (nearMissCount p)
    (input p) (speedBonusTimer p).

Definition set_y (v : Q) (p : Player) : Player :=
  mkPlayer (id p) (playerNum p) (name p) (x p) v (width p) (height p)
    (speed p) (maxSpeed p) (angle p) (velocityX p) (velocityY p) (turnSpeed p)
    (boosting p) (boostTime p) (score p) (streak p) (multiplier p)
    (perfectCount p) (lastObstacleTime p) (comboTimer p) (nearMissCount p)
    (input p) (speedBonusTimer p).

Definition set_speed (v : Q) (p : Player) : Player :=
  mkPlayer (id p) (playerNum p) (name p) (x p) (y p) (width p) (height p) v
    (maxSpeed p) (angle p) (velocityX p) (velocityY p) (turnSpeed p)
    (boosting p) (boostTime p) (score p) (streak p) (multiplier p)
    (perfectCount p) (lastObstacleTime p) (comboTimer p) (nearMissCount p)
    (input p) (speedBonusTimer p).

Definition set_maxSpeed (v : Q) (p : Player) : Player :=
  mkPlayer (id p) (playerNum p) (name p) (x p) (y p) (width p) (height p)
    (speed p) v (angle p) (velocityX p) (velocityY p) (turnSpeed p)
    (boosting p) (boostTime p) (score p) (streak p) (multiplier p)
    (perfectCount p) (lastObstacleTime p) (comboTimer p) (nearMissCount p)
    (input p) (speedBonusTimer p).

Definition set_angle (v : Q) (p : Player) : Player :=
  mkPlayer (id p) (playerNum p) (name p) (x p) (y p) (width p) (height p)
    (speed p) (maxSpeed p) v (velocityX p) (velocityY p) (turnSpeed p)
    (boosting p) (boostTime p) (score p) (streak p) (multiplier p)
    (perfectCount p) (lastObstacleTime p) (comboTimer p) (nearMissCount p)
    (input p) (speedBonusTimer p).

Definition set_velocityX (v : Q) (p : Player) : Player :=
  mkPlayer (id p) (playerNum p) (name p) (x p) (y p) (width p) (height p)
    (speed p) (maxSpeed p) (angle p) v (velocityY p) (turnSpeed p)
    (boosting p) (boostTime p) (score p) (streak p) (multiplier p)
    (perfectCount p) (lastObstacleTime p) (comboTimer p) (nearMissCount p)
    (input p) (speedBonusTimer p).

Definition set_velocityY (v : Q) (p : Player) : Player :=
  mkPlayer (id p) (playerNum p) (name p) (x p) (y p) (width p) (height p)
    (speed p) (maxSpeed p) (angle p) (velocityX p) v (turnSpeed p)
    (boosting p) (boostTime p) (score p) (streak p) (multiplier p)
    (perfectCount p) (lastObstacleTime p) (comboTimer p) (nearMissCount p)
    (input p) (speedBonusTimer p).

Definition set_turnSpeed (v : Q) (p : Player) : Player :=
  mkPlayer (id p) (playerNum p) (name p) (x p) (y p) (width p) (height p)
    (speed p) (maxSpeed p) (angle p) (velocityX p) (velocityY p) v
    (boosting p) (boostTime p) (score p) (streak p) (multiplier p)
    (perfectCount p) (lastObstacleTime p) (comboTimer p) (nearMissCount p)
    (input p) (speedBonusTimer p).

Definition set_boosting (v : bool) (p : Player) : Player :=
  mkPlayer (id p) (playerNum p) (name p) (x p) (y p) (width p) (height p)
    (speed p) (maxSpeed p) (angle p) (velocityX p) (velocityY p) (turnSpeed p)
    v (boostTime p) (score p) (streak p) (multiplier p) (perfectCount p)
    (lastObstacleTime p) (comboTimer p) (nearMissCount p) (input p)
    (speedBonusTimer p).

Definition set_boostTime (v : Z) (p : Player) : Player :=
  mkPlayer (id p) (playerNum p) (name p) (x p) (y p) (width p) (height p)
    (speed p) (maxSpeed p) (angle p) (velocityX p) (velocityY p) (turnSpeed p)
    (boosting p) v (score p) (streak p) (multiplier p) (perfectCount p)
    (lastObstacleTime p) (comboTimer p) (nearMissCount p) (input p)
    (speedBonusTimer p).

Definition set_score (v : Q) (p : Player) : Player :=
  mkPlayer (id p) (playerNum p) (name p) (x p) (y p) (width p) (height p)
    (speed p) (maxSpeed p) (angle p) (velocityX p) (velocityY p) (turnSpeed p)
    (boosting p) (boostTime p) v (streak p) (multiplier p) (perfectCount p)
    (lastObstacleTime p) (comboTimer p) (nearMissCount p) (input p)
    (speedBonusTimer p).

Definition set_streak (v : Z) (p : Player) : Player :=
  mkPlayer (id p) (playerNum p) (name p) (x p) (y p) (width p) (height p)
    (speed p) (maxSpeed p) (angle p) (velocityX p) (velocityY p) (turnSpeed p)
    (boosting p) (boostTime p) (score p) v (multiplier p) (perfectCount p)
    (lastObstacleTime p) (comboTimer p) (nearMissCount p) (input p)
    (speedBonusTimer p).

Definition set_multiplier (v : Q) (p : Player) : Player :=
  mkPlayer (id p) (playerNum p) (name p) (x p) (y p) (width p) (height p)
    (speed p) (maxSpeed p) (angle p) (velocityX p) (velocityY p) (turnSpeed p)
    (boosting p) (boostTime p) (score p) (streak p) v (perfectCount p)
    (lastObstacleTime p) (comboTimer p) (nearMissCount p) (input p)
    (speedBonusTimer p).

Definition set_perfectCount (v : Z) (p : Player) : Player :=
  mkPlayer (id p) (playerNum p) (name p) (x p) (y p) (width p) (height p)
    (speed p) (maxSpeed p) (angle p) (velocityX p) (velocityY p) (turnSpeed p)
    (boosting p) (boostTime p) (score p) (streak p) (multiplier p) v
    (lastObstacleTime p) (comboTimer p) (nearMissCount p) (input p)
    (speedBonusTimer p).

Definition set_lastObstacleTime (v : Z) (p : Player) : Player :=
  mkPlayer (id p) (playerNum p) (name p) (x p) (y p) (width p) (height p)
    (speed p) (maxSpeed p) (angle p) (velocityX p) (velocityY p) (turnSpeed p)
    (boosting p) (boostTime p) (score p) (streak p) (multiplier p)
    (perfectCount p) v (comboTimer p) (nearMissCount p) (input p)
    (speedBonusTimer p).

Definition set_comboTimer (v : Z) (p : Player) : Player :=
  mkPlayer (id p) (playerNum p) (name p) (x p) (y p) (width p) (height p)
    (speed p) (maxSpeed p) (angle p) (velocityX p) (velocityY p) (turnSpeed p)
    (boosting p) (boostTime p) (score p) (streak p) (multiplier p)
    (perfectCount p) (lastObstacleTime p) v (nearMissCount p) (input p)
    (speedBonusTimer p).

Definition set_nearMissCount (v : Z) (p : Player) : Player :=
  mkPlayer (id p) (playerNum p) (name p) (x p) (y p) (width p) (height p)
    (speed p) (maxSpeed p) (angle p) (velocityX p) (velocityY p) (turnSpeed p)
    (boosting p) (boostTime p) (score p) (streak p) (multiplier p)
    (perfectCount p) (lastObstacleTime p) (comboTimer p) v (input p)
    (speedBonusTimer p).

Definition set_input (v : option Input) (p : Player) : Player :=
  mkPlayer (id p) (playerNum p) (name p) (x p) (y p) (width p) (height p)
    (speed p) (maxSpeed p) (angle p) (velocityX p) (velocityY p) (turnSpeed p)
    (boosting p) (boostTime p) (score p) (streak p) (multiplier p)
    (perfectCount p) (lastObstacleTime p) (comboTimer p) (nearMissCount p) v
    (speedBonusTimer p).

Definition set_speedBonusTimer (v : Z) (p : Player) : Player :=
  mkPlayer (id p) (playerNum p) (name p) (x p) (y p) (width p) (height p)
    (speed p) (maxSpeed p) (angle p) (velocityX p) (velocityY p) (turnSpeed p)
    (boosting p) (boostTime p) (score p) (streak p) (multiplier p)
    (perfectCount p) (lastObstacleTime p) (comboTimer p) (nearMissCount p)
    (input p) v.

Module Obstacle.
Record t := mk {
  id : Q;
  x : Q;
  y : Q;
  width : Q;
  height : Q;
  speed : Q;
  playerNum : Z;
  nearMissAwarded : bool
}.

Definition set_y (v : Q) (o : t) : t :=
  mk (id o) (x o) v (width o) (height o) (speed o) (playerNum o)
    (nearMissAwarded o).

Definition set_nearMissAwarded (v : bool) (o : t) : t :=
  mk (id o) (x o) (y o) (width o) (height o) (speed o) (playerNum o) v.

End Obstacle.

Module BoostPad.
Record t := mk {
  id : Q;
  x : Q;
  y : Q;
  width : Q;
  height : Q;
  speed : Q;
  used : bool;
  playerNum : Z
}.

Definition set_y (v : Q) (b : t) : t :=
  mk (id b) (x b) v (width b) (height b) (speed b) (used b) (playerNum b).

Definition set_used (v : bool) (b : t) : t :=
  mk (id b) (x b) (y b) (width b) (height b) (speed b) v (playerNum b).

End BoostPad.

Record GameState := mkGameState {
  obstacles : list Obstacle.t;
  boostPads : list BoostPad.t;
  roadOffset : Q;
  timeRemaining : option Z
}.

(** The [GameLobby] object.  [gameLoop] tells whether an interval is
    installed; [gameStartTime], [gameDuration] and [gameEnded] are undefined
    until [startGame] assigns them and are only read afterwards (an undefined
    [gameEnded] is falsy, hence [false]). *)
Module GameLobby.
Record t := mk {
  id : string;
  name : string;
  players : Dict Player;
  gameStarted : bool;
  gameState : GameState;
  gameLoop : bool;
  createdAt : Z;
  gameStartTime : Z;
  gameDuration : Z;
  gameEnded : bool
}.

Definition set_players (v : Dict Player) (l : t) : t :=
  mk (id l) (name l) v (gameStarted l) (gameState l) (gameLoop l)
    (createdAt l) (gameStartTime l) (gameDuration l) (gameEnded l).

Definition set_gameStarted (v : bool) (l : t) : t :=
  mk (id l) (name l) (players l) v (gameState l) (gameLoop l) (createdAt l)
    (gameStartTime l) (gameDuration l) (gameEnded l).

Definition set_gameState (v : GameState) (l : t) : t :=
  mk (id l) (name l) (players l) (gameStarted l) v (gameLoop l) (createdAt l)
    (gameStartTime l) (gameDuration l) (gameEnded l).

Definition set_gameLoop (v : bool) (l : t) : t :=
  mk (id l) (name l) (players l) (gameStarted l) (gameState l) v (createdAt l)
    (gameStartTime l) (gameDuration l) (gameEnded l).

Definition set_gameStartTime (v : Z) (l : t) : t :=
  mk (id l) (name l) (players l) (gameStarted l) (gameState l) (gameLoop l)
    (createdAt l) v (gameDuration l) (gameEnded l).

Definition set_gameDuration (v : Z) (l : t) : t :=
  mk (id l) (name l) (players l) (gameStarted l) (gameState l) (gameLoop l)
    (createdAt l) (gameStartTime l) v (gameEnded l).

Definition set_gameEnded (v : bool) (l : t) : t :=
  mk (id l) (name l) (players l) (gameStarted l) (gameState l) (gameLoop l)
    (createdAt l) (gameStartTime l) (gameDuration l) v.

End GameLobby.

(** ** Messages sent to clients *)

(** The payloads carry what the claims below observe; the ranking inside
    [gameFinished] and the lobby descriptions inside [lobbiesUpdate] are
    left out. *)
Inductive Event :=
| gameStart
| gameFinished
| returnToLobby
| gameStateMsg (ps : Dict Player) (obs : list Obstacle.t)
    (pads : list BoostPad.t) (remaining : option Z)
| scoreEvent (playerId type : string) (points px py : Q)
| joinedLobby (lobbyId lobbyName : string) (seat : Z)
| lobbyNotFound
| lobbyFull
| lobbiesUpdate (ids : list string).

(** [target = Some s] is [io.to(s).emit] (or [socket.emit] on socket [s]);
    [None] is [io.emit], a broadcast to every connection. *)
Record Emit := mkEmit { target : option string; event : Event }.

Definition emit_to_all (keys : list string) (e : Event) : list Emit :=
  map (fun k => mkEmit (Some k) e) keys.

(** ** The GameLobby class *)

Definition playerCount (l : GameLobby.t) : nat :=
  List.length (dict_keys (GameLobby.players l)).

(** The object literal stored by [addPlayer]. *)
Definition newPlayer (now : Z) (socketId : string) (num : Z)
    (playerName : string) : Player :=
  {| id := socketId; playerNum := num; name := playerName;
     x := 200; y := 500; width := 30; height := 60;
     speed := 0; maxSpeed := 8; angle := 0;
     velocityX := 0; velocityY := 0; turnSpeed := 0;
     boosting := false; boostTime := 0;
     score := 0; streak := 0; multiplier := 1; perfectCount := 0;
     lastObstacleTime := now; comboTimer := 0; nearMissCount := 0;
     input := Some noInput; speedBonusTimer := 0 |}.

Definition startGame (now : Z) (l : GameLobby.t) : GameLobby.t * list Emit :=
  let l := GameLobby.set_gameStarted true l in
  let l := GameLobby.set_gameStartTime now l in
  let l := GameLobby.set_gameDuration 30000 l in
  let l := GameLobby.set_gameEnded false l in
  let l := GameLobby.set_gameState (mkGameState [] [] 0 (Some 30%Z)) l in
  let out := emit_to_all (dict_keys (GameLobby.players l)) gameStart in
  (GameLobby.set_gameLoop true l, out).

Definition addPlayer (now : Z) (socketId playerName : string)
    (playerSockets : Dict string) (l : GameLobby.t)
  : bool * Dict string * GameLobby.t * list Emit :=
  if (2 <=? playerCount l)%nat then (false, playerSockets, l, [])
  else
    let num := (Z.of_nat (playerCount l) + 1)%Z in
    let l :=
      GameLobby.set_players
        (dict_set socketId (newPlayer now socketId num playerName) (GameLobby.players l))
        l in
    let playerSockets := dict_set socketId (GameLobby.id l) playerSockets in
    if (playerCount l =? 2)%nat then
      let (l, out) := startGame now l in (true, playerSockets, l, out)
    else (true, playerSockets, l, []).

(** The constructor: an empty lobby to which the creator is added. *)
Definition newGameLobby (now : Z) (lobbyId lobbyName creatorId creatorName : string)
    (playerSockets : Dict string) : Dict string * GameLobby.t * list Emit :=
  let l :=
    {| GameLobby.id := lobbyId; GameLobby.name := lobbyName; GameLobby.players := [];
       GameLobby.gameStarted := false; GameLobby.gameState := mkGameState [] [] 0 None;
       GameLobby.gameLoop := false; GameLobby.createdAt := now;
       GameLobby.gameStartTime := 0; GameLobby.gameDuration := 0; GameLobby.gameEnded := false |} in
  let '(_, playerSockets, l, out) :=
    addPlayer now creatorId creatorName playerSockets l in
  (playerSockets, l, out).

Definition finishGame (l : GameLobby.t) : GameLobby.t * list Emit :=
  let l := GameLobby.set_gameEnded true l in
  let l := if GameLobby.gameLoop l then GameLobby.set_gameLoop false l else l in
  (l, emit_to_all (dict_keys (GameLobby.players l)) gameFinished).

Definition resetForRestart (p : Player) : Player :=
  let p := set_x 200 p in
  let p := set_y 500 p in
  let p := set_speed 0 p in
  let p := set_angle 0 p in
  let p := set_velocityX 0 p in
  let p := set_velocityY 0 p in
  let p := set_score 0 p in
  let p := set_streak 0 p in
  let p := set_multiplier 1 p in
  let p := set_boosting false p in
  set_boostTime 0 p.

Definition dict_map {V : Type} (f : V -> V) (m : Dict V) : Dict V :=
  map (fun kv => (fst kv, f (snd kv))) m.

Definition restartGame (now : Z) (l : GameLobby.t) : GameLobby.t * list Emit :=
  startGame now (GameLobby.set_players (dict_map resetForRestart (GameLobby.players l)) l).

Definition resetForLobby (p : Player) : Player :=
  let p := set_x 200 p in
  let p := set_y 500 p in
  let p := set_speed 0 p in
  let p := set_angle 0 p in
  let p := set_score 0 p in
  let p := set_streak 0 p in
  set_multiplier 1 p.

Definition endGame (l : GameLobby.t) : GameLobby.t * list Emit :=
  let l := GameLobby.set_gameStarted false l in
  let l := GameLobby.set_gameEnded false l in
  let l := if GameLobby.gameLoop l then GameLobby.set_gameLoop false l else l in
  let l := GameLobby.set_players (dict_map resetForLobby (GameLobby.players l)) l in
  (l, emit_to_all (dict_keys (GameLobby.players l)) returnToLobby).

(** [removePlayer] returns [true] when the lobby is left empty and should be
    deleted by the caller.  [clearInterval] on the empty path stops the loop
    but leaves the handle in [gameLoop]. *)
Definition removePlayer (socketId : string) (playerSockets : Dict string)
    (l : GameLobby.t) : bool * Dict string * GameLobby.t * list Emit :=
  let l := GameLobby.set_players (dict_delete socketId (GameLobby.players l)) l in
  let playerSockets := dict_delete socketId playerSockets in
  if (playerCount l =? 0)%nat then (true, playerSockets, l, [])
  else if GameLobby.gameStarted l && (playerCount l <? 2)%nat then
    let (l, out) := endGame l in (false, playerSockets, l, out)
  else (false, playerSockets, l, []).

(** ** The per-tick simulation *)

Section Simulation.

(** [Math.sin] and [Math.cos]. *)
Variables Math_sin Math_cos : Q -> Q.

(** *** updatePlayer, block by block *)

(** Handle boost timing. *)
Definition handleBoost (p : Player) : Player :=
  if boosting p then
    let p := set_boostTime (boostTime p - 1) p in
    if (boostTime p <=? 0)%Z then set_maxSpeed 8 (set_boosting false p)
    else p
  else p.

(** Player acceleration/deceleration: the two [if]s run in sequence. *)
Definition targetSpeed (i : Input) (p : Player) : Q :=
  let targetSpeed := 0 in
  let targetSpeed :=
    if up i then (if boosting p then 15 else maxSpeed p) else targetSpeed in
  let targetSpeed :=
    if down i then (- maxSpeed p) / 2 else targetSpeed in
  targetSpeed.

(** Smooth speed transitions. *)
Definition applySpeed (i : Input) (p : Player) : Player :=
  let speedDiff := targetSpeed i p - speed p in
  let p := set_speed (speed p + speedDiff * 0.3) p in
  set_speed (speed p * 0.95) p.

(** Improved steering, then apply turning. *)
Definition applySteering (i : Input) (p : Player) : Player :=
  let steeringSensitivity := Qmin 1 (Qabs (speed p) / 4) in
  let maxSteer := 4 * steeringSensitivity in
  let p :=
    if left i then set_turnSpeed (Qmax (turnSpeed p - 0.4) (- maxSteer)) p
    else if right i then set_turnSpeed (Qmin (turnSpeed p + 0.4) maxSteer) p
    else set_turnSpeed (turnSpeed p * 0.85) p in
  let turnInfluence := Qmin 1 (Qabs (speed p) / 3) in
  set_angle (angle p + (turnSpeed p * 0.02) * turnInfluence) p.

(** Physics-based movement, air resistance, position update and clamping. *)
Definition applyMovement (p : Player) : Player :=
  let forwardX := Math_sin (angle p) in
  let forwardY := - Math_cos (angle p) in
  let p := set_velocityX (velocityX p + forwardX * speed p * 0.1) p in
  let p := set_velocityY (velocityY p + forwardY * speed p * 0.1) p in
  let p := set_velocityX (velocityX p * 0.95) p in
  let p := set_velocityY (velocityY p * 0.95) p in
  let p := set_x (x p + velocityX p) p in
  let p := set_y (y p + velocityY p) p in
  let p := set_x (Qmax 30 (Qmin 370 (x p))) p in
  set_y (Qmax 50 (Qmin 550 (y p))) p.

(** Update score with visual feedback.  The lazy initialisation of
    [speedBonusTimer] is the identity here: the field starts at 0. *)
Definition applySpeedScore (p : Player) : Player * list Emit :=
  let speedPoints := Qfloor (Qabs (speed p) * 0.1) in
  let p := set_score (score p + inject_Z speedPoints * multiplier p) p in
  let p := set_speedBonusTimer (speedBonusTimer p + 1) p in
  if (60 <=? speedBonusTimer p)%Z && (0 <? speedPoints)%Z then
    let bonusPoints := Qfloor (inject_Z speedPoints * multiplier p * 5) in
    (set_speedBonusTimer 0 p,
     [mkEmit (Some (id p))
        (scoreEvent (id p) "speed" (inject_Z bonusPoints) (x p) (y p))])
  else (p, []).

(** Update combo timer. *)
Definition applyComboTimer (p : Player) : Player :=
  if (0 <? comboTimer p)%Z then
    let p := set_comboTimer (comboTimer p - 1) p in
    if (comboTimer p =? 0)%Z
    then set_multiplier (Qmax 1 (multiplier p - 0.5)) p
    else p
  else p.

(** Streak decay after 3000 ms without an obstacle event. *)
Definition applyStreakDecay (now : Z) (p : Player) : Player :=
  if (3000 <? now - lastObstacleTime p)%Z then
    let p :=
      if (0 <? streak p)%Z then
        let p := set_streak (Z.max 0 (streak p - 1)) p in
        set_multiplier (1 + inject_Z (streak p) * 0.2) p
      else p in
    set_lastObstacleTime now p
  else p.

Definition updatePlayer (now : Z) (p : Player) : Player * list Emit :=
  match input p with
  | None => (p, [])
  | Some i =>
      let p := handleBoost p in
      let p := applySpeed i p in
      let p := applySteering i p in
      let p := applyMovement p in
      let (p, out) := applySpeedScore p in
      let p := applyComboTimer p in
      (applyStreakDecay now p, out)
  end.

(** [Object.values(players).forEach(updatePlayer)]. *)
Fixpoint updatePlayers (now : Z) (ps : Dict Player)
  : Dict Player * list Emit :=
  match ps with
  | [] => ([], [])
  | (k, p) :: rest =>
      let (p', out) := updatePlayer now p in
      let (rest', out') := updatePlayers now rest in
      ((k, p') :: rest', out ++ out')
  end.

(** Assignment to one field of [gameState]. *)
Definition with_obstacles (obs : list Obstacle.t) (g : GameState) : GameState :=
  mkGameState obs (boostPads g) (roadOffset g) (timeRemaining g).

Definition with_boostPads (pads : list BoostPad.t) (g : GameState) : GameState :=
  mkGameState (obstacles g) pads (roadOffset g) (timeRemaining g).

Definition with_timeRemaining (t : option Z) (g : GameState) : GameState :=
  mkGameState (obstacles g) (boostPads g) (roadOffset g) t.

(** *** Spawning *)

Fixpoint pushObstacles (now : Z) (ps : list Player) (rng : Rng)
    (obs : list Obstacle.t) : list Obstacle.t * Rng :=
  match ps with
  | [] => (obs, rng)
  | p :: rest =>
      let (r_id, rng) := random rng in
      let (r_x, rng) := random rng in
      let (r_speed, rng) := random rng in
      let obstacle :=
        {| Obstacle.id := inject_Z now + r_id;
           Obstacle.x := r_x * 320 + 40;
           Obstacle.y := -50;
           Obstacle.width := 30;
           Obstacle.height := 60;
           Obstacle.speed := 2 + r_speed * 3;
           Obstacle.playerNum := playerNum p;
           Obstacle.nearMissAwarded := false |} in
      pushObstacles now rest rng (obs ++ [obstacle])
  end.

Fixpoint pushBoostPads (now : Z) (ps : list Player) (rng : Rng)
    (pads : list BoostPad.t) : list BoostPad.t * Rng :=
  match ps with
  | [] => (pads, rng)
  | p :: rest =>
      let (r_id, rng) := random rng in
      let (r_x, rng) := random rng in
      let boostPad :=
        {| BoostPad.id := inject_Z now + r_id;
           BoostPad.x := r_x * 280 + 60;
           BoostPad.y := -80;
           BoostPad.width := 60;
           BoostPad.height := 30;
           BoostPad.speed := 2;
           BoostPad.used := false;
           BoostPad.playerNum := playerNum p |} in
      pushBoostPads now rest rng (pads ++ [boostPad])
  end.

Definition createObstacles (now : Z) (rng : Rng) (l : GameLobby.t)
  : GameLobby.t * Rng :=
  let (obs, rng) :=
    pushObstacles now (dict_values (GameLobby.players l)) rng
      (obstacles (GameLobby.gameState l)) in
  (GameLobby.set_gameState (with_obstacles obs (GameLobby.gameState l)) l, rng).

Definition createBoostPads (now : Z) (rng : Rng) (l : GameLobby.t)
  : GameLobby.t * Rng :=
  let (pads, rng) :=
    pushBoostPads now (dict_values (GameLobby.players l)) rng
      (boostPads (GameLobby.gameState l)) in
  (GameLobby.set_gameState (with_boostPads pads (GameLobby.gameState l)) l, rng).

(** *** Obstacle and pad advancement *)

(** The body run for the first player found with the obstacle's seat. *)
Definition awardSurvival (now : Z) (p : Player) : Player :=
  let survivalPoints := (5 + inject_Z (streak p)) * multiplier p in
  let p := set_score (score p + survivalPoints) p in
  let p := set_streak (streak p + 1) p in
  let p := set_multiplier (Qmin 5 (1 + inject_Z (streak p) * 0.2)) p in
  set_lastObstacleTime now p.

(** [Object.values(players).find(f)] followed by mutation of the object
    found: the first entry satisfying [f] is updated in place. *)
Fixpoint update_first (f : Player -> bool) (g : Player -> Player)
    (ps : Dict Player) : Dict Player :=
  match ps with
  | [] => []
  | (k, p) :: rest =>
      if f p then (k, g p) :: rest else (k, p) :: update_first f g rest
  end.

Definition advanceObstacle (o : Obstacle.t) : Obstacle.t :=
  Obstacle.set_y (Obstacle.y o + (Obstacle.speed o + 3)) o.

(** The [filter] callback of [updateObstacles], run over the list from left
    to right while threading the players it mutates. *)
Fixpoint filterObstacles (now : Z) (ps : Dict Player) (obs : list Obstacle.t)
  : Dict Player * list Obstacle.t :=
  match obs with
  | [] => (ps, [])
  | o :: rest =>
      let o := advanceObstacle o in
      if Qgtb (Obstacle.y o) 650 then
        let ps :=
          update_first (fun p => (playerNum p =? Obstacle.playerNum o)%Z)
            (awardSurvival now) ps in
        filterObstacles now ps rest
      else
        let (ps, rest) := filterObstacles now ps rest in
        (ps, o :: rest)
  end.

Definition updateObstacles (now : Z) (l : GameLobby.t) : GameLobby.t :=
  let (ps, obs) :=
    filterObstacles now (GameLobby.players l)
      (obstacles (GameLobby.gameState l)) in
  GameLobby.set_gameState (with_obstacles obs (GameLobby.gameState l))
    (GameLobby.set_players ps l).

Definition advanceBoostPad (b : BoostPad.t) : BoostPad.t :=
  BoostPad.set_y (BoostPad.y b + (BoostPad.speed b + 3)) b.

Definition updateBoostPads (l : GameLobby.t) : GameLobby.t :=
  let pads :=
    filter (fun b => Qle_bool (BoostPad.y b) 650)
      (map advanceBoostPad (boostPads (GameLobby.gameState l))) in
  GameLobby.set_gameState (with_boostPads pads (GameLobby.gameState l)) l.

(** *** Collisions, near misses and boost pads *)

(** The axis-aligned bounding-box test used for obstacles and pads. *)
Definition overlaps (p : Player) (bx by_ bw bh : Q) : bool :=
  Qltb (x p) (bx + bw) && Qgtb (x p + width p) bx &&
  Qltb (y p) (by_ + bh) && Qgtb (y p + height p) by_.

(** The near-miss test; [distance2] is the squared distance of the centres. *)
Definition nearMissRange (p : Player) (o : Obstacle.t) : bool :=
  let dx := x p + width p / 2 - (Obstacle.x o + Obstacle.width o / 2) in
  let dy := y p + height p / 2 - (Obstacle.y o + Obstacle.height o / 2) in
  let distance2 := dx * dx + dy * dy in
  Qltb distance2 (200 * 200) &&
  Qgtb (Obstacle.y o) (y p - 200) && Qltb (Obstacle.y o) (y p + 200).

Definition collide (p : Player) : Player :=
  let p := set_speed (speed p * 0.3) p in
  let p := set_velocityX (velocityX p * -0.5) p in
  let p := set_velocityY (velocityY p * -0.5) p in
  let penalty := -50 - inject_Z (streak p) * 5 in
  let p := set_score (score p + penalty) p in
  let p := set_streak 0 p in
  let p := set_multiplier 1 p in
  set_nearMissCount 0 p.

Definition awardNearMiss (p : Player) : Player * list Emit :=
  let nearMissPoints := 25 * multiplier p in
  let p := set_score (score p + nearMissPoints) p in
  let p := set_nearMissCount (nearMissCount p + 1) p in
  let ev :=
    mkEmit (Some (id p)) (scoreEvent (id p) "nearMiss" nearMissPoints (x p) (y p)) in
  if (2 <=? nearMissCount p)%Z then
    let perfectPoints := 100 * multiplier p in
    let p := set_score (score p + perfectPoints) p in
    let p := set_nearMissCount 0 p in
    let p := set_perfectCount (perfectCount p + 1) p in
    (p, [ev;
         mkEmit (Some (id p))
           (scoreEvent (id p) "perfect" perfectPoints (x p) (y p))])
  else (p, [ev]).

(** The callback run for one player and one obstacle. *)
Definition checkObstacle (p : Player) (o : Obstacle.t)
  : Player * Obstacle.t * list Emit :=
  if (Obstacle.playerNum o =? playerNum p)%Z then
    if overlaps p (Obstacle.x o) (Obstacle.y o)
         (Obstacle.width o) (Obstacle.height o)
    then (collide p, Obstacle.set_y 700 o, [])
    else if nearMissRange p o then
      if negb (Obstacle.nearMissAwarded o) then
        let (p, out) := awardNearMiss p in
        (p, Obstacle.set_nearMissAwarded true o, out)
      else (p, o, [])
    else (p, o, [])
  else (p, o, []).

Fixpoint checkObstacles (p : Player) (obs : list Obstacle.t)
  : Player * list Obstacle.t * list Emit :=
  match obs with
  | [] => (p, [], [])
  | o :: rest =>
      let '(p, o, out) := checkObstacle p o in
      let '(p, rest, out') := checkObstacles p rest in
      (p, o :: rest, out ++ out')
  end.

Definition collectBoost (now : Z) (p : Player) : Player :=
  let p := set_boosting true p in
  let p := set_boostTime 180 p in
  let p := set_maxSpeed 15 p in
  let boostPoints := (50 + inject_Z (streak p) * 10) * multiplier p in
  let p := set_score (score p + boostPoints) p in
  let p := set_streak (streak p + 1) p in
  let p := set_multiplier (Qmin 5 (1 + inject_Z (streak p) * 0.2)) p in
  let p := set_comboTimer 300 p in
  set_lastObstacleTime now p.

(** The callback run for one player and one boost pad. *)
Definition checkBoostPad (now : Z) (p : Player) (b : BoostPad.t)
  : Player * BoostPad.t :=
  if (BoostPad.playerNum b =? playerNum p)%Z && negb (BoostPad.used b) &&
     overlaps p (BoostPad.x b) (BoostPad.y b)
       (BoostPad.width b) (BoostPad.height b)
  then (collectBoost now p, BoostPad.set_used true b)
  else (p, b).

Fixpoint checkBoostPads (now : Z) (p : Player) (pads : list BoostPad.t)
  : Player * list BoostPad.t :=
  match pads with
  | [] => (p, [])
  | b :: rest =>
      let (p, b) := checkBoostPad now p b in
      let (p, rest) := checkBoostPads now p rest in
      (p, b :: rest)
  end.

(** The outer [forEach] over the players, in insertion order. *)
Fixpoint checkPlayers (now : Z) (ps : Dict Player) (obs : list Obstacle.t)
    (pads : list BoostPad.t)
  : Dict Player * list Obstacle.t * list BoostPad.t * list Emit :=
  match ps with
  | [] => ([], obs, pads, [])
  | (k, p) :: rest =>
      let '(p, obs, out) := checkObstacles p obs in
      let (p, pads) := checkBoostPads now p pads in
      let '(rest, obs, pads, out') := checkPlayers now rest obs pads in
      ((k, p) :: rest, obs, pads, out ++ out')
  end.

Definition checkCollisions (now : Z) (l : GameLobby.t)
  : GameLobby.t * list Emit :=
  let g := GameLobby.gameState l in
  let '(ps, obs, pads, out) :=
    checkPlayers now (GameLobby.players l) (obstacles g) (boostPads g) in
  (GameLobby.set_gameState (with_boostPads pads (with_obstacles obs g))
     (GameLobby.set_players ps l), out).

(** *** The tick *)

Definition updateGame (now : Z) (rng : Rng) (l : GameLobby.t)
  : GameLobby.t * Rng * list Emit :=
  let (l, expired) :=
    if negb (GameLobby.gameEnded l) then
      let elapsed := (now - GameLobby.gameStartTime l)%Z in
      let remaining :=
        Z.max 0
          (Qceiling (inject_Z (GameLobby.gameDuration l - elapsed) / 1000)) in
      (GameLobby.set_gameState
         (with_timeRemaining (Some remaining) (GameLobby.gameState l)) l,
       (remaining <=? 0)%Z)
    else (l, false) in
  if expired then
    let (l, out) := finishGame l in (l, rng, out)
  else
    let (ps, out1) := updatePlayers now (GameLobby.players l) in
    let l := GameLobby.set_players ps l in
    let (r, rng) := random rng in
    let (l, rng) := if Qltb r 0.01 then createObstacles now rng l else (l, rng) in
    let (r, rng) := random rng in
    let (l, rng) := if Qltb r 0.005 then createBoostPads now rng l else (l, rng) in
    let l := updateObstacles now l in
    let l := updateBoostPads l in
    let (l, out2) := checkCollisions now l in
    (l, rng, out1 ++ out2).

Definition broadcastGameState (l : GameLobby.t) : list Emit :=
  let g := GameLobby.gameState l in
  emit_to_all (dict_keys (GameLobby.players l))
    (gameStateMsg (GameLobby.players l) (obstacles g) (boostPads g)
       (timeRemaining g)).

(** The interval callback installed by [startGame]. *)
Definition tick (now : Z) (rng : Rng) (l : GameLobby.t)
  : GameLobby.t * Rng * list Emit :=
  let '(l, rng, out) := updateGame now rng l in
  (l, rng, out ++ broadcastGameState l).

End Simulation.

(** ** The registry and the socket handlers *)

(** The two module-level Maps: [lobbies] and [playerSockets]. *)
Record Server := mkServer {
  lobbies : Dict GameLobby.t;
  playerSockets : Dict string
}.

Definition emptyServer : Server := mkServer [] [].

Definition broadcastLobbyUpdates (s : Server) : list Emit :=
  [mkEmit None (lobbiesUpdate (dict_keys (lobbies s)))].

(** A lobby object is shared between the registry and the handler that
    mutates it: the handlers below write the mutated lobby back under its
    key, whatever the method returned. *)
Definition on_getLobbies (sid : string) (s : Server) : Server * list Emit :=
  (s, [mkEmit (Some sid) (lobbiesUpdate (dict_keys (lobbies s)))]).

Definition on_createLobby (now : Z) (sid lobbyId lobbyName playerName : string)
    (s : Server) : Server * list Emit :=
  let '(socks, l, out) :=
    newGameLobby now lobbyId lobbyName sid playerName (playerSockets s) in
  let s := mkServer (dict_set lobbyId l (lobbies s)) socks in
  (s, out ++ [mkEmit (Some sid) (joinedLobby lobbyId lobbyName 1)]
        ++ broadcastLobbyUpdates s).

Definition on_joinLobby (now : Z) (sid lobbyId playerName : string)
    (s : Server) : Server * list Emit :=
  match dict_get lobbyId (lobbies s) with
  | None => (s, [mkEmit (Some sid) lobbyNotFound])
  | Some l =>
      let '(ok, socks, l, out) :=
        addPlayer now sid playerName (playerSockets s) l in
      let s := mkServer (dict_set lobbyId l (lobbies s)) socks in
      if ok then
        (s, out ++ [mkEmit (Some sid)
                      (joinedLobby lobbyId (GameLobby.name l)
                         (Z.of_nat (playerCount l)))]
              ++ broadcastLobbyUpdates s)
      else (s, out ++ [mkEmit (Some sid) lobbyFull])
  end.

(** The part shared by [leaveLobby] and [disconnect]. *)
Definition leave (sid lobbyId : string) (l : GameLobby.t) (s : Server)
  : Server * list Emit :=
  let '(shouldDelete, socks, l, out) :=
    removePlayer sid (playerSockets s) l in
  let s :=
    if shouldDelete then mkServer (dict_delete lobbyId (lobbies s)) socks
    else mkServer (dict_set lobbyId l (lobbies s)) socks in
  (s, out ++ broadcastLobbyUpdates s).

Definition on_leaveLobby (sid lobbyId : string) (s : Server)
  : Server * list Emit :=
  match dict_get lobbyId (lobbies s) with
  | None => (s, [])
  | Some l => leave sid lobbyId l s
  end.

Definition on_playerInput (sid : string) (data_input : option Input)
    (s : Server) : Server * list Emit :=
  match dict_get sid (playerSockets s) with
  | None => (s, [])
  | Some lobbyId =>
      match dict_get lobbyId (lobbies s) with
      | None => (s, [])
      | Some l =>
          match dict_get sid (GameLobby.players l) with
          | None => (s, [])
          | Some p =>
              let l :=
                GameLobby.set_players
                  (dict_set sid (set_input data_input p) (GameLobby.players l))
                  l in
              (mkServer (dict_set lobbyId l (lobbies s)) (playerSockets s), [])
          end
      end
  end.

Definition on_restartGame (now : Z) (sid lobbyId : string) (s : Server)
  : Server * list Emit :=
  match dict_get lobbyId (lobbies s) with
  | None => (s, [])
  | Some l =>
      match dict_get sid (GameLobby.players l) with
      | None => (s, [])
      | Some _ =>
          if GameLobby.gameEnded l then
            let (l, out) := restartGame now l in
            (mkServer (dict_set lobbyId l (lobbies s)) (playerSockets s), out)
          else (s, [])
      end
  end.

Definition on_backToLobbyFromResults (sid lobbyId : string) (s : Server)
  : Server * list Emit :=
  match dict_get lobbyId (lobbies s) with
  | None => (s, [])
  | Some l =>
      match dict_get sid (GameLobby.players l) with
      | None => (s, [])
      | Some _ =>
          let (l, out) := endGame l in
          (mkServer (dict_set lobbyId l (lobbies s)) (playerSockets s), out)
      end
  end.

Definition on_disconnect (sid : string) (s : Server) : Server * list Emit :=
  match dict_get sid (playerSockets s) with
  | None => (s, [])
  | Some lobbyId =>
      match dict_get lobbyId (lobbies s) with
      | None => (s, [])
      | Some l => leave sid lobbyId l s
      end
  end.

(** The periodic sweep: "Delete empty lobbies older than 10 minutes". *)
Definition sweepable (now : Z) (l : GameLobby.t) : bool :=
  (playerCount l =? 0)%nat &&
  (10 * 60 * 1000 <? now - GameLobby.createdAt l)%Z.

Definition toDelete (now : Z) (s : Server) : list string :=
  dict_keys (filter (fun kv => sweepable now (snd kv)) (lobbies s)).

Definition cleanup (now : Z) (s : Server) : Server * list Emit :=
  let ids := toDelete now s in
  let s :=
    mkServer (fold_left (fun m k => dict_delete k m) ids (lobbies s))
      (playerSockets s) in
  (s, match ids with [] => [] | _ :: _ => broadcastLobbyUpdates s end).

Section Handlers.

Variables Math_sin Math_cos : Q -> Q.

(** The interval callback of the lobby registered under [lobbyId]; it runs
    while that lobby's loop is installed. *)
Definition on_tick (now : Z) (rng : Rng) (lobbyId : string) (s : Server)
  : Server * list Emit :=
  match dict_get lobbyId (lobbies s) with
  | None => (s, [])
  | Some l =>
      if GameLobby.gameLoop l then
        let '(l, _, out) := tick Math_sin Math_cos now rng l in
        (mkServer (dict_set lobbyId l (lobbies s)) (playerSockets s), out)
      else (s, [])
  end.

(** Everything that can happen to the server. *)
Inductive Request :=
| GetLobbies (sid : string)
| CreateLobby (now : Z) (sid lobbyId lobbyName playerName : string)
| JoinLobby (now : Z) (sid lobbyId playerName : string)
| LeaveLobby (sid lobbyId : string)
| PlayerInput (sid : string) (data_input : option Input)
| RestartGame (now : Z) (sid lobbyId : string)
| BackToLobbyFromResults (sid lobbyId : string)
| Disconnect (sid : string)
| Cleanup (now : Z)
| Tick (now : Z) (rng : Rng) (lobbyId : string).

Definition handle (r : Request) (s : Server) : Server * list Emit :=
  match r with
  | GetLobbies sid => on_getLobbies sid s
  | CreateLobby now sid lobbyId lobbyName playerName =>
      on_createLobby now sid lobbyId lobbyName playerName s
  | JoinLobby now sid lobbyId playerName =>
      on_joinLobby now sid lobbyId playerName s
  | LeaveLobby sid lobbyId => on_leaveLobby sid lobbyId s
  | PlayerInput sid data_input => on_playerInput sid data_input s
  | RestartGame now sid lobbyId => on_restartGame now sid lobbyId s
  | BackToLobbyFromResults sid lobbyId =>
      on_backToLobbyFromResults sid lobbyId s
  | Disconnect sid => on_disconnect sid s
  | Cleanup now => cleanup now s
  | Tick now rng lobbyId => on_tick now rng lobbyId s
  end.

(** The server after a sequence of requests, oldest first. *)
Fixpoint run (rs : list Request) (s : Server) : Server :=
  match rs with
  | [] => s
  | r :: rest => run rest (fst (handle r s))
  end.

Definition reachable (s : Server) : Prop :=
  exists rs, s = run rs emptyServer.

End Handlers.

(** ** Values used in the statements below *)

(** Rational stand-ins for the two trigonometric parameters, used where a
    statement proved for every [Math_sin] and [Math_cos] is instantiated:
    the Taylor polynomials of degree 3 and 2. *)
Definition sin_poly (a : Q) : Q := a - a * a * a / 6.
Definition cos_poly (a : Q) : Q := 1 - a * a / 2.

(** The value assigned to [targetSpeed] by the [input.up] branch. *)
Definition accelerateTarget (p : Player) : Q :=
  if boosting p then 15 else maxSpeed p.

(** Input vectors. *)
Definition holdUp : Input := mkInput true false false false.
Definition holdUpDown : Input := mkInput true true false false.

(** A freshly seated player, as [addPlayer] creates the first seat. *)
Definition ann : Player := newPlayer 0 "s1" 1 "Ann".

(** [ann] after 22 of her obstacles have left the screen at time 1000. *)
Definition annStreak22 : Player := Nat.iter 22 (awardSurvival 1000) ann.

(** A lobby created by socket [s1] and joined by socket [s2] at time 0. *)
Definition twoSeats : Server :=
  fst (on_joinLobby 0 "s2" "L" "Bob"
         (fst (on_createLobby 0 "s1" "L" "Lobby" "Ann" emptyServer))).

(** The lobby registered under ["L"], the only one in the scenarios below
    (an empty lobby when there is none). *)
Definition lobbyOf (s : Server) : GameLobby.t :=
  match dict_get "L" (lobbies s) with
  | Some l => l
  | None => GameLobby.mk "" "" [] false (mkGameState [] [] 0 None) false 0 0 0 false
  end.

(** A boost pad of seat 1 lying on the spawn position. *)
Definition padOnSpawn : BoostPad.t :=
  BoostPad.mk 1 200 500 60 30 2 false 1.

(** The running match in which seat 1 has just collected [padOnSpawn]
    (time 29000) and which then times out. *)
Definition finishedWhileBoosting : GameLobby.t :=
  let l := lobbyOf twoSeats in
  let l :=
    GameLobby.set_gameState
      (with_boostPads [padOnSpawn] (GameLobby.gameState l)) l in
  fst (finishGame (fst (checkCollisions 29000 l))).

(** The player that socket [sid] has in lobby [l] (a blank player when the
    socket is not seated there). *)
Definition seat (sid : string) (l : GameLobby.t) : Player :=
  match dict_get sid (GameLobby.players l) with
  | Some p => p
  | None => newPlayer 0 "" 0 ""
  end.

(** Seat 1 of [twoSeats] holds accelerate. *)
Definition annDrives : Server :=
  fst (on_playerInput "s1" (Some holdUp) twoSeats).

(** A stream of draws under which nothing spawns, and one such stream. *)
Definition calm (rng : Rng) : Prop := forall k, 0.01 <= draws rng k.
Definition steady : Rng := mkRng (fun _ => 0.5) 0.

(** 600 ticks, 17 ms apart, during which nothing spawns. *)
Definition sixHundredTicks : list (Z * Rng) :=
  map (fun n => ((17 * Z.of_nat n)%Z, steady)) (seq 1 600).

(** Ticks of lobby ["L"], each with its clock reading and its draws. *)
Definition ticksOf (ts : list (Z * Rng)) : list Request :=
  map (fun t => Tick (fst t) (snd t) "L") ts.

(** The state of a seat that has only ever held accelerate on an empty
    road: unboosted, speed in [0, 7], nothing scored. *)
Definition cruising (p : Player) : Prop :=
  input p = Some holdUp /\ boosting p = false /\ maxSpeed p == 8 /\
  0 <= speed p /\ speed p <= 7 /\ multiplier p == 1 /\ streak p = 0%Z /\
  comboTimer p = 0%Z /\ score p == 0.

(** A lobby of two seats, the first cruising, with nothing on the road. *)
Definition quietRace (l : GameLobby.t) : Prop :=
  exists pa pb,
    GameLobby.players l = [("s1"%string, pa); ("s2"%string, pb)] /\
    cruising pa /\
    obstacles (GameLobby.gameState l) = [] /\
    boostPads (GameLobby.gameState l) = [].

Definition quietServer (s : Server) : Prop :=
  exists l, lobbies s = [("L"%string, l)] /\ quietRace l.

(** What [updateObstacles] keeps: the advanced obstacles still on screen. *)
Definition onScreen (o : Obstacle.t) : bool := Qle_bool (Obstacle.y o) 650.

(** An obstacle of seat 1 overlapping the spawn position and the running
    lobby whose only obstacle is that one. *)
Definition rock : Obstacle.t := Obstacle.mk 7 200 480 30 60 2 1 false.

Definition beforeCrash : GameLobby.t :=
  let l := lobbyOf twoSeats in
  GameLobby.set_gameState (with_obstacles [rock] (GameLobby.gameState l)) l.

(** What happens to one obstacle while it is in the list: each tick
    [updateObstacles] advances it, then [checkCollisions] runs
    [checkObstacle] on it once for every player of the lobby, whatever state
    those players are in by then. *)
Inductive ObstacleStep :=
| Advance
| Check (p : Player).

(** The obstacle after a sequence of such steps and the messages emitted on
    the way. *)
Fixpoint lifetime (o : Obstacle.t) (steps : list ObstacleStep)
  : Obstacle.t * list Emit :=
  match steps with
  | [] => (o, [])
  | Advance :: rest => lifetime (advanceObstacle o) rest
  | Check p :: rest =>
      let '(_, o, out) := checkObstacle p o in
      let (o, out') := lifetime o rest in
      (o, out ++ out')
  end.

(** The near-miss award and its ['nearMiss'] message come together. *)
Definition isNearMiss (e : Emit) : bool :=
  match event e with
  | scoreEvent _ type _ _ _ => String.eqb type "nearMiss"
  | _ => false
  end.

Definition nearMissAwards (out : list Emit) : nat :=
  List.length (filter isNearMiss out).

(** A player next to [rock]'s lane: in near-miss range, not overlapping. *)
Definition bystander : Player := set_x 240 ann.

(** Seat counts of the lobbies held by the registry. *)
Definition seatsOk (l : GameLobby.t) : Prop :=
  (1 <= playerCount l <= 2)%nat.

(** A property of lobbies that holds of every lobby in the registry. *)
Definition registryHolds (P : GameLobby.t -> Prop) (s : Server) : Prop :=
  Forall (fun kl => P (snd kl)) (lobbies s).

Definition registryOk (s : Server) : Prop := registryHolds seatsOk s.

(** The part of the scoring state that every operation keeps in range. *)
Definition playerOk (p : Player) : Prop :=
  1 <= multiplier p /\ (0 <= streak p)%Z.

Definition playersOk (l : GameLobby.t) : Prop :=
  Forall (fun kp => playerOk (snd kp)) (GameLobby.players l).

(** The fields the movement blocks of [updatePlayer] never assign. *)
Definition sameLedger (p q : Player) : Prop :=
  id q = id p /\ playerNum q = playerNum p /\ input q = input p /\
  boosting q = boosting p /\ boostTime q = boostTime p /\
  maxSpeed q = maxSpeed p /\ score q = score p /\ streak q = streak p /\
  multiplier q = multiplier p /\ comboTimer q = comboTimer p /\
  lastObstacleTime q = lastObstacleTime p /\
  nearMissCount q = nearMissCount p /\
  speedBonusTimer q = speedBonusTimer p.

(** One player of a two-player lobby leaves and a new socket joins. *)
Definition seatReuse : list Request :=
  [CreateLobby 0 "s1" "L" "Lobby" "Ann";
   JoinLobby 0 "s2" "L" "Bob";
   LeaveLobby "s1" "L";
   JoinLobby 5000 "s3" "L" "Cy"].



(** ** Ranges kept by every player *)

(** The arena: the bounds [updatePlayer] clamps the position to. *)
Definition inArena (p : Player) : Prop :=
  30 <= x p /\ x p <= 370 /\ 50 <= y p /\ y p <= 550.

(** Multiplier and streak: at least 1, at most what the streak pays for. *)
Definition ledgerBounds (p : Player) : Prop :=
  1 <= multiplier p /\
  multiplier p <= 1 + inject_Z (streak p) * 0.2 /\
  (0 <= streak p)%Z.

Definition speedBounds (p : Player) : Prop :=
  -(15 # 2) <= speed p /\ speed p <= 15 /\
  -(4) <= turnSpeed p /\ turnSpeed p <= 4.

(** [maxSpeed] is 8 or 15, and a boosting player has 15 and between 1 and
    180 boost ticks left. *)
Definition boostState (p : Player) : Prop :=
  (maxSpeed p == 8 \/ maxSpeed p == 15) /\
  (boosting p = true -> maxSpeed p == 15 /\ (1 <= boostTime p <= 180)%Z).

Definition counterBounds (p : Player) : Prop :=
  (0 <= nearMissCount p <= 1)%Z /\
  (0 <= comboTimer p <= 300)%Z /\
  (0 <= perfectCount p)%Z /\
  (1 <= playerNum p <= 2)%Z /\
  width p == 30 /\ height p == 60.

Definition sound (p : Player) : Prop :=
  inArena p /\ ledgerBounds p /\ speedBounds p /\ boostState p /\
  counterBounds p.

(** [p] is a player of some lobby of the registry. *)
Definition seated (s : Server) (p : Player) : Prop :=
  exists k l sid,
    In (k, l) (lobbies s) /\ In (sid, p) (GameLobby.players l).

Definition allPlayers (Q : Player -> Prop) (l : GameLobby.t) : Prop :=
  Forall (fun kp => Q (snd kp)) (GameLobby.players l).

(** The two requests that fill lobby ["L"]: they lead to [twoSeats]. *)
Definition openingMoves : list Request :=
  [CreateLobby 0 "s1" "L" "Lobby" "Ann"; JoinLobby 0 "s2" "L" "Bob"].

(** [n] consecutive runs of [updatePlayer] on one player, the [k]-th at
    clock reading [clock k]. *)
Fixpoint updateRepeatedly (Math_sin Math_cos : Q -> Q) (clock : nat -> Z)
    (n : nat) (p : Player) : Player :=
  match n with
  | O => p
  | S k =>
      fst (updatePlayer Math_sin Math_cos (clock k)
             (updateRepeatedly Math_sin Math_cos clock k p))
  end.

(** [ann] just after she has collected a boost pad at time 0. *)
Definition annBoosted : Player := collectBoost 0 ann.

(** An obstacle of seat 1 beside the spawn position: in near-miss range of
    [ann], not overlapping her. *)
Definition pebble : Obstacle.t := Obstacle.mk 9 240 480 30 60 2 1 false.

(** The lobby a [createLobby] request registers: its creator alone, seat 1,
    no match started. *)
Definition freshLobby (now : Z) (lobbyId lobbyName sid playerName : string)
  : GameLobby.t :=
  {| GameLobby.id := lobbyId; GameLobby.name := lobbyName;
     GameLobby.players := [(sid, newPlayer now sid 1 playerName)];
     GameLobby.gameStarted := false;
     GameLobby.gameState := mkGameState [] [] 0 None;
     GameLobby.gameLoop := false; GameLobby.createdAt := now;
     GameLobby.gameStartTime := 0; GameLobby.gameDuration := 0;
     GameLobby.gameEnded := false |}.

(** A lobby in which socket [s1] sits alone, and a running lobby of two. *)
Definition annAlone : GameLobby.t := freshLobby 0 "L" "Lobby" "s1" "Ann".

(** The part of [updateGame] that follows the timer check. *)
Definition simulate (Math_sin Math_cos : Q -> Q) (now : Z) (rng : Rng)
    (l : GameLobby.t) : GameLobby.t * Rng * list Emit :=
  let (ps, out1) := updatePlayers Math_sin Math_cos now (GameLobby.players l) in
  let l := GameLobby.set_players ps l in
  let (r, rng) := random rng in
  let (l, rng) := if Qltb r 0.01 then createObstacles now rng l else (l, rng) in
  let (r, rng) := random rng in
  let (l, rng) := if Qltb r 0.005 then createBoostPads now rng l else (l, rng) in
  let l := updateObstacles now l in
  let l := updateBoostPads l in
  let (l, out2) := checkCollisions now l in
  (l, rng, out1 ++ out2).

(** The value [updateGame] stores in [timeRemaining]. *)
Definition remainingSeconds (now : Z) (l : GameLobby.t) : Z :=
  Z.max 0
    (Qceiling
       (inject_Z (GameLobby.gameDuration l - (now - GameLobby.gameStartTime l))
        / 1000)).

(** What a tick of the simulation leaves alone: everything but the players,
    the obstacles and the boost pads. *)
Definition sameMatch (l l' : GameLobby.t) : Prop :=
  GameLobby.id l' = GameLobby.id l /\
  GameLobby.name l' = GameLobby.name l /\
  GameLobby.gameStarted l' = GameLobby.gameStarted l /\
  GameLobby.gameLoop l' = GameLobby.gameLoop l /\
  GameLobby.createdAt l' = GameLobby.createdAt l /\
  GameLobby.gameStartTime l' = GameLobby.gameStartTime l /\
  GameLobby.gameDuration l' = GameLobby.gameDuration l /\
  GameLobby.gameEnded l' = GameLobby.gameEnded l /\
  timeRemaining (GameLobby.gameState l') =
    timeRemaining (GameLobby.gameState l) /\
  roadOffset (GameLobby.gameState l') = roadOffset (GameLobby.gameState l).

(** [Math.random()] returns a number in [0, 1). *)
Definition unitDraws (rng : Rng) : Prop :=
  forall k, 0 <= draws rng k /\ draws rng k < 1.

(** The ranges in which [createObstacles] and [createBoostPads] draw. *)
Definition obstacleShape (o : Obstacle.t) : Prop :=
  2 <= Obstacle.speed o /\ Obstacle.speed o < 5 /\
  40 <= Obstacle.x o /\ Obstacle.x o < 360 /\
  Obstacle.width o = 30 /\ Obstacle.height o = 60.

Definition padShape (b : BoostPad.t) : Prop :=
  BoostPad.speed b = 2 /\
  60 <= BoostPad.x b /\ BoostPad.x b < 340 /\
  BoostPad.width b = 60 /\ BoostPad.height b = 30.

(** An obstacle still on the road, or just hit and parked at [y = 700]. *)
Definition obstaclePlaced (o : Obstacle.t) : Prop :=
  Obstacle.y o <= 650 \/ Obstacle.y o = 700.

(** The results [finishGame] sends with [gameFinished].  [Array.sort] is
    stable, so with the comparator [b.score - a.score] it yields the
    descending order in which players of equal score keep the order of
    [Object.values]; [sortByScore] builds that order by insertion. *)
Record Standing := mkStanding {
  standingName : string;
  standingNum : Z;
  standingScore : Z
}.

Record GameResults := mkGameResults {
  winner : option Standing;
  standings : list Standing;
  gameTime : Z
}.

Definition standingOf (p : Player) : Standing :=
  mkStanding (name p) (playerNum p) (Qfloor (score p)).

Fixpoint insertByScore (p : Player) (sorted : list Player) : list Player :=
  match sorted with
  | [] => [p]
  | q :: rest =>
      if Qle_bool (score q) (score p) then p :: q :: rest
      else q :: insertByScore p rest
  end.

Fixpoint sortByScore (ps : list Player) : list Player :=
  match ps with
  | [] => []
  | p :: rest => insertByScore p (sortByScore rest)
  end.

Definition gameResults (l : GameLobby.t) : GameResults :=
  let playerArray := sortByScore (dict_values (GameLobby.players l)) in
  mkGameResults (option_map standingOf (hd_error playerArray))
    (map standingOf playerArray) 30.

(** A lobby that waits with the players [keys]: no match started or
    finished, no loop installed. *)
Definition waitingWith (keys : list string) (l : GameLobby.t) : Prop :=
  dict_keys (GameLobby.players l) = keys /\
  GameLobby.gameStarted l = false /\
  GameLobby.gameEnded l = false /\
  GameLobby.gameLoop l = false.

Definition waitsAt (lobbyId : string) (keys : list string) (s : Server)
  : Prop :=
  registryOk s /\
  exists l, dict_get lobbyId (lobbies s) = Some l /\ waitingWith keys l.

(** Requests that neither take one of the players [keys] out of a lobby nor
    register a new lobby under [lobbyId]. *)
Definition keepsSeats (lobbyId : string) (keys : list string) (r : Request)
  : Prop :=
  match r with
  | CreateLobby _ _ newId _ _ => newId <> lobbyId
  | LeaveLobby sid from => from <> lobbyId \/ ~ In sid keys
  | Disconnect sid => ~ In sid keys
  | _ => True
  end.

(** Each player object is stored under its own socket id. *)
Definition keyed (l : GameLobby.t) : Prop :=
  Forall (fun kp => id (snd kp) = fst kp) (GameLobby.players l).

(** The key and the [id] field of every entry, in order. *)
Definition seatIds (ps : Dict Player) : list (string * string) :=
  map (fun kp => (fst kp, id (snd kp))) ps.

(** [io.to(sid).emit] with [sid] one of [keys]. *)
Definition addressedTo (keys : list string) (e : Emit) : Prop :=
  exists sid, target e = Some sid /\ In sid keys.

(** ** The tick, step by step *)

(** The timer check of [updateGame] writes the remaining time. *)
Definition stampTime (now : Z) (l : GameLobby.t) : GameLobby.t :=
  if GameLobby.gameEnded l then l
  else
    GameLobby.set_gameState
      (with_timeRemaining (Some (remainingSeconds now l))
         (GameLobby.gameState l)) l.

(** The match is on and its time has not run out at [now]: [updateGame]
    goes past the timer check. *)
Definition running (now : Z) (l : GameLobby.t) : Prop :=
  GameLobby.gameEnded l = false /\
  (now - GameLobby.gameStartTime l < GameLobby.gameDuration l)%Z.

(** The steps of [updateGame] between the timer check and
    [checkCollisions]. *)
Definition movePlayers (Math_sin Math_cos : Q -> Q) (now : Z)
    (l : GameLobby.t) : GameLobby.t * list Emit :=
  let (ps, out) := updatePlayers Math_sin Math_cos now (GameLobby.players l) in
  (GameLobby.set_players ps l, out).

Definition spawn (now : Z) (rng : Rng) (l : GameLobby.t)
  : GameLobby.t * Rng :=
  let (r, rng) := random rng in
  let (l, rng) := if Qltb r 0.01 then createObstacles now rng l else (l, rng) in
  let (r, rng) := random rng in
  if Qltb r 0.005 then createBoostPads now rng l else (l, rng).

Definition beforeCollisions (Math_sin Math_cos : Q -> Q) (now : Z)
    (rng : Rng) (l : GameLobby.t) : GameLobby.t * Rng * list Emit :=
  let (l, out1) := movePlayers Math_sin Math_cos now l in
  let (l, rng) := spawn now rng l in
  (updateBoostPads (updateObstacles now l), rng, out1).

(** The lobby as [checkCollisions] finds it in the tick at [now]. *)
Definition atCollisionPass (Math_sin Math_cos : Q -> Q) (now : Z)
    (rng : Rng) (l : GameLobby.t) : GameLobby.t :=
  fst (fst (beforeCollisions Math_sin Math_cos now rng (stampTime now l))).

(** Assignment to [gameState.obstacles]. *)
Definition withObstacles (obs : list Obstacle.t) (l : GameLobby.t)
  : GameLobby.t :=
  GameLobby.set_gameState (with_obstacles obs (GameLobby.gameState l)) l.

(** The tests of [checkCollisions]: the callback does something to player
    [p] and obstacle [o], or to player [p] and pad [b]. *)
Definition meets (p : Player) (o : Obstacle.t) : bool :=
  (Obstacle.playerNum o =? playerNum p)%Z &&
  (overlaps p (Obstacle.x o) (Obstacle.y o)
     (Obstacle.width o) (Obstacle.height o)
   || nearMissRange p o && negb (Obstacle.nearMissAwarded o)).

Definition collects (p : Player) (b : BoostPad.t) : bool :=
  (BoostPad.playerNum b =? playerNum p)%Z && negb (BoostPad.used b) &&
  overlaps p (BoostPad.x b) (BoostPad.y b)
    (BoostPad.width b) (BoostPad.height b).

(** What the collision tests read of a player. *)
Definition body (p : Player) : Z * Q * Q * Q * Q :=
  (playerNum p, x p, y p, width p, height p).

Definition bodies (ps : Dict Player) : list (string * (Z * Q * Q * Q * Q)) :=
  map (fun kp => (fst kp, body (snd kp))) ps.

(** Two lists that differ at most in entries of other seats than [s]. *)
Definition sameSeatObstacles (s : Z) (obs obs' : list Obstacle.t) : Prop :=
  Forall2 (fun a a' => Obstacle.playerNum a' = Obstacle.playerNum a /\
                       (Obstacle.playerNum a = s -> a' = a)) obs obs'.

Definition sameSeatPads (s : Z) (pads pads' : list BoostPad.t) : Prop :=
  Forall2 (fun a a' => BoostPad.playerNum a' = BoostPad.playerNum a /\
                       (BoostPad.playerNum a = s -> a' = a)) pads pads'.


(** ** Two matches with motionless players *)

(** Draws that make [updateGame] spawn one obstacle per player, at
    [x = 320 * rx + 40] with speed 2, and no boost pad. *)
Definition spawnAt (rx : Q) : Rng :=
  mkRng (fun k => match k with
                  | 0%nat | 1%nat | 3%nat | 4%nat | 6%nat => 0
                  | 2%nat | 5%nat => rx
                  | _ => 0.5
                  end) 0.

(** Both sockets send [playerInput] without an [input] field: from then on
    [updatePlayer] returns at once and the players stay where they are. *)
Definition standStill : list Request :=
  openingMoves ++ [PlayerInput "s1" None; PlayerInput "s2" None].

(** [n] ticks, 16 ms apart, the [j]-th with the draws [drawsAt j], and the
    server they lead to. *)
Definition ticksApart (drawsAt : nat -> Rng) (n : nat) : list Request :=
  map (fun j => Tick (16 * Z.of_nat j) (drawsAt j) "L") (seq 1 n).

Definition stillMatch (drawsAt : nat -> Rng) (n : nat) : Server :=
  run sin_poly cos_poly (standStill ++ ticksApart drawsAt n) emptyServer.

(** One pair of obstacles spawned on the first tick in the players' lane:
    they reach the players on tick 99. *)
Definition earlyRock (j : nat) : Rng :=
  if (j =? 1)%nat then spawnAt (1 # 2) else steady.

(** The same pair spawned on tick 1776 and a second pair, 40 to the right,
    on tick 1804: on tick 1874, 16 ms before the 30 seconds are over, the
    players hit the first pair and come into near-miss range of the
    second. *)
Definition lateRocks (j : nat) : Rng :=
  if (j =? 1776)%nat then spawnAt (1 # 2)
  else if (j =? 1804)%nat then spawnAt (5 # 8) else steady.



(** The late match before, after and one tick past the collision, as
    values. *)
Definition lateEve : Server := Eval vm_compute in stillMatch lateRocks 1873.
Definition lateCrash : Server := Eval vm_compute in stillMatch lateRocks 1874.
Definition lateEnd : Server := Eval vm_compute in stillMatch lateRocks 1875.

(** * Properties *)

(** ** Comparisons *)

Lemma Qltb_true (a b : Q) : Qltb a b = true <-> a < b.
Proof.
  unfold Qltb. rewrite negb_true_iff.
  split; intro H.
  - apply Qnot_le_lt. intro Hle. apply Qle_bool_iff in Hle. congruence.
  - destruct (Qle_bool b a) eqn:E; [|reflexivity].
    apply Qle_bool_iff in E. exfalso. apply (Qlt_not_le _ _ H E).
Qed.

Lemma Qltb_false (a b : Q) : Qltb a b = false <-> b <= a.
Proof.
  unfold Qltb. rewrite negb_false_iff. apply Qle_bool_iff.
Qed.

Lemma Qgtb_true (a b : Q) : Qgtb a b = true <-> b < a.
Proof. apply Qltb_true. Qed.

Lemma Qgtb_false (a b : Q) : Qgtb a b = false <-> a <= b.
Proof. apply Qltb_false. Qed.

(** ** Field access after the blocks of [updatePlayer] *)

Section PlayerFacts.

Variables Math_sin Math_cos : Q -> Q.

Lemma speed_applyStreakDecay now p : speed (applyStreakDecay now p) = speed p.
Proof.
  unfold applyStreakDecay.
  destruct (3000 <? now - lastObstacleTime p)%Z; [|reflexivity].
  destruct (0 <? streak p)%Z; reflexivity.
Qed.

Lemma speed_applyComboTimer p : speed (applyComboTimer p) = speed p.
Proof.
  unfold applyComboTimer.
  destruct (0 <? comboTimer p)%Z; [|reflexivity]. simpl.
  destruct (comboTimer p - 1 =? 0)%Z; reflexivity.
Qed.

Lemma speed_applySpeedScore p : speed (fst (applySpeedScore p)) = speed p.
Proof.
  unfold applySpeedScore.
  match goal with |- context [if ?c then _ else _] => destruct c end;
    reflexivity.
Qed.

Lemma speed_applyMovement p :
  speed (applyMovement Math_sin Math_cos p) = speed p.
Proof. reflexivity. Qed.

Lemma speed_applySteering i p : speed (applySteering i p) = speed p.
Proof.
  unfold applySteering. destruct (left i); [|destruct (right i)]; reflexivity.
Qed.

Lemma speed_applySpeed i p :
  speed (applySpeed i p) = (speed p + (targetSpeed i p - speed p) * 0.3) * 0.95.
Proof. reflexivity. Qed.

Lemma updatePlayer_unfold now p i :
  input p = Some i ->
  fst (updatePlayer Math_sin Math_cos now p) =
  applyStreakDecay now
    (applyComboTimer
       (fst (applySpeedScore
               (applyMovement Math_sin Math_cos
                  (applySteering i (applySpeed i (handleBoost p))))))).
Proof.
  intro Hi. unfold updatePlayer. rewrite Hi.
  destruct (applySpeedScore _) as [q out]. reflexivity.
Qed.

Lemma speed_updatePlayer now p i :
  input p = Some i ->
  speed (fst (updatePlayer Math_sin Math_cos now p)) =
  (speed p + (targetSpeed i (handleBoost p) - speed p) * 0.3) * 0.95.
Proof.
  intro Hi. rewrite (updatePlayer_unfold now p i Hi).
  rewrite speed_applyStreakDecay, speed_applyComboTimer, speed_applySpeedScore,
    speed_applyMovement, speed_applySteering, speed_applySpeed.
  assert (Hs : speed (handleBoost p) = speed p).
  { unfold handleBoost. destruct (boosting p); [|reflexivity]. simpl.
    destruct (boostTime p - 1 <=? 0)%Z; reflexivity. }
  rewrite Hs. reflexivity.
Qed.

Lemma handleBoost_streak (p : Player) :
  streak (handleBoost p) = streak p /\
  multiplier (handleBoost p) = multiplier p.
Proof.
  unfold handleBoost. destruct (boosting p); [|auto].
  destruct (boostTime (set_boostTime _ p) <=? 0)%Z; split; reflexivity.
Qed.

Lemma movement_ledger i p :
  sameLedger p
    (applyMovement Math_sin Math_cos (applySteering i (applySpeed i p))).
Proof.
  unfold sameLedger, applySteering.
  destruct (left i); [|destruct (right i)]; repeat split; reflexivity.
Qed.

Lemma movement_speed i p :
  speed (applyMovement Math_sin Math_cos (applySteering i (applySpeed i p))) =
  (speed p + (targetSpeed i p - speed p) * 0.3) * 0.95.
Proof.
  now rewrite speed_applyMovement, speed_applySteering, speed_applySpeed.
Qed.

End PlayerFacts.


(** ** Reduction of field accesses *)

Ltac player_fields :=
  cbn [id playerNum name x y width height speed maxSpeed angle velocityX
       velocityY turnSpeed boosting boostTime score streak multiplier
       perfectCount lastObstacleTime comboTimer nearMissCount input
       speedBonusTimer
       set_x set_y set_speed set_maxSpeed set_angle set_velocityX
       set_velocityY set_turnSpeed set_boosting set_boostTime set_score
       set_streak set_multiplier set_perfectCount set_lastObstacleTime
       set_comboTimer set_nearMissCount set_input set_speedBonusTimer
       up down left right holdUp holdUpDown noInput fst snd].

Ltac lobby_fields :=
  cbn [GameLobby.id GameLobby.name GameLobby.players GameLobby.gameStarted
       GameLobby.gameState GameLobby.gameLoop GameLobby.createdAt
       GameLobby.gameStartTime GameLobby.gameDuration GameLobby.gameEnded
       GameLobby.set_players GameLobby.set_gameStarted
       GameLobby.set_gameState GameLobby.set_gameLoop
       GameLobby.set_gameStartTime GameLobby.set_gameDuration
       GameLobby.set_gameEnded
       obstacles boostPads roadOffset timeRemaining
       with_obstacles with_boostPads with_timeRemaining fst snd].

(** Names the outcome of the timer check that opens [updateGame]. *)
Ltac timer_check l expired E :=
  match goal with
  | |- context [if negb ?b then ?u else ?v] =>
      destruct (if negb b then u else v) as [l expired] eqn:E
  end.

(** ** Dictionaries *)

Section DictFacts.

Context {V : Type}.
Implicit Types (m : Dict V) (k : string) (v : V).

Lemma dict_set_length_le k v m :
  (List.length m <= List.length (dict_set k v m) <= S (List.length m))%nat.
Proof.
  induction m as [|[k' v'] m IH]; cbn [dict_set List.length]; [lia|].
  destruct (String.eqb k k'); cbn [List.length]; lia.
Qed.

Lemma dict_set_length_pos k v m : (1 <= List.length (dict_set k v m))%nat.
Proof.
  destruct m as [|[k' v'] m]; cbn [dict_set List.length]; [lia|].
  destruct (String.eqb k k'); cbn [List.length]; lia.
Qed.

Lemma dict_set_length_present k v v0 m :
  dict_get k m = Some v0 ->
  List.length (dict_set k v m) = List.length m.
Proof.
  induction m as [|[k' v'] m IH]; cbn [dict_get dict_set List.length];
    [discriminate|].
  destruct (String.eqb k k'); cbn [List.length]; [reflexivity|].
  intro H. now rewrite IH.
Qed.

Lemma dict_set_same k v m : dict_get k m = Some v -> dict_set k v m = m.
Proof.
  induction m as [|[k' v'] m IH]; cbn [dict_get dict_set]; [discriminate|].
  destruct (String.eqb k k') eqn:E.
  - intro H. now inversion H.
  - intro H. now rewrite IH.
Qed.

Lemma dict_delete_length_le k m :
  (List.length (dict_delete k m) <= List.length m)%nat.
Proof.
  induction m as [|[k' v'] m IH]; cbn [dict_delete List.length]; [lia|].
  destruct (String.eqb k k'); cbn [List.length]; lia.
Qed.

Lemma in_dict_set k v m kv :
  In kv (dict_set k v m) -> snd kv = v \/ In kv m.
Proof.
  induction m as [|[k' v'] m IH]; cbn [dict_set].
  - intros [<- | []]. now left.
  - destruct (String.eqb k k').
    + intros [<- | H]; [now left | right; now right].
    + intros [<- | H]; [right; now left|].
      destruct (IH H); [now left | right; now right].
Qed.

Lemma in_dict_delete k m kv : In kv (dict_delete k m) -> In kv m.
Proof.
  induction m as [|[k' v'] m IH]; cbn [dict_delete]; [auto|].
  destruct (String.eqb k k').
  - intro H. now right.
  - intros [<- | H]; [now left | right; auto].
Qed.

Lemma dict_get_in k v m : dict_get k m = Some v -> In (k, v) m.
Proof.
  induction m as [|[k' v'] m IH]; cbn [dict_get]; [discriminate|].
  destruct (String.eqb k k') eqn:E.
  - intro H. inversion H; subst. apply String.eqb_eq in E. subst. now left.
  - intro H. right. auto.
Qed.

Lemma dict_keys_map (f : V -> V) m : dict_keys (dict_map f m) = dict_keys m.
Proof.
  unfold dict_keys, dict_map. rewrite map_map. reflexivity.
Qed.

End DictFacts.

(** ** Seat counts *)

Lemma playerCount_startGame now l :
  playerCount (fst (startGame now l)) = playerCount l.
Proof. reflexivity. Qed.

Lemma playerCount_finishGame l :
  playerCount (fst (finishGame l)) = playerCount l.
Proof.
  unfold finishGame. cbn [fst]. lobby_fields.
  destruct (GameLobby.gameLoop l); reflexivity.
Qed.

Lemma playerCount_dict_map (f : Player -> Player) l :
  playerCount (GameLobby.set_players (dict_map f (GameLobby.players l)) l) =
  playerCount l.
Proof.
  unfold playerCount. lobby_fields. now rewrite dict_keys_map.
Qed.

Lemma playerCount_restartGame now l :
  playerCount (fst (restartGame now l)) = playerCount l.
Proof.
  unfold restartGame. rewrite playerCount_startGame.
  apply playerCount_dict_map.
Qed.

Lemma playerCount_endGame l : playerCount (fst (endGame l)) = playerCount l.
Proof.
  unfold endGame. cbn [fst]. lobby_fields.
  destruct (GameLobby.gameLoop l); unfold playerCount; lobby_fields;
    now rewrite dict_keys_map.
Qed.

Lemma playerCount_length l :
  playerCount l = List.length (GameLobby.players l).
Proof. unfold playerCount, dict_keys. apply length_map. Qed.

(** [addPlayer] on a full lobby changes nothing and reports failure. *)
Lemma addPlayer_full now sid playerName socks l :
  playerCount l = 2%nat ->
  addPlayer now sid playerName socks l = (false, socks, l, []).
Proof. intro H. unfold addPlayer. rewrite H. reflexivity. Qed.

Lemma addPlayer_seats now sid playerName socks l :
  (playerCount l <= 2)%nat ->
  seatsOk (snd (fst (addPlayer now sid playerName socks l))).
Proof.
  intro Hle. unfold addPlayer, seatsOk.
  destruct (2 <=? playerCount l)%nat eqn:E.
  - apply Nat.leb_le in E. cbn [fst snd]. lia.
  - apply Nat.leb_gt in E.
    set (l1 := GameLobby.set_players _ l).
    assert (H1 : (1 <= playerCount l1 <= 2)%nat).
    { unfold l1. rewrite !playerCount_length in *. lobby_fields.
      pose proof (dict_set_length_le sid
                    (newPlayer now sid (Z.of_nat (List.length (GameLobby.players l)) + 1)
                       playerName) (GameLobby.players l)).
      pose proof (dict_set_length_pos sid
                    (newPlayer now sid (Z.of_nat (List.length (GameLobby.players l)) + 1)
                       playerName) (GameLobby.players l)).
      lia. }
    destruct (playerCount l1 =? 2)%nat.
    + pose proof (playerCount_startGame now l1) as Hs.
      destruct (startGame now l1) as [l2 out]. cbn [fst snd] in *. lia.
    + cbn [fst snd]. exact H1.
Qed.

Lemma removePlayer_seats sid socks l :
  (playerCount l <= 2)%nat ->
  let r := removePlayer sid socks l in
  (playerCount (snd (fst r)) <= 2)%nat /\
  (fst (fst (fst r)) = false -> seatsOk (snd (fst r))).
Proof.
  intro Hle. unfold removePlayer, seatsOk.
  set (l1 := GameLobby.set_players _ l).
  assert (H1 : (playerCount l1 <= playerCount l)%nat).
  { unfold l1. rewrite !playerCount_length. lobby_fields.
    apply dict_delete_length_le. }
  destruct (playerCount l1 =? 0)%nat eqn:E0.
  - cbn [fst snd]. split; [lia | discriminate].
  - apply Nat.eqb_neq in E0.
    destruct (GameLobby.gameStarted l1 && (playerCount l1 <? 2)%nat).
    + pose proof (playerCount_endGame l1) as He.
      destruct (endGame l1) as [l2 out]. cbn [fst snd] in *.
      split; [lia | intros _; lia].
    + cbn [fst snd]. split; [lia | intros _; lia].
Qed.

Section TickSeats.

Variables Math_sin Math_cos : Q -> Q.

Lemma keys_updatePlayers now ps :
  dict_keys (fst (updatePlayers Math_sin Math_cos now ps)) = dict_keys ps.
Proof.
  induction ps as [|[k p] ps IH]; [reflexivity|].
  cbn [updatePlayers].
  destruct (updatePlayer Math_sin Math_cos now p) as [p' out].
  destruct (updatePlayers Math_sin Math_cos now ps) as [ps' out'].
  cbn [fst dict_keys map] in *. unfold dict_keys in IH. now rewrite IH.
Qed.

Lemma keys_update_first f g (ps : Dict Player) :
  dict_keys (update_first f g ps) = dict_keys ps.
Proof.
  induction ps as [|[k p] ps IH]; [reflexivity|].
  cbn [update_first]. destruct (f p); cbn [dict_keys map fst] in *;
    [reflexivity|]. unfold dict_keys in IH. now rewrite IH.
Qed.

Lemma keys_filterObstacles now obs : forall ps,
  dict_keys (fst (filterObstacles now ps obs)) = dict_keys ps.
Proof.
  induction obs as [|o rest IH]; intro ps; [reflexivity|].
  cbn [filterObstacles].
  destruct (Qgtb (Obstacle.y (advanceObstacle o)) 650).
  - rewrite IH. apply keys_update_first.
  - specialize (IH ps). destruct (filterObstacles now ps rest). exact IH.
Qed.

Lemma keys_checkPlayers now ps : forall obs pads,
  dict_keys (fst (fst (fst (checkPlayers now ps obs pads)))) = dict_keys ps.
Proof.
  induction ps as [|[k p] ps IH]; intros obs pads; [reflexivity|].
  cbn [checkPlayers].
  destruct (checkObstacles p obs) as [[p1 obs1] out1].
  destruct (checkBoostPads now p1 pads) as [p2 pads2].
  specialize (IH obs1 pads2).
  destruct (checkPlayers now ps obs1 pads2) as [[[ps' obs'] pads'] out'].
  cbn [fst dict_keys map] in *. unfold dict_keys in IH. now rewrite IH.
Qed.

Lemma playerCount_updateGame now rng0 l :
  playerCount (fst (fst (updateGame Math_sin Math_cos now rng0 l))) =
  playerCount l.
Proof.
  unfold updateGame.
  timer_check l0 expired E.
  assert (H0 : GameLobby.players l0 = GameLobby.players l).
  { destruct (negb (GameLobby.gameEnded l)); inversion E; reflexivity. }
  unfold playerCount at 2. rewrite <- H0. fold (playerCount l0).
  clear E H0. destruct expired.
  - pose proof (playerCount_finishGame l0) as H.
    destruct (finishGame l0). exact H.
  - pose proof (keys_updatePlayers now (GameLobby.players l0)) as H1.
    destruct (updatePlayers Math_sin Math_cos now (GameLobby.players l0))
      as [ps out1].
    cbn [fst] in H1.
    set (l1 := GameLobby.set_players ps l0).
    assert (K1 : dict_keys (GameLobby.players l1) = dict_keys (GameLobby.players l0))
      by exact H1.
    clearbody l1. clear H1.
    destruct (random rng0) as [r1 rng1].
    set (c2 := if Qltb r1 0.01 then createObstacles now rng1 l1 else (l1, rng1)).
    assert (K2 : GameLobby.players (fst c2) = GameLobby.players l1).
    { unfold c2. destruct (Qltb r1 0.01); [|reflexivity].
      unfold createObstacles. destruct (pushObstacles _ _ _ _). reflexivity. }
    destruct c2 as [l2 rng2]. cbn [fst] in K2.
    destruct (random rng2) as [r2 rng3].
    set (c3 := if Qltb r2 0.005 then createBoostPads now rng3 l2 else (l2, rng3)).
    assert (K3 : GameLobby.players (fst c3) = GameLobby.players l2).
    { unfold c3. destruct (Qltb r2 0.005); [|reflexivity].
      unfold createBoostPads. destruct (pushBoostPads _ _ _ _). reflexivity. }
    destruct c3 as [l3 rng4]. cbn [fst] in K3.
    assert (K4 : dict_keys (GameLobby.players (updateObstacles now l3)) =
                 dict_keys (GameLobby.players l3)).
    { unfold updateObstacles.
      pose proof (keys_filterObstacles now (obstacles (GameLobby.gameState l3))
                    (GameLobby.players l3)) as H.
      destruct (filterObstacles _ _ _). exact H. }
    set (l4 := updateBoostPads (updateObstacles now l3)).
    assert (K5 : dict_keys (GameLobby.players l4) =
                 dict_keys (GameLobby.players l3)) by exact K4.
    clearbody l4.
    assert (K6 : dict_keys (GameLobby.players (fst (checkCollisions now l4))) =
                 dict_keys (GameLobby.players l4)).
    { unfold checkCollisions.
      pose proof (keys_checkPlayers now (GameLobby.players l4)
                    (obstacles (GameLobby.gameState l4))
                    (boostPads (GameLobby.gameState l4))) as H.
      destruct (checkPlayers _ _ _ _) as [[[ps' obs'] pads'] out'].
      exact H. }
    destruct (checkCollisions now l4) as [l5 out2]. cbn [fst] in *.
    unfold playerCount. rewrite K6, K5, K3, K2, K1. reflexivity.
Qed.

End TickSeats.

(** ** The registry invariant *)

Section RegistryFacts.

Context {V : Type} (P : V -> Prop).

Lemma Forall_dict_set (k : string) (v : V) (m : Dict V) :
  Forall (fun kv => P (snd kv)) m -> P v ->
  Forall (fun kv => P (snd kv)) (dict_set k v m).
Proof.
  intros Hm Hv. apply Forall_forall. intros kv Hin.
  destruct (in_dict_set k v m kv Hin) as [-> | H]; [exact Hv|].
  rewrite Forall_forall in Hm. now apply Hm.
Qed.

Lemma Forall_dict_delete (k : string) (m : Dict V) :
  Forall (fun kv => P (snd kv)) m ->
  Forall (fun kv => P (snd kv)) (dict_delete k m).
Proof.
  intro Hm. apply Forall_forall. intros kv Hin.
  rewrite Forall_forall in Hm. apply Hm. eapply in_dict_delete; eauto.
Qed.

Lemma Forall_dict_get (k : string) (v : V) (m : Dict V) :
  Forall (fun kv => P (snd kv)) m -> dict_get k m = Some v -> P v.
Proof.
  intros Hm Hg. rewrite Forall_forall in Hm.
  apply (Hm (k, v)). now apply dict_get_in.
Qed.

Lemma Forall_fold_delete (ks : list string) : forall (m : Dict V),
  Forall (fun kv => P (snd kv)) m ->
  Forall (fun kv => P (snd kv)) (fold_left (fun m k => dict_delete k m) ks m).
Proof.
  induction ks as [|k ks IH]; intros m Hm; [exact Hm|].
  cbn [fold_left]. apply IH. now apply Forall_dict_delete.
Qed.

End RegistryFacts.

Lemma seatsOk_le l : seatsOk l -> (playerCount l <= 2)%nat.
Proof. unfold seatsOk. lia. Qed.

(** A property of lobbies that the constructor establishes and the methods
    keep holds throughout the registry of every reachable server. *)
Section RegistryInvariant.

Variables Math_sin Math_cos : Q -> Q.
Variable P : GameLobby.t -> Prop.

Hypothesis P_new : forall now lobbyId lobbyName sid playerName socks,
  P (snd (fst (newGameLobby now lobbyId lobbyName sid playerName socks))).
Hypothesis P_addPlayer : forall now sid playerName socks l,
  P l -> P (snd (fst (addPlayer now sid playerName socks l))).
Hypothesis P_removePlayer : forall sid socks l,
  P l -> fst (fst (fst (removePlayer sid socks l))) = false ->
  P (snd (fst (removePlayer sid socks l))).
Hypothesis P_input : forall sid data_input p l,
  P l -> dict_get sid (GameLobby.players l) = Some p ->
  P (GameLobby.set_players
       (dict_set sid (set_input data_input p) (GameLobby.players l)) l).
Hypothesis P_restartGame : forall now l, P l -> P (fst (restartGame now l)).
Hypothesis P_endGame : forall l, P l -> P (fst (endGame l)).
Hypothesis P_updateGame : forall now rng l,
  P l -> P (fst (fst (updateGame Math_sin Math_cos now rng l))).

Lemma invariant_leave sid lobbyId l s :
  registryHolds P s -> P l -> registryHolds P (fst (leave sid lobbyId l s)).
Proof.
  intros Hs Hl. unfold leave.
  pose proof (P_removePlayer sid (playerSockets s) l Hl) as Hkeep.
  destruct (removePlayer sid (playerSockets s) l) as [[[del socks] l'] out].
  cbn [fst snd] in *. unfold registryHolds in *.
  destruct del; cbn [lobbies].
  - now apply Forall_dict_delete.
  - apply Forall_dict_set; auto.
Qed.

Lemma invariant_handle (r : Request) (s : Server) :
  registryHolds P s -> registryHolds P (fst (handle Math_sin Math_cos r s)).
Proof.
  intro Hs. pose proof Hs as Hall. unfold registryHolds in Hall.
  destruct r; cbn [handle].
  - exact Hs.
  - unfold on_createLobby.
    pose proof (P_new now lobbyId lobbyName sid playerName (playerSockets s))
      as Hnew.
    destruct (newGameLobby now lobbyId lobbyName sid playerName
                (playerSockets s)) as [[socks l'] out].
    cbn [fst snd] in *. unfold registryHolds. cbn [lobbies].
    apply Forall_dict_set; assumption.
  - unfold on_joinLobby.
    destruct (dict_get lobbyId (lobbies s)) as [l|] eqn:Hg; [|exact Hs].
    pose proof (Forall_dict_get P _ _ _ Hall Hg) as Hl.
    pose proof (P_addPlayer now sid playerName (playerSockets s) l Hl) as Hadd.
    destruct (addPlayer now sid playerName (playerSockets s) l)
      as [[[ok socks] l'] out].
    cbn [fst snd] in *.
    assert (registryHolds P (mkServer (dict_set lobbyId l' (lobbies s)) socks))
      by (apply Forall_dict_set; assumption).
    destruct ok; assumption.
  - unfold on_leaveLobby.
    destruct (dict_get lobbyId (lobbies s)) as [l|] eqn:Hg; [|exact Hs].
    apply invariant_leave; [exact Hs|].
    exact (Forall_dict_get P _ _ _ Hall Hg).
  - unfold on_playerInput.
    destruct (dict_get sid (playerSockets s)) as [lobbyId|]; [|exact Hs].
    destruct (dict_get lobbyId (lobbies s)) as [l|] eqn:Hg; [|exact Hs].
    destruct (dict_get sid (GameLobby.players l)) as [p|] eqn:Hp; [|exact Hs].
    cbn [fst]. apply Forall_dict_set; [exact Hall|].
    apply P_input; [|exact Hp]. exact (Forall_dict_get P _ _ _ Hall Hg).
  - unfold on_restartGame.
    destruct (dict_get lobbyId (lobbies s)) as [l|] eqn:Hg; [|exact Hs].
    destruct (dict_get sid (GameLobby.players l)); [|exact Hs].
    destruct (GameLobby.gameEnded l); [|exact Hs].
    pose proof (P_restartGame now l (Forall_dict_get P _ _ _ Hall Hg)) as Hc.
    destruct (restartGame now l) as [l' out]. cbn [fst] in *.
    apply Forall_dict_set; assumption.
  - unfold on_backToLobbyFromResults.
    destruct (dict_get lobbyId (lobbies s)) as [l|] eqn:Hg; [|exact Hs].
    destruct (dict_get sid (GameLobby.players l)); [|exact Hs].
    pose proof (P_endGame l (Forall_dict_get P _ _ _ Hall Hg)) as Hc.
    destruct (endGame l) as [l' out]. cbn [fst] in *.
    apply Forall_dict_set; assumption.
  - unfold on_disconnect.
    destruct (dict_get sid (playerSockets s)) as [lobbyId|]; [|exact Hs].
    destruct (dict_get lobbyId (lobbies s)) as [l|] eqn:Hg; [|exact Hs].
    apply invariant_leave; [exact Hs|].
    exact (Forall_dict_get P _ _ _ Hall Hg).
  - unfold cleanup. cbn [fst]. unfold registryHolds. cbn [lobbies].
    now apply Forall_fold_delete.
  - unfold on_tick.
    destruct (dict_get lobbyId (lobbies s)) as [l|] eqn:Hg; [|exact Hs].
    destruct (GameLobby.gameLoop l); [|exact Hs].
    unfold tick.
    pose proof (P_updateGame now rng l (Forall_dict_get P _ _ _ Hall Hg))
      as Hc.
    destruct (updateGame Math_sin Math_cos now rng l) as [[l' rng'] out].
    cbn [fst] in *. apply Forall_dict_set; assumption.
Qed.

Lemma invariant_run (rs : list Request) : forall s,
  registryHolds P s -> registryHolds P (run Math_sin Math_cos rs s).
Proof.
  induction rs as [|r rs IH]; intros s Hs; [exact Hs|].
  cbn [run]. apply IH. now apply invariant_handle.
Qed.

End RegistryInvariant.

(** *** Seat counts throughout the registry *)

Section Reachable.

Variables Math_sin Math_cos : Q -> Q.

Lemma registryOk_run (rs : list Request) (s : Server) :
  registryOk s -> registryOk (run Math_sin Math_cos rs s).
Proof.
  apply invariant_run.
  - intros. unfold newGameLobby.
    match goal with
    | |- context [addPlayer ?a ?b ?c ?d ?e] =>
        pose proof (addPlayer_seats a b c d e (Nat.le_0_l 2)) as Hadd;
        destruct (addPlayer a b c d e) as [[[ok socks'] l'] out]
    end.
    exact Hadd.
  - intros. apply addPlayer_seats. now apply seatsOk_le.
  - intros sid socks l Hl. apply removePlayer_seats. now apply seatsOk_le.
  - intros sid data_input p l Hl Hp. unfold seatsOk in *.
    rewrite playerCount_length in *. lobby_fields.
    now rewrite (dict_set_length_present sid _ p _ Hp).
  - intros now l Hl. unfold seatsOk in *. now rewrite playerCount_restartGame.
  - intros l Hl. unfold seatsOk in *. now rewrite playerCount_endGame.
  - intros now rng l Hl. unfold seatsOk in *.
    now rewrite playerCount_updateGame.
Qed.

Lemma registryOk_reachable (s : Server) :
  reachable Math_sin Math_cos s -> registryOk s.
Proof.
  intros [rs ->]. apply registryOk_run. constructor.
Qed.

End Reachable.

(** ** Case analysis of the methods *)

(** The outcomes of [checkObstacle]: nothing happens, a collision, or the
    award, which needs the flag to be unset and sets it. *)
Lemma checkObstacle_cases (p : Player) (o : Obstacle.t) :
  checkObstacle p o = (p, o, []) \/
  checkObstacle p o = (collide p, Obstacle.set_y 700 o, []) \/
  (Obstacle.nearMissAwarded o = false /\
   checkObstacle p o =
     (fst (awardNearMiss p), Obstacle.set_nearMissAwarded true o,
      snd (awardNearMiss p))).
Proof.
  unfold checkObstacle.
  destruct (Obstacle.playerNum o =? playerNum p)%Z; [|now left].
  destruct (overlaps p _ _ _ _); [now right; left|].
  destruct (nearMissRange p o); [|now left].
  destruct (Obstacle.nearMissAwarded o); cbn [negb]; [now left|].
  right; right. split; [reflexivity|].
  destruct (awardNearMiss p). reflexivity.
Qed.

Lemma resetForRestart_fields p :
  x (resetForRestart p) = 200 /\ y (resetForRestart p) = 500 /\
  speed (resetForRestart p) = 0 /\ angle (resetForRestart p) = 0 /\
  velocityX (resetForRestart p) = 0 /\ velocityY (resetForRestart p) = 0 /\
  score (resetForRestart p) = 0 /\ streak (resetForRestart p) = 0%Z /\
  multiplier (resetForRestart p) = 1 /\
  boosting (resetForRestart p) = false /\
  boostTime (resetForRestart p) = 0%Z.
Proof. repeat split; reflexivity. Qed.

Lemma restartGame_running now l :
  GameLobby.players (fst (restartGame now l)) =
    dict_map resetForRestart (GameLobby.players l) /\
  GameLobby.gameStarted (fst (restartGame now l)) = true /\
  GameLobby.gameEnded (fst (restartGame now l)) = false /\
  GameLobby.gameLoop (fst (restartGame now l)) = true.
Proof. repeat split; reflexivity. Qed.

(** ** The multiplier cap *)

(** *** What does hold: multiplier at least 1, streak at least 0 *)

Lemma playerOk_same (p q : Player) :
  multiplier q = multiplier p -> streak q = streak p ->
  playerOk p -> playerOk q.
Proof. unfold playerOk. intros -> ->. auto. Qed.

Lemma playerOk_min5 (n : Z) : (0 <= n)%Z -> 1 <= Qmin 5 (1 + inject_Z n * 0.2).
Proof.
  intro Hn. apply Q.min_glb; [lra|].
  assert (H : inject_Z 0 <= inject_Z n) by (rewrite <- Zle_Qle; lia).
  change (inject_Z 0) with 0 in H. lra.
Qed.

Lemma playerOk_awardSurvival now p : playerOk p -> playerOk (awardSurvival now p).
Proof.
  intros [Hm Hs]. unfold playerOk, awardSurvival. player_fields.
  split; [apply playerOk_min5|]; lia.
Qed.

Lemma playerOk_collectBoost now p : playerOk p -> playerOk (collectBoost now p).
Proof.
  intros [Hm Hs]. unfold playerOk, collectBoost. player_fields.
  split; [apply playerOk_min5|]; lia.
Qed.

Lemma playerOk_collide p : playerOk (collide p).
Proof. unfold playerOk, collide. player_fields. split; [lra | lia]. Qed.

Lemma playerOk_awardNearMiss p : playerOk p -> playerOk (fst (awardNearMiss p)).
Proof.
  apply playerOk_same; unfold awardNearMiss;
    destruct (2 <=? nearMissCount (set_nearMissCount _ _))%Z; reflexivity.
Qed.

Lemma playerOk_resetForRestart p : playerOk (resetForRestart p).
Proof. unfold playerOk. cbn. split; [lra | lia]. Qed.

Lemma playerOk_resetForLobby p : playerOk (resetForLobby p).
Proof. unfold playerOk. cbn. split; [lra | lia]. Qed.

Lemma playerOk_newPlayer now sid num playerName :
  playerOk (newPlayer now sid num playerName).
Proof. unfold playerOk. cbn. split; [lra | lia]. Qed.

Lemma playerOk_applySpeedScore p :
  playerOk p -> playerOk (fst (applySpeedScore p)).
Proof.
  apply playerOk_same; unfold applySpeedScore;
    match goal with |- context [if ?c then _ else _] => destruct c end;
    reflexivity.
Qed.

Lemma playerOk_applyComboTimer p : playerOk p -> playerOk (applyComboTimer p).
Proof.
  intros [Hm Hs]. unfold applyComboTimer.
  destruct (0 <? comboTimer p)%Z; [|split; assumption].
  destruct (comboTimer (set_comboTimer _ p) =? 0)%Z;
    unfold playerOk; player_fields; split; try assumption.
  apply Q.le_max_l.
Qed.

Lemma playerOk_applyStreakDecay now p :
  playerOk p -> playerOk (applyStreakDecay now p).
Proof.
  intros [Hm Hs]. unfold applyStreakDecay.
  destruct (3000 <? now - lastObstacleTime p)%Z; [|split; assumption].
  destruct (0 <? streak p)%Z; unfold playerOk; player_fields;
    [|split; assumption].
  split; [|lia].
  assert (H : inject_Z 0 <= inject_Z (Z.max 0 (streak p - 1)))
    by (rewrite <- Zle_Qle; lia).
  change (inject_Z 0) with 0 in H. lra.
Qed.

Lemma playerOk_checkObstacle p o :
  playerOk p -> playerOk (fst (fst (checkObstacle p o))).
Proof.
  intro Hp.
  destruct (checkObstacle_cases p o) as [E | [E | [_ E]]]; rewrite E;
    cbn [fst]; auto using playerOk_collide, playerOk_awardNearMiss.
Qed.

Lemma playerOk_checkObstacles obs : forall p,
  playerOk p -> playerOk (fst (fst (checkObstacles p obs))).
Proof.
  induction obs as [|o rest IH]; intros p Hp; [exact Hp|].
  cbn [checkObstacles].
  pose proof (playerOk_checkObstacle p o Hp) as H1.
  destruct (checkObstacle p o) as [[p1 o1] out1]. cbn [fst] in H1.
  specialize (IH p1 H1).
  destruct (checkObstacles p1 rest) as [[p2 rest2] out2]. exact IH.
Qed.

Lemma playerOk_checkBoostPads now pads : forall p,
  playerOk p -> playerOk (fst (checkBoostPads now p pads)).
Proof.
  induction pads as [|b rest IH]; intros p Hp; [exact Hp|].
  cbn [checkBoostPads].
  assert (H1 : playerOk (fst (checkBoostPad now p b))).
  { unfold checkBoostPad.
    destruct (_ && _); cbn [fst]; auto using playerOk_collectBoost. }
  destruct (checkBoostPad now p b) as [p1 b1]. cbn [fst] in H1.
  specialize (IH p1 H1).
  destruct (checkBoostPads now p1 rest) as [p2 rest2]. exact IH.
Qed.

Lemma playersOk_checkPlayers now ps : forall obs pads,
  Forall (fun kp => playerOk (snd kp)) ps ->
  Forall (fun kp => playerOk (snd kp))
    (fst (fst (fst (checkPlayers now ps obs pads)))).
Proof.
  induction ps as [|[k p] ps IH]; intros obs pads Hall; [constructor|].
  inversion Hall as [|? ? Hp Hps]; subst. cbn [snd] in Hp.
  cbn [checkPlayers].
  pose proof (playerOk_checkObstacles obs p Hp) as H1.
  destruct (checkObstacles p obs) as [[p1 obs1] out1]. cbn [fst] in H1.
  pose proof (playerOk_checkBoostPads now pads p1 H1) as H2.
  destruct (checkBoostPads now p1 pads) as [p2 pads2]. cbn [fst] in H2.
  specialize (IH obs1 pads2 Hps).
  destruct (checkPlayers now ps obs1 pads2) as [[[ps' obs'] pads'] out'].
  cbn [fst] in *. constructor; assumption.
Qed.

Lemma playersOk_update_first f now ps :
  Forall (fun kp => playerOk (snd kp)) ps ->
  Forall (fun kp => playerOk (snd kp)) (update_first f (awardSurvival now) ps).
Proof.
  induction ps as [|[k p] ps IH]; intro Hall; [constructor|].
  inversion Hall as [|? ? Hp Hps]; subst. cbn [snd] in Hp.
  cbn [update_first]. destruct (f p); constructor; auto.
  cbn [snd]. now apply playerOk_awardSurvival.
Qed.

Lemma playersOk_filterObstacles now obs : forall ps,
  Forall (fun kp => playerOk (snd kp)) ps ->
  Forall (fun kp => playerOk (snd kp)) (fst (filterObstacles now ps obs)).
Proof.
  induction obs as [|o rest IH]; intros ps Hall; [exact Hall|].
  cbn [filterObstacles].
  destruct (Qgtb (Obstacle.y (advanceObstacle o)) 650).
  - apply IH. now apply playersOk_update_first.
  - specialize (IH ps Hall). destruct (filterObstacles now ps rest).
    exact IH.
Qed.

Lemma playersOk_dict_map (f : Player -> Player) ps :
  (forall p, playerOk (f p)) ->
  Forall (fun kp => playerOk (snd kp)) (dict_map f ps).
Proof.
  intro Hf. unfold dict_map. apply Forall_forall. intros kp Hin.
  apply in_map_iff in Hin. destruct Hin as (kp0 & <- & _). apply Hf.
Qed.

Section PlayersOk.

Variables Math_sin Math_cos : Q -> Q.

Lemma playerOk_updatePlayer now p :
  playerOk p -> playerOk (fst (updatePlayer Math_sin Math_cos now p)).
Proof.
  intro Hp. destruct (input p) as [i|] eqn:Hi.
  - rewrite (updatePlayer_unfold Math_sin Math_cos now p i Hi).
    apply playerOk_applyStreakDecay, playerOk_applyComboTimer,
      playerOk_applySpeedScore.
    destruct (handleBoost_streak p) as [Hbs Hbm].
    pose proof (movement_ledger Math_sin Math_cos i (handleBoost p))
      as (_ & _ & _ & _ & _ & _ & _ & Lst & Lmu & _).
    apply (playerOk_same p); [now rewrite Lmu | now rewrite Lst | exact Hp].
  - unfold updatePlayer. rewrite Hi. exact Hp.
Qed.

Lemma playersOk_updatePlayers now ps :
  Forall (fun kp => playerOk (snd kp)) ps ->
  Forall (fun kp => playerOk (snd kp))
    (fst (updatePlayers Math_sin Math_cos now ps)).
Proof.
  induction ps as [|[k p] ps IH]; intro Hall; [constructor|].
  inversion Hall as [|? ? Hp Hps]; subst. cbn [snd] in Hp.
  cbn [updatePlayers].
  pose proof (playerOk_updatePlayer now p Hp) as H1.
  destruct (updatePlayer Math_sin Math_cos now p) as [p' out].
  specialize (IH Hps).
  destruct (updatePlayers Math_sin Math_cos now ps) as [ps' out'].
  cbn [fst] in *. constructor; assumption.
Qed.

Lemma playersOk_updateGame now rng0 l :
  playersOk l ->
  playersOk (fst (fst (updateGame Math_sin Math_cos now rng0 l))).
Proof.
  unfold playersOk. intro Hl. unfold updateGame.
  timer_check l0 expired E.
  assert (H0 : GameLobby.players l0 = GameLobby.players l).
  { destruct (negb (GameLobby.gameEnded l)); inversion E; reflexivity. }
  rewrite <- H0 in Hl. clear E H0. destruct expired.
  - unfold finishGame. cbn [fst]. destruct (GameLobby.gameLoop _); exact Hl.
  - pose proof (playersOk_updatePlayers now _ Hl) as H1.
    destruct (updatePlayers Math_sin Math_cos now (GameLobby.players l0))
      as [ps out1].
    cbn [fst] in H1.
    set (l1 := GameLobby.set_players ps l0).
    assert (K1 : playersOk l1) by exact H1.
    clearbody l1. clear H1.
    destruct (random rng0) as [r1 rng1].
    set (c2 := if Qltb r1 0.01 then createObstacles now rng1 l1 else (l1, rng1)).
    assert (K2 : GameLobby.players (fst c2) = GameLobby.players l1).
    { unfold c2. destruct (Qltb r1 0.01); [|reflexivity].
      unfold createObstacles. destruct (pushObstacles _ _ _ _). reflexivity. }
    destruct c2 as [l2 rng2]. cbn [fst] in K2.
    destruct (random rng2) as [r2 rng3].
    set (c3 := if Qltb r2 0.005 then createBoostPads now rng3 l2 else (l2, rng3)).
    assert (K3 : GameLobby.players (fst c3) = GameLobby.players l2).
    { unfold c3. destruct (Qltb r2 0.005); [|reflexivity].
      unfold createBoostPads. destruct (pushBoostPads _ _ _ _). reflexivity. }
    destruct c3 as [l3 rng4]. cbn [fst] in K3.
    assert (K4 : playersOk (updateBoostPads (updateObstacles now l3))).
    { unfold playersOk, updateBoostPads, updateObstacles.
      pose proof (playersOk_filterObstacles now
                    (obstacles (GameLobby.gameState l3))
                    (GameLobby.players l3)) as H.
      destruct (filterObstacles _ _ _) as [ps' obs']. cbn [fst] in H.
      lobby_fields. apply H. rewrite K3, K2. exact K1. }
    set (l4 := updateBoostPads (updateObstacles now l3)) in *. clearbody l4.
    unfold checkCollisions.
    pose proof (playersOk_checkPlayers now (GameLobby.players l4)
                  (obstacles (GameLobby.gameState l4))
                  (boostPads (GameLobby.gameState l4)) K4) as H.
    destruct (checkPlayers _ _ _ _) as [[[ps' obs'] pads'] out'].
    exact H.
Qed.

(** In every lobby of every state the server can reach, every player has a
    multiplier of at least 1 and a streak of at least 0. *)
Lemma playersOk_run (rs : list Request) :
  registryHolds playersOk (run Math_sin Math_cos rs emptyServer).
Proof.
  apply invariant_run; [| | | | | | |constructor].
  - intros. unfold newGameLobby, addPlayer. cbn.
    repeat constructor; cbn; try lra; lia.
  - intros now sid playerName socks l Hl. unfold addPlayer.
    destruct (2 <=? playerCount l)%nat; [exact Hl|].
    match goal with
    | |- context [GameLobby.set_players ?ps l] =>
        assert (Hps : Forall (fun kp => playerOk (snd kp)) ps)
          by (apply Forall_dict_set;
              [exact Hl | apply playerOk_newPlayer])
    end.
    match goal with
    | |- context [if ?c then _ else _] => destruct c
    end; exact Hps.
  - intros sid socks l Hl _. unfold removePlayer.
    assert (Hps : Forall (fun kp => playerOk (snd kp))
                    (dict_delete sid (GameLobby.players l)))
      by (now apply Forall_dict_delete).
    match goal with
    | |- context [if ?c then _ else _] => destruct c
    end; [exact Hps|].
    match goal with
    | |- context [if ?c then _ else _] => destruct c
    end; [|exact Hps].
    unfold playersOk, endGame. cbn [fst snd]. lobby_fields.
    destruct (GameLobby.gameLoop _); lobby_fields;
      apply playersOk_dict_map, playerOk_resetForLobby.
  - intros sid data_input p l Hl Hp. unfold playersOk. lobby_fields.
    apply Forall_dict_set; [exact Hl|].
    apply (playerOk_same p); try reflexivity.
    exact (Forall_dict_get playerOk _ _ _ Hl Hp).
  - intros now l Hl. unfold playersOk.
    rewrite (proj1 (restartGame_running now l)).
    apply playersOk_dict_map, playerOk_resetForRestart.
  - intros l Hl. unfold playersOk, endGame. cbn [fst]. lobby_fields.
    destruct (GameLobby.gameLoop _); lobby_fields;
      apply playersOk_dict_map, playerOk_resetForLobby.
  - intros. now apply playersOk_updateGame.
Qed.

End PlayersOk.

(** The decay recomputes [1 + streak * 0.2] with no [Math.min]: from a streak
    of 22 or more it leaves a multiplier above 5. *)
Lemma applyStreakDecay_above_cap now (p : Player) :
  (22 <= streak p)%Z ->
  (3000 < now - lastObstacleTime p)%Z ->
  streak (applyStreakDecay now p) = (streak p - 1)%Z /\
  5 < multiplier (applyStreakDecay now p).
Proof.
  intros Hs Ht. unfold applyStreakDecay.
  apply Z.ltb_lt in Ht. rewrite Ht.
  assert (H0 : (0 <? streak p)%Z = true) by (apply Z.ltb_lt; lia).
  rewrite H0. player_fields.
  rewrite Z.max_r by lia. split; [reflexivity|].
  assert (H21 : inject_Z 21 <= inject_Z (streak p - 1))
    by (rewrite <- Zle_Qle; lia).
  change (inject_Z 21) with 21 in H21. lra.
Qed.

(** The two sibling recomputations keep the cap. *)
Lemma awardSurvival_capped now (p : Player) :
  multiplier (awardSurvival now p) <= 5.
Proof. unfold awardSurvival. player_fields. apply Q.le_min_l. Qed.

Lemma collectBoost_capped now (p : Player) :
  multiplier (collectBoost now p) <= 5.
Proof. unfold collectBoost. player_fields. apply Q.le_min_l. Qed.

(** C1: the streak decay of [updatePlayer] recomputes the multiplier without
    the cap that [updateObstacles] and [checkCollisions] apply.  A player
    whose 22 obstacles have passed has streak 22 and multiplier 5; the
    decay that fires after 3000 ms leaves streak 21 and multiplier 5.2. *)
Theorem streak_decay_exceeds_cap (Math_sin Math_cos : Q -> Q) :
  streak annStreak22 = 22%Z /\
  multiplier annStreak22 == 5 /\
  streak (fst (updatePlayer Math_sin Math_cos 4001 annStreak22)) = 21%Z /\
  multiplier (fst (updatePlayer Math_sin Math_cos 4001 annStreak22)) == 5.2 /\
  ~ multiplier (fst (updatePlayer Math_sin Math_cos 4001 annStreak22)) <= 5.
Proof.
  rewrite (updatePlayer_unfold Math_sin Math_cos 4001 annStreak22 noInput
             eq_refl).
  repeat split; try (vm_compute; reflexivity).
  intro H. vm_compute in H. apply H. reflexivity.
Qed.

(** ** Target speed when accelerate and brake are both held *)

(** C2, as stated, fails: for a fresh player holding both keys the target
    speed is -4, not the accelerate target 8. *)
Lemma accelerate_does_not_win :
  targetSpeed holdUpDown (handleBoost ann) == -4 /\
  accelerateTarget (handleBoost ann) == 8 /\
  ~ targetSpeed holdUpDown (handleBoost ann) == accelerateTarget (handleBoost ann).
Proof.
  repeat split; try reflexivity.
  intro H. vm_compute in H. discriminate H.
Qed.

Section TargetSpeed.

Variables Math_sin Math_cos : Q -> Q.

(** C2, amended: whenever brake is held (with or without accelerate) the
    target speed of the tick is [-maxSpeed / 2], brake overriding accelerate,
    and the speed integrates towards that target. *)
Theorem brake_overrides_accelerate (now : Z) (p : Player) (i : Input) :
  input p = Some i ->
  down i = true ->
  targetSpeed i (handleBoost p) == - maxSpeed (handleBoost p) / 2 /\
  speed (fst (updatePlayer Math_sin Math_cos now p)) ==
    (speed p + (- maxSpeed (handleBoost p) / 2 - speed p) * 0.3) * 0.95.
Proof.
  intros Hi Hd.
  assert (Ht : targetSpeed i (handleBoost p) = - maxSpeed (handleBoost p) / 2).
  { unfold targetSpeed. rewrite Hd. reflexivity. }
  split.
  - rewrite Ht. reflexivity.
  - rewrite (speed_updatePlayer Math_sin Math_cos now p i Hi), Ht. reflexivity.
Qed.

End TargetSpeed.

Lemma brake_overrides_accelerate_witness :
  input (set_input (Some holdUpDown) ann) = Some holdUpDown /\
  down holdUpDown = true /\
  targetSpeed holdUpDown (handleBoost (set_input (Some holdUpDown) ann))
    == - maxSpeed (handleBoost (set_input (Some holdUpDown) ann)) / 2 /\
  speed (fst (updatePlayer sin_poly cos_poly 16
                (set_input (Some holdUpDown) ann))) ==
    (speed (set_input (Some holdUpDown) ann) +
     (- maxSpeed (handleBoost (set_input (Some holdUpDown) ann)) / 2 -
      speed (set_input (Some holdUpDown) ann)) * 0.3) * 0.95.
Proof.
  split; [reflexivity|]. split; [reflexivity|].
  apply (brake_overrides_accelerate sin_poly cos_poly 16
           (set_input (Some holdUpDown) ann) holdUpDown); reflexivity.
Defined.


(** ** Holding accelerate on an empty road *)


Lemma Qfloor_unit (q : Q) : 0 <= q -> q < 1 -> Qfloor q = 0%Z.
Proof.
  intros H0 H1.
  pose proof (Qfloor_le q) as Hle. pose proof (Qlt_floor q) as Hlt.
  assert (A : inject_Z (Qfloor q) < inject_Z 1) by (eapply Qle_lt_trans; eauto).
  assert (B : inject_Z 0 < inject_Z (Qfloor q + 1)) by (eapply Qle_lt_trans; eauto).
  rewrite <- Zlt_Qlt in A, B. lia.
Qed.



Section Cruise.
Variables Math_sin Math_cos : Q -> Q.

Lemma handleBoost_idle p : boosting p = false -> handleBoost p = p.
Proof. intro H. unfold handleBoost. rewrite H. reflexivity. Qed.

Lemma applySpeedScore_slow q :
  Qfloor (Qabs (speed q) * 0.1) = 0%Z ->
  fst (applySpeedScore q) =
  set_speedBonusTimer (speedBonusTimer q + 1)
    (set_score (score q + inject_Z 0 * multiplier q) q).
Proof.
  intro Hfl. unfold applySpeedScore. rewrite Hfl.
  change (0 <? 0)%Z with false. rewrite andb_false_r. reflexivity.
Qed.

Lemma cruising_bookkeeping now q :
  cruising q ->
  cruising (applyStreakDecay now (applyComboTimer (fst (applySpeedScore q)))).
Proof.
  intros (Hi & Hb & Hm & Hs0 & Hs7 & Hmu & Hst & Hc & Hsc).
  assert (Hfl : Qfloor (Qabs (speed q) * 0.1) = 0%Z).
  { apply Qfloor_unit; rewrite (Qabs_pos _ Hs0); lra. }
  rewrite (applySpeedScore_slow q Hfl).
  unfold applyComboTimer. player_fields. rewrite Hc.
  change (0 <? 0)%Z with false. cbv iota.
  unfold applyStreakDecay. player_fields. rewrite Hst.
  change (0 <? 0)%Z with false. cbv iota.
  assert (Hscore : score q + inject_Z 0 * multiplier q == 0)
    by (rewrite Hsc, Hmu; reflexivity).
  destruct (3000 <? now - lastObstacleTime q)%Z;
    unfold cruising; player_fields; repeat split; assumption.
Qed.

Lemma cruising_movement p q :
  cruising p -> sameLedger p q ->
  speed q = (speed p + (targetSpeed holdUp p - speed p) * 0.3) * 0.95 ->
  cruising q.
Proof.
  intros (Hi & Hb & Hm & Hs0 & Hs7 & Hmu & Hst & Hc & Hsc)
         (_ & _ & Li & Lb & _ & Lm & Lsc & Lst & Lmu & Lc & _) Hq.
  unfold targetSpeed in Hq. rewrite Hb in Hq. cbn [up down holdUp] in Hq.
  unfold cruising. rewrite Li, Lb, Lm, Lmu, Lst, Lc, Lsc, Hq.
  repeat split; try assumption; lra.
Qed.

Lemma cruising_step now p :
  cruising p -> cruising (fst (updatePlayer Math_sin Math_cos now p)).
Proof.
  intro Hc. pose proof Hc as (Hi & Hb & _).
  rewrite (updatePlayer_unfold Math_sin Math_cos now p holdUp Hi).
  rewrite (handleBoost_idle p Hb).
  apply cruising_bookkeeping.
  apply (cruising_movement p _ Hc).
  - apply movement_ledger.
  - apply movement_speed.
Qed.

End Cruise.






Section Quiet.
Variables Math_sin Math_cos : Q -> Q.

Lemma quietRace_finishGame l : quietRace l -> quietRace (fst (finishGame l)).
Proof.
  intros (pa & pb & Hp & Hc & Ho & Hb). exists pa, pb.
  unfold finishGame. destruct l as [i n ps gs g lp ca st du ge].
  cbn in *. destruct lp; cbn; auto.
Qed.

Lemma updateGame_quiet now rng0 l :
  calm rng0 -> quietRace l ->
  quietRace (fst (fst (updateGame Math_sin Math_cos now rng0 l))).
Proof.
  intros Hcalm Hq. unfold updateGame.
  timer_check l0 expired E.
  assert (Hq0 : quietRace l0).
  { destruct (negb (GameLobby.gameEnded l)); inversion E; subst; [|exact Hq].
    destruct Hq as (pa & pb & Hp & Hc & Ho & Hb). exists pa, pb.
    lobby_fields. auto. }
  clear E Hq. destruct expired.
  - pose proof (quietRace_finishGame l0 Hq0) as H.
    destruct (finishGame l0). exact H.
  - destruct Hq0 as (pa & pb & Hp & Hc & Ho & Hb).
    rewrite Hp. cbn [updatePlayers].
    pose proof (cruising_step Math_sin Math_cos now pa Hc) as Hc'.
    destruct (updatePlayer Math_sin Math_cos now pa) as [pa' outa].
    destruct (updatePlayer Math_sin Math_cos now pb) as [pb' outb].
    cbn [fst] in Hc'.
    unfold random. 
    assert (R1 : Qltb (draws rng0 (cursor rng0)) 0.01 = false)
      by (apply Qltb_false; apply Hcalm).
    rewrite R1. cbn [draws cursor].
    assert (R2 : Qltb (draws rng0 (S (cursor rng0))) 0.005 = false).
    { apply Qltb_false. pose proof (Hcalm (S (cursor rng0))). lra. }
    rewrite R2.
    unfold updateObstacles, updateBoostPads, checkCollisions. lobby_fields.
    rewrite Ho. cbn [filterObstacles]. lobby_fields.
    rewrite Hb. cbn [map filter checkPlayers checkObstacles checkBoostPads].
    lobby_fields.
    exists pa', pb'. auto.
Qed.
End Quiet.


Lemma quietServer_annDrives : quietServer annDrives.
Proof.
  exists (lobbyOf annDrives). split; [vm_compute; reflexivity|].
  exists (seat "s1" (lobbyOf annDrives)), (seat "s2" (lobbyOf annDrives)).
  split; [vm_compute; reflexivity|].
  split; [|split; vm_compute; reflexivity].
  unfold cruising.
  repeat split; vm_compute; try reflexivity; discriminate.
Qed.

Lemma quietServer_seat s :
  quietServer s -> cruising (seat "s1" (lobbyOf s)).
Proof.
  intros (l & Hl & pa & pb & Hp & Hc & _).
  unfold lobbyOf, seat. rewrite Hl. cbn [dict_get String.eqb Ascii.eqb Bool.eqb].
  rewrite Hp. cbn [dict_get String.eqb Ascii.eqb Bool.eqb].
  exact Hc.
Qed.

Section QuietRun.
Variables Math_sin Math_cos : Q -> Q.

Lemma on_tick_quiet now rng s :
  calm rng -> quietServer s ->
  quietServer (fst (on_tick Math_sin Math_cos now rng "L" s)).
Proof.
  intros Hcalm (l & Hl & Hq). unfold on_tick. rewrite Hl.
  cbn [dict_get String.eqb Ascii.eqb Bool.eqb].
  destruct (GameLobby.gameLoop l); [|exists l; auto].
  unfold tick.
  pose proof (updateGame_quiet Math_sin Math_cos now rng l Hcalm Hq) as H.
  destruct (updateGame Math_sin Math_cos now rng l) as [[l' rng'] out].
  cbn [fst lobbies dict_set String.eqb Ascii.eqb Bool.eqb] in *.
  exists l'. auto.
Qed.



Lemma run_ticks_quiet ts : forall s,
  Forall (fun t => calm (snd t)) ts -> quietServer s ->
  quietServer (run Math_sin Math_cos (ticksOf ts) s).
Proof.
  induction ts as [|[now rng] ts IH]; intros s Hall Hs; [exact Hs|].
  inversion Hall; subst. cbn [ticksOf map run handle fst snd].
  apply IH; [assumption|]. apply on_tick_quiet; assumption.
Qed.

(** C3: from the initial state, with accelerate held and nothing spawning,
    the speed of seat 1 never leaves [0, 7], so [speedPoints] is
    [floor (|speed| * 0.1) = 0] on every tick: after any number of ticks (600
    included), whatever the clock readings, the score is still 0 and has
    never increased. *)
Theorem holding_up_scores_nothing (ts : list (Z * Rng)) :
  Forall (fun t => calm (snd t)) ts ->
  let p := seat "s1" (lobbyOf (run Math_sin Math_cos (ticksOf ts) annDrives)) in
  0 <= speed p /\ speed p <= 7 /\
  Qfloor (Qabs (speed p) * 0.1) = 0%Z /\
  score p == 0.
Proof.
  intro Hall.
  assert (Hc : cruising
            (seat "s1" (lobbyOf (run Math_sin Math_cos (ticksOf ts) annDrives)))).
  { apply quietServer_seat, run_ticks_quiet;
      [exact Hall | exact quietServer_annDrives]. }
  destruct Hc as (_ & _ & _ & H0 & H7 & _ & _ & _ & Hs).
  cbv zeta. repeat split; try assumption.
  apply Qfloor_unit; rewrite (Qabs_pos _ H0); lra.
Qed.

End QuietRun.

Lemma holding_up_scores_nothing_witness :
  Forall (fun t => calm (snd t)) sixHundredTicks /\
  let p :=
    seat "s1"
      (lobbyOf (run sin_poly cos_poly (ticksOf sixHundredTicks) annDrives)) in
  0 <= speed p /\ speed p <= 7 /\
  Qfloor (Qabs (speed p) * 0.1) = 0%Z /\
  score p == 0.
Proof.
  assert (H : Forall (fun t => calm (snd t)) sixHundredTicks).
  { apply Forall_forall. intros t Ht. apply in_map_iff in Ht.
    destruct Ht as (n & <- & _). intro k. simpl. lra. }
  split; [exact H|].
  exact (holding_up_scores_nothing sin_poly cos_poly sixHundredTicks H).
Defined.

(** ** Collisions *)

Lemma checkObstacle_collision (p : Player) (o : Obstacle.t) :
  Obstacle.playerNum o = playerNum p ->
  overlaps p (Obstacle.x o) (Obstacle.y o)
    (Obstacle.width o) (Obstacle.height o) = true ->
  checkObstacle p o = (collide p, Obstacle.set_y 700 o, []).
Proof.
  intros Hseat Hov. unfold checkObstacle.
  rewrite Hseat, Z.eqb_refl, Hov. reflexivity.
Qed.

Lemma collide_fields (p : Player) :
  score (collide p) == score p - (50 + inject_Z (streak p) * 5) /\
  streak (collide p) = 0%Z /\
  multiplier (collide p) == 1 /\
  nearMissCount (collide p) = 0%Z /\
  speed (collide p) == speed p * 0.3 /\
  velocityX (collide p) == velocityX p * -0.5 /\
  velocityY (collide p) == velocityY p * -0.5.
Proof.
  unfold collide. player_fields.
  repeat split; try reflexivity. ring.
Qed.

Lemma filterObstacles_snd now obs : forall ps,
  snd (filterObstacles now ps obs) = filter onScreen (map advanceObstacle obs).
Proof.
  induction obs as [|o rest IH]; intro ps; [reflexivity|].
  cbn [filterObstacles map filter]. unfold onScreen at 1.
  unfold Qgtb, Qltb. destruct (Qle_bool (Obstacle.y (advanceObstacle o)) 650).
  - cbn [negb]. specialize (IH ps).
    destruct (filterObstacles now ps rest) as [ps' rest'].
    cbn [snd] in *. now rewrite IH.
  - cbn [negb]. apply IH.
Qed.

Lemma collided_offScreen (o : Obstacle.t) :
  2 <= Obstacle.speed o ->
  onScreen (advanceObstacle (Obstacle.set_y 700 o)) = false.
Proof.
  intro Hs. unfold onScreen, advanceObstacle.
  cbn [Obstacle.y Obstacle.speed Obstacle.set_y].
  destruct (Qle_bool _ _) eqn:E; [|reflexivity].
  apply Qle_bool_iff in E. lra.
Qed.

Lemma updateObstacles_obstacles now l :
  obstacles (GameLobby.gameState (updateObstacles now l)) =
  filter onScreen (map advanceObstacle (obstacles (GameLobby.gameState l))).
Proof.
  unfold updateObstacles.
  pose proof (filterObstacles_snd now (obstacles (GameLobby.gameState l))
                (GameLobby.players l)) as H.
  destruct (filterObstacles now (GameLobby.players l)
              (obstacles (GameLobby.gameState l))) as [ps obs].
  exact H.
Qed.
(** ** Restart *)

(** [restartGame] never assigns [maxSpeed]. *)
Lemma maxSpeed_resetForRestart p : maxSpeed (resetForRestart p) = maxSpeed p.
Proof. reflexivity. Qed.

(** C5: a match that ends while seat 1 is boosting is restarted with
    [boosting = false] and [boostTime = 0] but [maxSpeed] still 15, not the
    construction value 8; the boost handling of the next tick, which would
    restore 8, does not run because [boosting] is false. *)
Theorem restart_keeps_boosted_maxSpeed :
  GameLobby.gameEnded finishedWhileBoosting = true /\
  maxSpeed (seat "s1" finishedWhileBoosting) == 15 /\
  let l := fst (restartGame 31000 finishedWhileBoosting) in
  GameLobby.gameStarted l = true /\
  GameLobby.gameEnded l = false /\
  boosting (seat "s1" l) = false /\
  boostTime (seat "s1" l) = 0%Z /\
  maxSpeed (seat "s1" l) == 15 /\
  ~ maxSpeed (seat "s1" l) == maxSpeed (newPlayer 31000 "s1" 1 "Ann") /\
  maxSpeed (handleBoost (seat "s1" l)) == 15.
Proof.
  repeat split; try (vm_compute; reflexivity).
  intro H. vm_compute in H. discriminate H.
Qed.

(** ** The sweep *)

Section SweepFacts.

Context {V : Type}.
Implicit Types (m acc : Dict V) (k : string).

Lemma dict_delete_skip k acc m :
  ~ In k (dict_keys acc) ->
  dict_delete k (acc ++ m) = acc ++ dict_delete k m.
Proof.
  induction acc as [|[k' v'] acc IH]; intro Hn; [reflexivity|].
  cbn [app dict_delete]. destruct (String.eqb k k') eqn:E.
  - apply String.eqb_eq in E. subst. exfalso. apply Hn. now left.
  - f_equal. apply IH. intro H. apply Hn. now right.
Qed.

Lemma dict_delete_head k (v : V) m : dict_delete k ((k, v) :: m) = m.
Proof. cbn [dict_delete]. now rewrite String.eqb_refl. Qed.

(** Deleting, one key after the other, the keys of the entries selected by
    [sel] leaves the entries that [sel] rejects. *)
Lemma fold_delete_filter (sel : string * V -> bool) m : forall acc,
  NoDup (dict_keys (acc ++ m)) ->
  fold_left (fun d k => dict_delete k d) (dict_keys (filter sel m)) (acc ++ m)
  = acc ++ filter (fun kv => negb (sel kv)) m.
Proof.
  induction m as [|[k v] m IH]; intros acc Hnd; [reflexivity|].
  cbn [filter]. destruct (sel (k, v)) eqn:E; cbn [negb dict_keys map fold_left fst].
  - assert (Hk : ~ In k (dict_keys acc)).
    { unfold dict_keys in *. rewrite map_app in Hnd. cbn [map fst] in Hnd.
      apply NoDup_remove_2 in Hnd. intro H. apply Hnd.
      apply in_or_app. now left. }
    rewrite (dict_delete_skip k acc _ Hk), dict_delete_head.
    apply IH. unfold dict_keys in *. rewrite map_app in *. cbn [map fst] in Hnd.
    now apply NoDup_remove_1 in Hnd.
  - change (acc ++ (k, v) :: m) with (acc ++ [(k, v)] ++ m).
    rewrite app_assoc. rewrite IH.
    + now rewrite <- app_assoc.
    + now rewrite <- app_assoc.
Qed.

End SweepFacts.

Lemma sweepable_spec now l :
  sweepable now l = true <->
  playerCount l = 0%nat /\ (now - GameLobby.createdAt l > 600000)%Z.
Proof.
  unfold sweepable. rewrite andb_true_iff, Nat.eqb_eq, Z.ltb_lt.
  change (10 * 60 * 1000)%Z with 600000%Z. intuition lia.
Qed.

(** What the sweep does on any registry with distinct keys: it deletes the
    lobbies that seat nobody when it runs and were created more than ten
    minutes earlier.  The other lobbies stay, in order, and [playerSockets]
    is untouched. *)
Lemma sweep_deletes_old_empty_lobbies (now : Z) (s : Server) :
  NoDup (dict_keys (lobbies s)) ->
  lobbies (fst (cleanup now s)) =
    filter (fun kl => negb (sweepable now (snd kl))) (lobbies s) /\
  playerSockets (fst (cleanup now s)) = playerSockets s /\
  (forall k l, In (k, l) (lobbies s) ->
     (In (k, l) (lobbies (fst (cleanup now s))) <->
      ~ (playerCount l = 0%nat /\
         (now - GameLobby.createdAt l > 600000)%Z))).
Proof.
  intro Hnd.
  assert (Hl : lobbies (fst (cleanup now s)) =
               filter (fun kl => negb (sweepable now (snd kl))) (lobbies s)).
  { unfold cleanup, toDelete. cbn [fst lobbies].
    exact (fold_delete_filter (fun kv => sweepable now (snd kv)) (lobbies s)
             [] Hnd). }
  split; [exact Hl|]. split; [reflexivity|].
  intros k l Hin. rewrite Hl, filter_In. cbn [snd].
  rewrite negb_true_iff, <- sweepable_spec.
  destruct (sweepable now l); intuition congruence.
Qed.

(** The handlers delete a lobby the moment its last player goes, so the
    registry of a reachable server holds no empty lobby and the sweep finds
    nothing to delete there. *)
Lemma cleanup_nothing_to_do now (s : Server) :
  registryOk s -> cleanup now s = (s, []).
Proof.
  intro Hok. unfold cleanup.
  assert (Hnone : toDelete now s = []).
  { unfold toDelete, registryOk, registryHolds in *.
    induction (lobbies s) as [|[k l] m IH]; [reflexivity|].
    inversion Hok as [|? ? Hl Hm]; subst. cbn [filter snd].
    assert (Hs : sweepable now l = false).
    { unfold sweepable, seatsOk in *. cbn [snd] in Hl.
      destruct (playerCount l); [lia | reflexivity]. }
    rewrite Hs. now apply IH. }
  rewrite Hnone. cbn [fold_left]. destruct s; reflexivity.
Qed.

(** ** Near misses *)

Lemma awardNearMiss_once (p : Player) :
  nearMissAwards (snd (awardNearMiss p)) = 1%nat.
Proof.
  unfold awardNearMiss.
  destruct (2 <=? nearMissCount (set_nearMissCount _ _))%Z; reflexivity.
Qed.

Lemma awardNearMiss_score (p : Player) :
  score (fst (awardNearMiss p)) ==
    score p + 25 * multiplier p +
    (if (2 <=? nearMissCount p + 1)%Z then 100 * multiplier p else 0).
Proof.
  unfold awardNearMiss. player_fields.
  destruct (2 <=? nearMissCount p + 1)%Z; player_fields; ring.
Qed.

Lemma lifetime_awarded (steps : list ObstacleStep) : forall o,
  Obstacle.nearMissAwarded o = true ->
  nearMissAwards (snd (lifetime o steps)) = 0%nat.
Proof.
  induction steps as [|[|p] rest IH]; intros o Hflag; cbn [lifetime].
  - reflexivity.
  - apply IH. exact Hflag.
  - destruct (checkObstacle_cases p o) as [E | [E | [Hf E]]]; rewrite E.
    + specialize (IH o Hflag). destruct (lifetime o rest). exact IH.
    + specialize (IH (Obstacle.set_y 700 o) Hflag).
      destruct (lifetime (Obstacle.set_y 700 o) rest). exact IH.
    + congruence.
Qed.

(** C7: over the whole life of an obstacle, however many ticks pass and
    whichever players are checked against it in whatever state, the
    near-miss award is made at most once. *)
Theorem near_miss_awarded_at_most_once (o : Obstacle.t)
    (steps : list ObstacleStep) :
  (nearMissAwards (snd (lifetime o steps)) <= 1)%nat.
Proof.
  revert o. induction steps as [|[|p] rest IH]; intro o; cbn [lifetime].
  - cbn. lia.
  - apply IH.
  - destruct (checkObstacle_cases p o) as [E | [E | [Hf E]]]; rewrite E.
    + specialize (IH o). destruct (lifetime o rest). exact IH.
    + specialize (IH (Obstacle.set_y 700 o)).
      destruct (lifetime (Obstacle.set_y 700 o) rest). exact IH.
    + pose proof (lifetime_awarded rest (Obstacle.set_nearMissAwarded true o)
                    eq_refl) as H0.
      destruct (lifetime (Obstacle.set_nearMissAwarded true o) rest)
        as [o' out'].
      cbn [snd] in *. unfold nearMissAwards in *.
      rewrite filter_app, length_app. fold (nearMissAwards (snd (awardNearMiss p))).
      rewrite awardNearMiss_once, H0. lia.
Qed.

(** A check that emits no ['nearMiss'] message has made no award: the player
    is untouched or has collided. *)
Lemma no_message_no_award (p : Player) (o : Obstacle.t) :
  nearMissAwards (snd (checkObstacle p o)) = 0%nat ->
  fst (fst (checkObstacle p o)) = p \/
  fst (fst (checkObstacle p o)) = collide p.
Proof.
  destruct (checkObstacle_cases p o) as [E | [E | [Hf E]]]; rewrite E;
    cbn [fst snd]; auto.
  rewrite awardNearMiss_once. discriminate.
Qed.

(** A player staying beside an obstacle for three ticks is awarded once. *)
Example bystander_awarded_once :
  nearMissAwards
    (snd (lifetime rock
            [Check bystander; Advance; Check bystander; Advance;
             Check bystander])) = 1%nat.
Proof. vm_compute. reflexivity. Qed.

(** The tick transforms an obstacle in these two ways only: every obstacle
    kept by [updateObstacles] is an advanced one, and [checkCollisions]
    replaces each obstacle by the outcome of [checkObstacle] for some state
    of the player at hand.  Neither clears the flag. *)
Lemma filterObstacles_advances now ps obs o' :
  In o' (snd (filterObstacles now ps obs)) ->
  exists o, In o obs /\ o' = advanceObstacle o.
Proof.
  rewrite filterObstacles_snd. intro H. apply filter_In in H.
  destruct H as [H _]. apply in_map_iff in H.
  destruct H as (o & <- & Hin). eauto.
Qed.

Lemma checkObstacles_checks obs : forall p,
  Forall2 (fun o o' => exists q, o' = snd (fst (checkObstacle q o)))
    obs (snd (fst (checkObstacles p obs))).
Proof.
  induction obs as [|o rest IH]; intro p; cbn [checkObstacles].
  - constructor.
  - destruct (checkObstacle p o) as [[p1 o1] out1] eqn:E.
    specialize (IH p1).
    destruct (checkObstacles p1 rest) as [[p2 rest2] out2].
    cbn [fst snd] in *. constructor; [|exact IH].
    exists p. now rewrite E.
Qed.

Lemma flag_kept (q : Player) (o : Obstacle.t) :
  Obstacle.nearMissAwarded o = true ->
  Obstacle.nearMissAwarded (advanceObstacle o) = true /\
  Obstacle.nearMissAwarded (snd (fst (checkObstacle q o))) = true.
Proof.
  intro H. split; [exact H|].
  destruct (checkObstacle_cases q o) as [E | [E | [Hf E]]]; rewrite E;
    cbn [fst snd]; [exact H | exact H | reflexivity].
Qed.

(** ** Capacity *)

Section Capacity.

Variables Math_sin Math_cos : Q -> Q.

(** C8: in every state the server can reach, a lobby of the registry seats
    at most two players, and a join aimed at a lobby that already seats two
    is answered with [lobbyFull] and changes nothing: not the player map,
    not any player, not the registry. *)
Theorem full_lobby_rejects_join (rs : list Request) (now : Z)
    (sid lobbyId playerName : string) (l : GameLobby.t) :
  dict_get lobbyId (lobbies (run Math_sin Math_cos rs emptyServer)) = Some l ->
  (playerCount l <= 2)%nat /\
  (playerCount l = 2%nat ->
   addPlayer now sid playerName
     (playerSockets (run Math_sin Math_cos rs emptyServer)) l =
     (false, playerSockets (run Math_sin Math_cos rs emptyServer), l, []) /\
   on_joinLobby now sid lobbyId playerName
     (run Math_sin Math_cos rs emptyServer) =
     (run Math_sin Math_cos rs emptyServer, [mkEmit (Some sid) lobbyFull])).
Proof.
  set (s := run Math_sin Math_cos rs emptyServer).
  intro Hg.
  assert (Hok : registryOk s) by (apply registryOk_run; constructor).
  split.
  - apply seatsOk_le. exact (Forall_dict_get seatsOk _ _ _ Hok Hg).
  - intro Hfull. split; [now apply addPlayer_full|].
    unfold on_joinLobby. rewrite Hg.
    rewrite (addPlayer_full now sid playerName (playerSockets s) l Hfull).
    rewrite (dict_set_same lobbyId l (lobbies s) Hg).
    destruct s; reflexivity.
Qed.

End Capacity.

Lemma full_lobby_rejects_join_witness :
  dict_get "L"
    (lobbies (run sin_poly cos_poly
                [CreateLobby 0 "s1" "L" "Lobby" "Ann";
                 JoinLobby 0 "s2" "L" "Bob"] emptyServer))
    = Some (lobbyOf twoSeats) /\
  playerCount (lobbyOf twoSeats) = 2%nat /\
  on_joinLobby 9 "s3" "L" "Cy" twoSeats =
    (twoSeats, [mkEmit (Some "s3"%string) lobbyFull]).
Proof.
  split; [vm_compute; reflexivity|]. split; [vm_compute; reflexivity|].
  apply (full_lobby_rejects_join sin_poly cos_poly
           [CreateLobby 0 "s1" "L" "Lobby" "Ann"; JoinLobby 0 "s2" "L" "Bob"]
           9 "s3" "L" "Cy" (lobbyOf twoSeats));
    vm_compute; reflexivity.
Defined.

(** ** The survival award that follows a collision *)



Section AfterCollision.

Variables Math_sin Math_cos : Q -> Q.





End AfterCollision.

(** ** Seat numbers *)

(** C10: after socket [s1] has left a two-player lobby and socket [s3] has
    joined it, both remaining players hold seat 2 and a match is running.
    The obstacles and boost pads then spawned (one per player) all carry
    seat 2, and each of them passes the seat test of [checkCollisions] for
    both players. *)
Theorem seat_numbers_repeat (Math_sin Math_cos : Q -> Q) :
  let l := lobbyOf (run Math_sin Math_cos seatReuse emptyServer) in
  let withObstacles := fst (createObstacles 6000 steady l) in
  let withPads := fst (createBoostPads 6000 steady l) in
  dict_keys (GameLobby.players l) = ["s2"; "s3"]%string /\
  playerNum (seat "s2" l) = 2%Z /\
  playerNum (seat "s3" l) = 2%Z /\
  GameLobby.gameStarted l = true /\
  map Obstacle.playerNum (obstacles (GameLobby.gameState withObstacles))
    = [2; 2]%Z /\
  map BoostPad.playerNum (boostPads (GameLobby.gameState withPads))
    = [2; 2]%Z /\
  forallb
    (fun o =>
       (Obstacle.playerNum o =? playerNum (seat "s2" l))%Z &&
       (Obstacle.playerNum o =? playerNum (seat "s3" l))%Z)
    (obstacles (GameLobby.gameState withObstacles)) = true /\
  forallb
    (fun b =>
       (BoostPad.playerNum b =? playerNum (seat "s2" l))%Z &&
       (BoostPad.playerNum b =? playerNum (seat "s3" l))%Z)
    (boostPads (GameLobby.gameState withPads)) = true.
Proof.
  cbv zeta. repeat split; vm_compute; reflexivity.
Qed.

(** * Further properties *)

(** ** Properties of players kept by every method *)

(** A property of players that [addPlayer] establishes and every
    player-mutating step keeps holds of every player of every lobby of every
    reachable server. *)
Section PlayerInvariant.

Variables Math_sin Math_cos : Q -> Q.
Variable R : Player -> Prop.

Hypothesis R_new : forall now sid num playerName,
  (1 <= num <= 2)%Z -> R (newPlayer now sid num playerName).
Hypothesis R_input : forall data_input p, R p -> R (set_input data_input p).
Hypothesis R_updatePlayer : forall now p,
  R p -> R (fst (updatePlayer Math_sin Math_cos now p)).
Hypothesis R_awardSurvival : forall now p, R p -> R (awardSurvival now p).
Hypothesis R_collide : forall p, R p -> R (collide p).
Hypothesis R_awardNearMiss : forall p, R p -> R (fst (awardNearMiss p)).
Hypothesis R_collectBoost : forall now p, R p -> R (collectBoost now p).
Hypothesis R_resetForRestart : forall p, R p -> R (resetForRestart p).
Hypothesis R_resetForLobby : forall p, R p -> R (resetForLobby p).

Let every (ps : Dict Player) : Prop := Forall (fun kp => R (snd kp)) ps.

Lemma every_checkObstacles obs : forall p,
  R p -> R (fst (fst (checkObstacles p obs))).
Proof.
  induction obs as [|o rest IH]; intros p Hp; [exact Hp|].
  cbn [checkObstacles].
  assert (H1 : R (fst (fst (checkObstacle p o)))).
  { destruct (checkObstacle_cases p o) as [E | [E | [_ E]]]; rewrite E;
      cbn [fst]; auto. }
  destruct (checkObstacle p o) as [[p1 o1] out1]. cbn [fst] in H1.
  specialize (IH p1 H1).
  destruct (checkObstacles p1 rest) as [[p2 rest2] out2]. exact IH.
Qed.

Lemma every_checkBoostPads now pads : forall p,
  R p -> R (fst (checkBoostPads now p pads)).
Proof.
  induction pads as [|b rest IH]; intros p Hp; [exact Hp|].
  cbn [checkBoostPads].
  assert (H1 : R (fst (checkBoostPad now p b))).
  { unfold checkBoostPad. destruct (_ && _); cbn [fst]; auto. }
  destruct (checkBoostPad now p b) as [p1 b1]. cbn [fst] in H1.
  specialize (IH p1 H1).
  destruct (checkBoostPads now p1 rest) as [p2 rest2]. exact IH.
Qed.

Lemma every_checkPlayers now ps : forall obs pads,
  every ps -> every (fst (fst (fst (checkPlayers now ps obs pads)))).
Proof.
  unfold every.
  induction ps as [|[k p] ps IH]; intros obs pads Hall; [constructor|].
  inversion Hall as [|? ? Hp Hps]; subst. cbn [snd] in Hp.
  cbn [checkPlayers].
  pose proof (every_checkObstacles obs p Hp) as H1.
  destruct (checkObstacles p obs) as [[p1 obs1] out1]. cbn [fst] in H1.
  pose proof (every_checkBoostPads now pads p1 H1) as H2.
  destruct (checkBoostPads now p1 pads) as [p2 pads2]. cbn [fst] in H2.
  specialize (IH obs1 pads2 Hps).
  destruct (checkPlayers now ps obs1 pads2) as [[[ps' obs'] pads'] out'].
  cbn [fst] in *. constructor; assumption.
Qed.

Lemma every_update_first f now ps :
  every ps -> every (update_first f (awardSurvival now) ps).
Proof.
  unfold every.
  induction ps as [|[k p] ps IH]; intro Hall; [constructor|].
  inversion Hall as [|? ? Hp Hps]; subst. cbn [snd] in Hp.
  cbn [update_first]. destruct (f p); constructor; cbn [snd]; auto.
Qed.

Lemma every_filterObstacles now obs : forall ps,
  every ps -> every (fst (filterObstacles now ps obs)).
Proof.
  induction obs as [|o rest IH]; intros ps Hall; [exact Hall|].
  cbn [filterObstacles].
  destruct (Qgtb (Obstacle.y (advanceObstacle o)) 650).
  - apply IH. now apply every_update_first.
  - specialize (IH ps Hall). destruct (filterObstacles now ps rest).
    exact IH.
Qed.

Lemma every_dict_map (f : Player -> Player) ps :
  (forall p, R p -> R (f p)) -> every ps -> every (dict_map f ps).
Proof.
  unfold every, dict_map. intros Hf Hall. apply Forall_forall.
  intros kp Hin. apply in_map_iff in Hin. destruct Hin as (kp0 & <- & Hin0).
  cbn [snd]. apply Hf. rewrite Forall_forall in Hall. now apply Hall.
Qed.

Lemma every_updatePlayers now ps :
  every ps -> every (fst (updatePlayers Math_sin Math_cos now ps)).
Proof.
  unfold every.
  induction ps as [|[k p] ps IH]; intro Hall; [constructor|].
  inversion Hall as [|? ? Hp Hps]; subst. cbn [snd] in Hp.
  cbn [updatePlayers].
  pose proof (R_updatePlayer now p Hp) as H1.
  destruct (updatePlayer Math_sin Math_cos now p) as [p' out].
  specialize (IH Hps).
  destruct (updatePlayers Math_sin Math_cos now ps) as [ps' out'].
  cbn [fst] in *. constructor; assumption.
Qed.

Lemma allPlayers_endGame l :
  allPlayers R l -> allPlayers R (fst (endGame l)).
Proof.
  unfold allPlayers, endGame. intro Hl. cbn [fst]. lobby_fields.
  destruct (GameLobby.gameLoop _); lobby_fields;
    apply every_dict_map; auto.
Qed.

Lemma allPlayers_updateGame now rng0 l :
  allPlayers R l ->
  allPlayers R (fst (fst (updateGame Math_sin Math_cos now rng0 l))).
Proof.
  unfold allPlayers. intro Hl. unfold updateGame.
  timer_check l0 expired E.
  assert (H0 : GameLobby.players l0 = GameLobby.players l).
  { destruct (negb (GameLobby.gameEnded l)); inversion E; reflexivity. }
  rewrite <- H0 in Hl. clear E H0. destruct expired.
  - unfold finishGame. cbn [fst]. destruct (GameLobby.gameLoop _); exact Hl.
  - pose proof (every_updatePlayers now _ Hl) as H1.
    destruct (updatePlayers Math_sin Math_cos now (GameLobby.players l0))
      as [ps out1].
    cbn [fst] in H1.
    set (l1 := GameLobby.set_players ps l0).
    assert (K1 : every (GameLobby.players l1)) by exact H1.
    clearbody l1. clear H1.
    destruct (random rng0) as [r1 rng1].
    set (c2 := if Qltb r1 0.01 then createObstacles now rng1 l1 else (l1, rng1)).
    assert (K2 : GameLobby.players (fst c2) = GameLobby.players l1).
    { unfold c2. destruct (Qltb r1 0.01); [|reflexivity].
      unfold createObstacles. destruct (pushObstacles _ _ _ _). reflexivity. }
    destruct c2 as [l2 rng2]. cbn [fst] in K2.
    destruct (random rng2) as [r2 rng3].
    set (c3 := if Qltb r2 0.005 then createBoostPads now rng3 l2 else (l2, rng3)).
    assert (K3 : GameLobby.players (fst c3) = GameLobby.players l2).
    { unfold c3. destruct (Qltb r2 0.005); [|reflexivity].
      unfold createBoostPads. destruct (pushBoostPads _ _ _ _). reflexivity. }
    destruct c3 as [l3 rng4]. cbn [fst] in K3.
    assert (K4 : every (GameLobby.players
                          (updateBoostPads (updateObstacles now l3)))).
    { unfold updateBoostPads, updateObstacles.
      pose proof (every_filterObstacles now
                    (obstacles (GameLobby.gameState l3))
                    (GameLobby.players l3)) as H.
      destruct (filterObstacles _ _ _) as [ps' obs']. cbn [fst] in H.
      lobby_fields. apply H. rewrite K3, K2. exact K1. }
    set (l4 := updateBoostPads (updateObstacles now l3)) in *. clearbody l4.
    unfold checkCollisions.
    pose proof (every_checkPlayers now (GameLobby.players l4)
                  (obstacles (GameLobby.gameState l4))
                  (boostPads (GameLobby.gameState l4)) K4) as H.
    destruct (checkPlayers _ _ _ _) as [[[ps' obs'] pads'] out'].
    exact H.
Qed.

Lemma allPlayers_addPlayer now sid playerName socks l :
  allPlayers R l ->
  allPlayers R (snd (fst (addPlayer now sid playerName socks l))).
Proof.
  unfold allPlayers. intro Hl. unfold addPlayer.
  destruct (2 <=? playerCount l)%nat eqn:Hc; [exact Hl|].
  apply Nat.leb_gt in Hc.
  match goal with
  | |- context [GameLobby.set_players ?ps l] =>
      assert (Hps : Forall (fun kp => R (snd kp)) ps)
        by (apply Forall_dict_set; [exact Hl | apply R_new; lia])
  end.
  match goal with
  | |- context [if ?c then _ else _] => destruct c
  end; exact Hps.
Qed.

Lemma allPlayers_run (rs : list Request) :
  registryHolds (allPlayers R) (run Math_sin Math_cos rs emptyServer).
Proof.
  apply invariant_run; [| | | | | | |constructor].
  - intros. unfold newGameLobby.
    match goal with
    | |- context [addPlayer ?a ?b ?c ?d ?e] =>
        assert (Hadd : allPlayers R (snd (fst (addPlayer a b c d e))))
          by (apply allPlayers_addPlayer; constructor);
        destruct (addPlayer a b c d e) as [[[ok socks'] l'] out]
    end.
    exact Hadd.
  - intros. now apply allPlayers_addPlayer.
  - intros sid socks l Hl _. unfold removePlayer.
    assert (Hps : Forall (fun kp => R (snd kp))
                    (dict_delete sid (GameLobby.players l)))
      by (now apply Forall_dict_delete).
    match goal with
    | |- context [if ?c then _ else _] => destruct c
    end; [exact Hps|].
    match goal with
    | |- context [if ?c then _ else _] => destruct c
    end; [|exact Hps].
    match goal with
    | |- context [endGame ?l1] =>
        assert (He : allPlayers R (fst (endGame l1)))
          by (apply allPlayers_endGame; exact Hps);
        destruct (endGame l1)
    end.
    exact He.
  - intros sid data_input p l Hl Hp. unfold allPlayers. lobby_fields.
    apply Forall_dict_set; [exact Hl|].
    apply R_input. exact (Forall_dict_get R _ _ _ Hl Hp).
  - intros now l Hl. unfold allPlayers.
    rewrite (proj1 (restartGame_running now l)).
    apply every_dict_map; auto.
  - intros l Hl. now apply allPlayers_endGame.
  - intros. now apply allPlayers_updateGame.
Qed.

(** In terms of the players seated in a reachable server. *)
Lemma seated_run (rs : list Request) (p : Player) :
  seated (run Math_sin Math_cos rs emptyServer) p -> R p.
Proof.
  intros (k & l & sid & Hl & Hp).
  pose proof (allPlayers_run rs) as Hall.
  unfold registryHolds, allPlayers in Hall. rewrite Forall_forall in Hall.
  specialize (Hall (k, l) Hl). cbn [snd] in Hall.
  rewrite Forall_forall in Hall. exact (Hall (sid, p) Hp).
Qed.

End PlayerInvariant.

(** ** The ranges every player stays in *)

Ltac sound_unfold :=
  unfold sound, inArena, ledgerBounds, speedBounds, boostState,
    counterBounds in *.

(** Division by a literal, written as a product for [lra]. *)
Ltac literal_div :=
  unfold Qdiv in *;
  change (/ 2) with (1 # 2) in *;
  change (/ 3) with (1 # 3) in *;
  change (/ 4) with (1 # 4) in *.

Lemma inject_Z_nonneg (n : Z) : (0 <= n)%Z -> 0 <= inject_Z n.
Proof.
  intro H. change 0 with (inject_Z 0). now rewrite <- Zle_Qle.
Qed.

Lemma inject_Z_succ (n : Z) : inject_Z (n + 1) == inject_Z n + 1.
Proof. rewrite inject_Z_plus. reflexivity. Qed.

Lemma targetSpeed_bounds (i : Input) (p : Player) :
  boostState p -> -(15 # 2) <= targetSpeed i p /\ targetSpeed i p <= 15.
Proof.
  intros [Hm _]. unfold targetSpeed.
  destruct (up i), (down i), (boosting p); destruct Hm as [Hm | Hm];
    literal_div; split; lra.
Qed.

Lemma sound_newPlayer now sid num playerName :
  (1 <= num <= 2)%Z -> sound (newPlayer now sid num playerName).
Proof.
  intro Hn. sound_unfold. unfold newPlayer. player_fields.
  repeat split; try lra; try lia; try reflexivity; try discriminate.
Qed.

Lemma sound_set_input data_input p : sound p -> sound (set_input data_input p).
Proof. intro H. exact H. Qed.

Lemma sound_handleBoost p : sound p -> sound (handleBoost p).
Proof.
  intro H. unfold handleBoost.
  destruct (boosting p) eqn:Hb; [|exact H].
  sound_unfold. player_fields.
  destruct H as (Ha & Hl & Hs & (Hm & Hbt) & Hc).
  specialize (Hbt Hb). destruct Hbt as [Hm15 Hbt].
  destruct (boostTime p - 1 <=? 0)%Z eqn:E; player_fields.
  - repeat split; try apply Ha; try apply Hl; try apply Hs; try apply Hc.
    + left. reflexivity.
    + discriminate.
    + discriminate.
    + discriminate.
  - apply Z.leb_gt in E.
    repeat split; try apply Ha; try apply Hl; try apply Hs; try apply Hc;
      try assumption; lia.
Qed.

Ltac sound_parts H :=
  destruct H as ((Hx0 & Hx1 & Hy0 & Hy1) & (Hm1 & Hmu & Hst) &
                 (Hs0 & Hs1 & Ht0 & Ht1) & (Hms & Hbo) &
                 (Hnm & Hct & Hpc & Hpn & Hw & Hh)).

Lemma sound_applySpeed i p : sound p -> sound (applySpeed i p).
Proof.
  intro H. pose proof (targetSpeed_bounds i p (proj1 (proj2 (proj2 (proj2 H)))))
    as [Hta Htb].
  sound_unfold. sound_parts H. unfold applySpeed. player_fields.
  repeat split; try assumption; try (apply Hbo; assumption); try lra; try lia.
Qed.

Lemma maxSteer_bounds (s : Q) :
  0 <= 4 * Qmin 1 (Qabs s / 4) /\ 4 * Qmin 1 (Qabs s / 4) <= 4.
Proof.
  pose proof (Qabs_nonneg s) as Ha.
  pose proof (Q.le_min_l 1 (Qabs s / 4)) as Hl.
  assert (H0 : 0 <= Qmin 1 (Qabs s / 4)).
  { apply Q.min_glb; [lra|]. literal_div. lra. }
  split; lra.
Qed.

Lemma sound_applySteering i p : sound p -> sound (applySteering i p).
Proof.
  intro H. sound_unfold. sound_parts H. unfold applySteering.
  destruct (maxSteer_bounds (speed p)) as [Hm0 Hm4].
  destruct (left i); [|destruct (right i)]; player_fields;
    repeat split; try assumption; try (apply Hbo; assumption); try lia.
  - eapply Qle_trans; [|apply Q.le_max_r]. lra.
  - apply Q.max_lub; lra.
  - apply Q.min_glb; lra.
  - eapply Qle_trans; [apply Q.le_min_r|]. lra.
  - lra.
  - lra.
Qed.

Section SoundMovement.

Variables Math_sin Math_cos : Q -> Q.

Lemma sound_applyMovement p :
  sound p -> sound (applyMovement Math_sin Math_cos p).
Proof.
  intro H. sound_unfold. sound_parts H. unfold applyMovement. player_fields.
  repeat split; try assumption; try (apply Hbo; assumption); try lia.
  - apply Q.le_max_l.
  - apply Q.max_lub; [lra | apply Q.le_min_l].
  - apply Q.le_max_l.
  - apply Q.max_lub; [lra | apply Q.le_min_l].
Qed.

End SoundMovement.

Lemma sound_applySpeedScore p : sound p -> sound (fst (applySpeedScore p)).
Proof.
  intro H. unfold applySpeedScore.
  match goal with |- context [if ?c then _ else _] => destruct c end;
    exact H.
Qed.

Lemma sound_applyComboTimer p : sound p -> sound (applyComboTimer p).
Proof.
  intro H. unfold applyComboTimer.
  destruct (0 <? comboTimer p)%Z eqn:E; [|exact H].
  apply Z.ltb_lt in E. sound_unfold. sound_parts H.
  pose proof (inject_Z_nonneg _ Hst) as Hs.
  destruct (comboTimer (set_comboTimer _ p) =? 0)%Z; player_fields;
    repeat split; try assumption; try (apply Hbo; assumption); try lia.
  - apply Q.le_max_l.
  - apply Q.max_lub; lra.
Qed.

Lemma sound_applyStreakDecay now p : sound p -> sound (applyStreakDecay now p).
Proof.
  intro H. unfold applyStreakDecay.
  destruct (3000 <? now - lastObstacleTime p)%Z; [|exact H].
  destruct (0 <? streak p)%Z eqn:E; [|exact H].
  apply Z.ltb_lt in E. sound_unfold. sound_parts H. player_fields.
  pose proof (inject_Z_nonneg (Z.max 0 (streak p - 1))
                ltac:(lia)) as Hs.
  repeat split; try assumption; try (apply Hbo; assumption); try lia; lra.
Qed.

Lemma sound_awardSurvival now p : sound p -> sound (awardSurvival now p).
Proof.
  intro H. sound_unfold. sound_parts H. unfold awardSurvival. player_fields.
  pose proof (inject_Z_nonneg (streak p + 1) ltac:(lia)) as Hs.
  repeat split; try assumption; try (apply Hbo; assumption); try lia.
  - apply Q.min_glb; lra.
  - apply Q.le_min_r.
Qed.

Lemma sound_collide p : sound p -> sound (collide p).
Proof.
  intro H. sound_unfold. sound_parts H. unfold collide. player_fields.
  change (inject_Z 0) with 0.
  repeat split; try assumption; try (apply Hbo; assumption); try lia; try lra.
Qed.

Lemma sound_awardNearMiss p : sound p -> sound (fst (awardNearMiss p)).
Proof.
  intro H. sound_unfold. sound_parts H. unfold awardNearMiss. player_fields.
  destruct (2 <=? nearMissCount p + 1)%Z eqn:E; player_fields;
    [|apply Z.leb_gt in E];
    repeat split; try assumption; try (apply Hbo; assumption); lia.
Qed.

Lemma sound_collectBoost now p : sound p -> sound (collectBoost now p).
Proof.
  intro H. sound_unfold. sound_parts H. unfold collectBoost. player_fields.
  pose proof (inject_Z_nonneg (streak p + 1) ltac:(lia)) as Hs.
  repeat split; try assumption; try lia; try reflexivity.
  - apply Q.min_glb; lra.
  - apply Q.le_min_r.
  - now right.
Qed.

Lemma sound_resetForRestart p : sound p -> sound (resetForRestart p).
Proof.
  intro H. sound_unfold. sound_parts H. unfold resetForRestart. player_fields.
  change (inject_Z 0) with 0.
  repeat split; try assumption; try lia; try lra; discriminate.
Qed.

Lemma sound_resetForLobby p : sound p -> sound (resetForLobby p).
Proof.
  intro H. sound_unfold. sound_parts H. unfold resetForLobby. player_fields.
  change (inject_Z 0) with 0.
  repeat split; try assumption; try (apply Hbo; assumption); try lia; try lra.
Qed.

Section SoundRun.

Variables Math_sin Math_cos : Q -> Q.

Lemma sound_updatePlayer now p :
  sound p -> sound (fst (updatePlayer Math_sin Math_cos now p)).
Proof.
  intro H. destruct (input p) as [i|] eqn:Hi.
  - rewrite (updatePlayer_unfold Math_sin Math_cos now p i Hi).
    apply sound_applyStreakDecay, sound_applyComboTimer,
      sound_applySpeedScore, sound_applyMovement, sound_applySteering,
      sound_applySpeed, sound_handleBoost, H.
  - unfold updatePlayer. rewrite Hi. exact H.
Qed.

(** Every player seated in a reachable server is within all the ranges. *)
Lemma sound_seated (rs : list Request) (p : Player) :
  seated (run Math_sin Math_cos rs emptyServer) p -> sound p.
Proof.
  apply (seated_run Math_sin Math_cos sound).
  - exact sound_newPlayer.
  - exact sound_set_input.
  - exact sound_updatePlayer.
  - exact sound_awardSurvival.
  - exact sound_collide.
  - exact sound_awardNearMiss.
  - exact sound_collectBoost.
  - exact sound_resetForRestart.
  - exact sound_resetForLobby.
Qed.

End SoundRun.

Lemma seated_ann :
  seated (run sin_poly cos_poly openingMoves emptyServer) ann.
Proof.
  exists "L"%string, (lobbyOf twoSeats), "s1"%string.
  split; vm_compute; left; reflexivity.
Qed.

Section Ranges.

Variables Math_sin Math_cos : Q -> Q.

(** X1: whatever the requests served, every seated player is inside the
    arena: [30 <= x <= 370] and [50 <= y <= 550]. *)
Theorem players_stay_in_arena (rs : list Request) (p : Player) :
  seated (run Math_sin Math_cos rs emptyServer) p ->
  30 <= x p /\ x p <= 370 /\ 50 <= y p /\ y p <= 550.
Proof.
  intro H. apply (sound_seated Math_sin Math_cos rs p H).
Qed.

(** X2: every seated player has a streak of at least 0 and a multiplier
    between 1 and [1 + 0.2 * streak]; so the multiplier is at most 5 as long
    as the streak is at most 20. *)
Theorem multiplier_within_streak (rs : list Request) (p : Player) :
  seated (run Math_sin Math_cos rs emptyServer) p ->
  (0 <= streak p)%Z /\
  1 <= multiplier p /\
  multiplier p <= 1 + inject_Z (streak p) * 0.2 /\
  ((streak p <= 20)%Z -> multiplier p <= 5).
Proof.
  intro H.
  destruct (sound_seated Math_sin Math_cos rs p H)
    as (_ & (Hm1 & Hmu & Hst) & _).
  repeat split; try assumption.
  intro H20. rewrite Zle_Qle in H20. change (inject_Z 20) with 20 in H20.
  lra.
Qed.

(** X3: every seated player has a speed between -7.5 and 15 and a turn rate
    between -4 and 4. *)
Theorem speed_and_turn_rate_bounded (rs : list Request) (p : Player) :
  seated (run Math_sin Math_cos rs emptyServer) p ->
  -(15 # 2) <= speed p /\ speed p <= 15 /\
  -(4) <= turnSpeed p /\ turnSpeed p <= 4.
Proof.
  intro H. apply (sound_seated Math_sin Math_cos rs p H).
Qed.

(** X4: [maxSpeed] of a seated player is 8 or 15; while it is boosting it is
    15 and between 1 and 180 boost ticks remain. *)
Theorem boost_state_consistent (rs : list Request) (p : Player) :
  seated (run Math_sin Math_cos rs emptyServer) p ->
  (maxSpeed p == 8 \/ maxSpeed p == 15) /\
  (boosting p = true -> maxSpeed p == 15 /\ (1 <= boostTime p <= 180)%Z).
Proof.
  intro H. apply (sound_seated Math_sin Math_cos rs p H).
Qed.

(** X5: a seated player holds seat 1 or 2, keeps its 30 by 60 bounding box,
    has at most one near miss pending towards the next perfect bonus and a
    combo timer between 0 and 300. *)
Theorem seat_and_counters_bounded (rs : list Request) (p : Player) :
  seated (run Math_sin Math_cos rs emptyServer) p ->
  (1 <= playerNum p <= 2)%Z /\
  width p == 30 /\ height p == 60 /\
  (0 <= nearMissCount p <= 1)%Z /\
  (0 <= comboTimer p <= 300)%Z /\
  (0 <= perfectCount p)%Z.
Proof.
  intro H.
  destruct (sound_seated Math_sin Math_cos rs p H)
    as (_ & _ & _ & _ & (Hnm & Hct & Hpc & Hpn & Hw & Hh)).
  repeat split; try assumption; lia.
Qed.

End Ranges.

Lemma players_stay_in_arena_witness :
  seated (run sin_poly cos_poly openingMoves emptyServer) ann /\
  30 <= x ann /\ x ann <= 370 /\ 50 <= y ann /\ y ann <= 550.
Proof.
  split; [exact seated_ann|].
  exact (players_stay_in_arena sin_poly cos_poly openingMoves ann seated_ann).
Defined.

Lemma multiplier_within_streak_witness :
  seated (run sin_poly cos_poly openingMoves emptyServer) ann /\
  1 <= multiplier ann /\ multiplier ann <= 5.
Proof.
  split; [exact seated_ann|].
  pose proof (multiplier_within_streak sin_poly cos_poly openingMoves ann
                seated_ann) as (_ & H1 & _ & H5).
  split; [exact H1|]. apply H5. vm_compute. discriminate.
Defined.

Lemma speed_and_turn_rate_bounded_witness :
  seated (run sin_poly cos_poly openingMoves emptyServer) ann /\
  -(15 # 2) <= speed ann /\ speed ann <= 15 /\
  -(4) <= turnSpeed ann /\ turnSpeed ann <= 4.
Proof.
  split; [exact seated_ann|].
  exact (speed_and_turn_rate_bounded sin_poly cos_poly openingMoves ann
           seated_ann).
Defined.

Lemma boost_state_consistent_witness :
  seated (run sin_poly cos_poly openingMoves emptyServer) ann /\
  (maxSpeed ann == 8 \/ maxSpeed ann == 15).
Proof.
  split; [exact seated_ann|].
  exact (proj1 (boost_state_consistent sin_poly cos_poly openingMoves ann
                  seated_ann)).
Defined.

Lemma seat_and_counters_bounded_witness :
  seated (run sin_poly cos_poly openingMoves emptyServer) ann /\
  (1 <= playerNum ann <= 2)%Z.
Proof.
  split; [exact seated_ann|].
  exact (proj1 (seat_and_counters_bounded sin_poly cos_poly openingMoves ann
                  seated_ann)).
Defined.

(** ** One player through [updatePlayer] *)

Lemma Qfloor_below_two (q : Q) :
  0 <= q -> q < 2 -> Qfloor q = 0%Z \/ Qfloor q = 1%Z.
Proof.
  intros H0 H2.
  pose proof (Qfloor_le q) as Hle. pose proof (Qlt_floor q) as Hlt.
  assert (A : inject_Z (Qfloor q) < inject_Z 2)
    by (eapply Qle_lt_trans; eauto).
  assert (B : inject_Z 0 < inject_Z (Qfloor q + 1))
    by (eapply Qle_lt_trans; eauto).
  rewrite <- Zlt_Qlt in A, B. lia.
Qed.

(** The blocks after the movement leave the boost fields and the input
    alone, and only the score block touches the score. *)
Lemma bookkeeping_fields now (q : Player) :
  let r := applyStreakDecay now (applyComboTimer (fst (applySpeedScore q))) in
  boosting r = boosting q /\ boostTime r = boostTime q /\
  maxSpeed r = maxSpeed q /\ input r = input q /\
  score r =
    score q + inject_Z (Qfloor (Qabs (speed q) * 0.1)) * multiplier q.
Proof.
  cbv zeta.
  assert (H1 : forall c,
    boosting (applyStreakDecay now c) = boosting c /\
    boostTime (applyStreakDecay now c) = boostTime c /\
    maxSpeed (applyStreakDecay now c) = maxSpeed c /\
    input (applyStreakDecay now c) = input c /\
    score (applyStreakDecay now c) = score c).
  { intro c. unfold applyStreakDecay.
    destruct (3000 <? now - lastObstacleTime c)%Z; [|auto].
    destruct (0 <? streak c)%Z; repeat split; reflexivity. }
  assert (H2 : forall c,
    boosting (applyComboTimer c) = boosting c /\
    boostTime (applyComboTimer c) = boostTime c /\
    maxSpeed (applyComboTimer c) = maxSpeed c /\
    input (applyComboTimer c) = input c /\
    score (applyComboTimer c) = score c).
  { intro c. unfold applyComboTimer.
    destruct (0 <? comboTimer c)%Z; [|auto].
    destruct (comboTimer (set_comboTimer _ c) =? 0)%Z;
      repeat split; reflexivity. }
  assert (H3 :
    boosting (fst (applySpeedScore q)) = boosting q /\
    boostTime (fst (applySpeedScore q)) = boostTime q /\
    maxSpeed (fst (applySpeedScore q)) = maxSpeed q /\
    input (fst (applySpeedScore q)) = input q /\
    score (fst (applySpeedScore q)) =
      score q + inject_Z (Qfloor (Qabs (speed q) * 0.1)) * multiplier q).
  { unfold applySpeedScore.
    match goal with |- context [if ?c then _ else _] => destruct c end;
      repeat split; reflexivity. }
  destruct (H1 (applyComboTimer (fst (applySpeedScore q))))
    as (A1 & A2 & A3 & A4 & A5).
  destruct (H2 (fst (applySpeedScore q))) as (B1 & B2 & B3 & B4 & B5).
  destruct H3 as (C1 & C2 & C3 & C4 & C5).
  repeat split; congruence.
Qed.

Section OnePlayer.

Variables Math_sin Math_cos : Q -> Q.

(** X6: one run of [updatePlayer] on a seated player adds to its score
    either nothing or exactly its multiplier: the speed never reaches 20, so
    [speedPoints] is 0 or 1. *)
Theorem passive_score_per_tick (rs : list Request) (now : Z) (p : Player) :
  seated (run Math_sin Math_cos rs emptyServer) p ->
  score (fst (updatePlayer Math_sin Math_cos now p)) == score p \/
  score (fst (updatePlayer Math_sin Math_cos now p)) ==
    score p + multiplier p.
Proof.
  intro Hseat. pose proof (sound_seated Math_sin Math_cos rs p Hseat) as Hs.
  destruct (input p) as [i|] eqn:Hi.
  - rewrite (updatePlayer_unfold Math_sin Math_cos now p i Hi).
    pose proof (movement_ledger Math_sin Math_cos i (handleBoost p))
      as (_ & _ & _ & _ & _ & _ & Lsc & _ & Lmu & _).
    assert (Hq : sound (applyMovement Math_sin Math_cos
                          (applySteering i (applySpeed i (handleBoost p)))))
      by (apply sound_applyMovement, sound_applySteering, sound_applySpeed,
            sound_handleBoost, Hs).
    destruct (handleBoost_streak p) as [_ Hbm].
    assert (Hbs : score (handleBoost p) = score p).
    { unfold handleBoost. destruct (boosting p); [|reflexivity].
      destruct (boostTime (set_boostTime _ p) <=? 0)%Z; reflexivity. }
    generalize dependent (applyMovement Math_sin Math_cos
                            (applySteering i (applySpeed i (handleBoost p)))).
    intros q Lsc Lmu Hq.
    destruct (bookkeeping_fields now q) as (_ & _ & _ & _ & Hscore).
    rewrite Hscore, Lsc, Lmu, Hbs, Hbm.
    destruct Hq as (_ & _ & (Hs0 & Hs1 & _) & _).
    assert (Habs : 0 <= Qabs (speed q) * 0.1 /\ Qabs (speed q) * 0.1 < 2).
    { pose proof (Qabs_nonneg (speed q)).
      assert (Qabs (speed q) <= 15) by (apply Qabs_Qle_condition; split; lra).
      split; lra. }
    destruct (Qfloor_below_two _ (proj1 Habs) (proj2 Habs)) as [-> | ->].
    + left. change (inject_Z 0) with 0. ring.
    + right. change (inject_Z 1) with 1. ring.
  - unfold updatePlayer. rewrite Hi. left. reflexivity.
Qed.

Lemma updatePlayer_boost_fields now (p : Player) (i : Input) :
  input p = Some i ->
  boosting (fst (updatePlayer Math_sin Math_cos now p)) =
    boosting (handleBoost p) /\
  boostTime (fst (updatePlayer Math_sin Math_cos now p)) =
    boostTime (handleBoost p) /\
  maxSpeed (fst (updatePlayer Math_sin Math_cos now p)) =
    maxSpeed (handleBoost p) /\
  input (fst (updatePlayer Math_sin Math_cos now p)) = Some i.
Proof.
  intro Hi. rewrite (updatePlayer_unfold Math_sin Math_cos now p i Hi).
  pose proof (movement_ledger Math_sin Math_cos i (handleBoost p))
    as (_ & _ & Li & Lb & Lbt & Lm & _).
  assert (Hbi : input (handleBoost p) = input p).
  { unfold handleBoost. destruct (boosting p); [|reflexivity].
    destruct (boostTime (set_boostTime _ p) <=? 0)%Z; reflexivity. }
  generalize dependent (applyMovement Math_sin Math_cos
                          (applySteering i (applySpeed i (handleBoost p)))).
  intros q Li Lb Lbt Lm.
  destruct (bookkeeping_fields now q) as (A1 & A2 & A3 & A4 & _).
  repeat split; congruence.
Qed.

(** X7: a boost with [b] ticks left on a player that keeps sending input
    lasts exactly [b] runs of [updatePlayer]: for [n < b] the player is
    still boosting with [b - n] ticks left and its [maxSpeed] untouched; from
    the [b]-th run on it is no longer boosting and [maxSpeed] is 8. *)
Theorem boost_lasts_boostTime_ticks (clock : nat -> Z) (p : Player)
    (i : Input) (n : nat) :
  input p = Some i ->
  boosting p = true ->
  (0 < boostTime p)%Z ->
  let q := updateRepeatedly Math_sin Math_cos clock n p in
  input q = Some i /\
  ((Z.of_nat n < boostTime p)%Z ->
   boosting q = true /\ boostTime q = (boostTime p - Z.of_nat n)%Z /\
   maxSpeed q = maxSpeed p) /\
  ((boostTime p <= Z.of_nat n)%Z ->
   boosting q = false /\ maxSpeed q = 8).
Proof.
  intros Hi Hb Hpos. cbv zeta.
  induction n as [|n IH].
  - cbn [updateRepeatedly]. split; [exact Hi|]. split.
    + intros _. repeat split; [exact Hb | lia].
    + intro H. cbn in H. lia.
  - destruct IH as (IHi & IHlt & IHge).
    cbn [updateRepeatedly].
    set (q := updateRepeatedly Math_sin Math_cos clock n p) in *.
    destruct (updatePlayer_boost_fields (clock n) q i IHi)
      as (F1 & F2 & F3 & F4).
    split; [exact F4|].
    rewrite F1, F2, F3. clear F1 F2 F3 F4.
    unfold handleBoost.
    destruct (Z_lt_le_dec (Z.of_nat n) (boostTime p)) as [Hlt | Hge].
    + destruct (IHlt Hlt) as (Qb & Qt & Qm). rewrite Qb.
      player_fields. rewrite Qt.
      destruct (boostTime p - Z.of_nat n - 1 <=? 0)%Z eqn:E;
        [apply Z.leb_le in E | apply Z.leb_gt in E]; player_fields.
      * split; [intro; lia|]. intros _. split; reflexivity.
      * split; [|intro; lia]. intros _.
        repeat split; [exact Qb | lia | exact Qm].
    + destruct (IHge Hge) as (Qb & Qm). rewrite Qb.
      split; [intro; lia|]. intros _. split; assumption.
Qed.

End OnePlayer.

Lemma passive_score_per_tick_witness :
  seated (run sin_poly cos_poly openingMoves emptyServer) ann /\
  (score (fst (updatePlayer sin_poly cos_poly 16 ann)) == score ann \/
   score (fst (updatePlayer sin_poly cos_poly 16 ann)) ==
     score ann + multiplier ann).
Proof.
  split; [exact seated_ann|].
  exact (passive_score_per_tick sin_poly cos_poly openingMoves 16 ann
           seated_ann).
Defined.

Lemma boost_lasts_boostTime_ticks_witness :
  input annBoosted = Some noInput /\
  boosting annBoosted = true /\
  (0 < boostTime annBoosted)%Z /\
  boosting (updateRepeatedly sin_poly cos_poly (fun k => 17 * Z.of_nat k)%Z
              180 annBoosted) = false /\
  maxSpeed (updateRepeatedly sin_poly cos_poly (fun k => 17 * Z.of_nat k)%Z
              180 annBoosted) = 8.
Proof.
  split; [reflexivity|]. split; [reflexivity|]. split; [reflexivity|].
  apply (boost_lasts_boostTime_ticks sin_poly cos_poly
           (fun k => 17 * Z.of_nat k)%Z annBoosted noInput 180
           eq_refl eq_refl eq_refl).
  vm_compute. discriminate.
Defined.

(** ** Near-miss and boost-pad awards *)

Lemma awardNearMiss_pending (p : Player) :
  nearMissCount p = 0%Z ->
  score (fst (awardNearMiss p)) = score p + 25 * multiplier p /\
  nearMissCount (fst (awardNearMiss p)) = 1%Z /\
  perfectCount (fst (awardNearMiss p)) = perfectCount p /\
  List.length (snd (awardNearMiss p)) = 1%nat.
Proof.
  intro H0. unfold awardNearMiss. player_fields. rewrite H0.
  change (2 <=? 0 + 1)%Z with false. cbv iota. player_fields.
  repeat split; reflexivity.
Qed.

Lemma awardNearMiss_perfect (p : Player) :
  nearMissCount p = 1%Z ->
  score (fst (awardNearMiss p)) =
    score p + 25 * multiplier p + 100 * multiplier p /\
  nearMissCount (fst (awardNearMiss p)) = 0%Z /\
  perfectCount (fst (awardNearMiss p)) = (perfectCount p + 1)%Z /\
  List.length (snd (awardNearMiss p)) = 2%nat.
Proof.
  intro H1. unfold awardNearMiss. player_fields. rewrite H1.
  change (2 <=? 1 + 1)%Z with true. cbv iota. player_fields.
  repeat split; reflexivity.
Qed.

Section Awards.

Variables Math_sin Math_cos : Q -> Q.

(** X8: when a seated player passes within near-miss range of an obstacle
    of its seat that it does not overlap and that has made no award yet, the
    obstacle is flagged and the player is paid [25 * multiplier]; if a near
    miss was already pending, it is paid [100 * multiplier] more, the
    pending count returns to 0 and [perfectCount] goes up by one; otherwise
    one near miss is now pending.  So every second near miss since the last
    collision is a perfect. *)
Theorem near_miss_then_perfect (rs : list Request) (p : Player)
    (o : Obstacle.t) :
  seated (run Math_sin Math_cos rs emptyServer) p ->
  Obstacle.playerNum o = playerNum p ->
  overlaps p (Obstacle.x o) (Obstacle.y o)
    (Obstacle.width o) (Obstacle.height o) = false ->
  nearMissRange p o = true ->
  Obstacle.nearMissAwarded o = false ->
  let p' := fst (fst (checkObstacle p o)) in
  let o' := snd (fst (checkObstacle p o)) in
  let out := snd (checkObstacle p o) in
  Obstacle.nearMissAwarded o' = true /\
  Obstacle.y o' = Obstacle.y o /\
  ((nearMissCount p = 0%Z /\
    score p' == score p + 25 * multiplier p /\
    nearMissCount p' = 1%Z /\
    perfectCount p' = perfectCount p /\
    List.length out = 1%nat) \/
   (nearMissCount p = 1%Z /\
    score p' == score p + 125 * multiplier p /\
    nearMissCount p' = 0%Z /\
    perfectCount p' = (perfectCount p + 1)%Z /\
    List.length out = 2%nat)).
Proof.
  intros Hseat Hnum Hov Hnear Hflag. cbv zeta.
  destruct (sound_seated Math_sin Math_cos rs p Hseat)
    as (_ & _ & _ & _ & (Hnm & _)).
  assert (E : checkObstacle p o =
              (fst (awardNearMiss p), Obstacle.set_nearMissAwarded true o,
               snd (awardNearMiss p))).
  { unfold checkObstacle. rewrite Hnum, Z.eqb_refl, Hov, Hnear, Hflag.
    cbn [negb]. destruct (awardNearMiss p). reflexivity. }
  rewrite E. cbn [fst snd].
  split; [reflexivity|]. split; [reflexivity|].
  assert (Hcase : nearMissCount p = 0%Z \/ nearMissCount p = 1%Z) by lia.
  destruct Hcase as [H0 | H1].
  - left. destruct (awardNearMiss_pending p H0) as (A & B & C & D).
    rewrite A. repeat split; try assumption; reflexivity.
  - right. destruct (awardNearMiss_perfect p H1) as (A & B & C & D).
    rewrite A. repeat split; try assumption; ring.
Qed.

End Awards.

Lemma near_miss_then_perfect_witness :
  seated (run sin_poly cos_poly openingMoves emptyServer) ann /\
  Obstacle.playerNum pebble = playerNum ann /\
  overlaps ann (Obstacle.x pebble) (Obstacle.y pebble)
    (Obstacle.width pebble) (Obstacle.height pebble) = false /\
  nearMissRange ann pebble = true /\
  Obstacle.nearMissAwarded pebble = false /\
  Obstacle.nearMissAwarded (snd (fst (checkObstacle ann pebble))) = true.
Proof.
  split; [exact seated_ann|].
  split; [reflexivity|]. split; [vm_compute; reflexivity|].
  split; [vm_compute; reflexivity|]. split; [reflexivity|].
  exact (proj1 (near_miss_then_perfect sin_poly cos_poly openingMoves ann
                  pebble seated_ann eq_refl eq_refl eq_refl eq_refl)).
Defined.

(** X9: a player overlapping an unused boost pad of its seat collects it:
    it is paid [(50 + 10 * streak) * multiplier], its streak goes up by one,
    it boosts for 180 ticks at [maxSpeed] 15 with the combo timer at 300,
    and the pad is marked used.  A used pad, however often it is advanced,
    does nothing to any player. *)
Theorem boost_pad_collected_once (now : Z) (p : Player) (b : BoostPad.t) :
  BoostPad.playerNum b = playerNum p ->
  BoostPad.used b = false ->
  overlaps p (BoostPad.x b) (BoostPad.y b)
    (BoostPad.width b) (BoostPad.height b) = true ->
  let p' := fst (checkBoostPad now p b) in
  let b' := snd (checkBoostPad now p b) in
  score p' == score p + (50 + inject_Z (streak p) * 10) * multiplier p /\
  streak p' = (streak p + 1)%Z /\
  multiplier p' == Qmin 5 (1 + inject_Z (streak p + 1) * 0.2) /\
  boosting p' = true /\ boostTime p' = 180%Z /\ maxSpeed p' = 15 /\
  comboTimer p' = 300%Z /\ lastObstacleTime p' = now /\
  BoostPad.used b' = true /\
  forall (n : nat) (now' : Z) (q : Player),
    checkBoostPad now' q (Nat.iter n advanceBoostPad b') =
    (q, Nat.iter n advanceBoostPad b').
Proof.
  intros Hnum Hused Hov. cbv zeta.
  assert (E : checkBoostPad now p b = (collectBoost now p, BoostPad.set_used true b)).
  { unfold checkBoostPad. rewrite Hnum, Z.eqb_refl, Hused, Hov. reflexivity. }
  rewrite E. cbn [fst snd]. unfold collectBoost. player_fields.
  repeat split; try reflexivity.
  intros n now' q.
  assert (Hu : BoostPad.used (Nat.iter n advanceBoostPad
                                (BoostPad.set_used true b)) = true).
  { induction n as [|n IH]; [reflexivity|]. cbn [Nat.iter]. exact IH. }
  unfold checkBoostPad. rewrite Hu. cbn [negb].
  rewrite andb_false_r. reflexivity.
Qed.

Lemma boost_pad_collected_once_witness :
  BoostPad.playerNum padOnSpawn = playerNum ann /\
  BoostPad.used padOnSpawn = false /\
  overlaps ann (BoostPad.x padOnSpawn) (BoostPad.y padOnSpawn)
    (BoostPad.width padOnSpawn) (BoostPad.height padOnSpawn) = true /\
  score (fst (checkBoostPad 5 ann padOnSpawn)) ==
    score ann + (50 + inject_Z (streak ann) * 10) * multiplier ann.
Proof.
  split; [reflexivity|]. split; [reflexivity|].
  split; [vm_compute; reflexivity|].
  exact (proj1 (boost_pad_collected_once 5 ann padOnSpawn
                  eq_refl eq_refl eq_refl)).
Defined.

(** ** Lookups after insertions and deletions *)

Section DictLookups.

Context {V : Type}.
Implicit Types (m : Dict V) (k : string) (v : V).

Lemma dict_get_set_same k v m : dict_get k (dict_set k v m) = Some v.
Proof.
  induction m as [|[k' v'] m IH]; cbn [dict_set dict_get].
  - now rewrite String.eqb_refl.
  - destruct (String.eqb k k') eqn:E; cbn [dict_get]; rewrite E;
      [reflexivity | exact IH].
Qed.

Lemma dict_get_set_other k k0 v m :
  k <> k0 -> dict_get k0 (dict_set k v m) = dict_get k0 m.
Proof.
  intro Hne. induction m as [|[k' v'] m IH]; cbn [dict_set dict_get].
  - destruct (String.eqb k0 k) eqn:E; [|reflexivity].
    apply String.eqb_eq in E. congruence.
  - destruct (String.eqb k k') eqn:E; cbn [dict_get].
    + apply String.eqb_eq in E. subst k'.
      destruct (String.eqb k0 k) eqn:E0; [|reflexivity].
      apply String.eqb_eq in E0. congruence.
    + destruct (String.eqb k0 k'); [reflexivity | exact IH].
Qed.

Lemma dict_get_delete_other k k0 m :
  k <> k0 -> dict_get k0 (dict_delete k m) = dict_get k0 m.
Proof.
  intro Hne. induction m as [|[k' v'] m IH]; cbn [dict_delete dict_get];
    [reflexivity|].
  destruct (String.eqb k k') eqn:E; cbn [dict_get].
  - apply String.eqb_eq in E. subst k'.
    destruct (String.eqb k0 k) eqn:E0; [|reflexivity].
    apply String.eqb_eq in E0. congruence.
  - destruct (String.eqb k0 k'); [reflexivity | exact IH].
Qed.

Lemma dict_get_absent k m : ~ In k (dict_keys m) -> dict_get k m = None.
Proof.
  induction m as [|[k' v'] m IH]; intro Hn; cbn [dict_get]; [reflexivity|].
  destruct (String.eqb k k') eqn:E.
  - apply String.eqb_eq in E. subst. exfalso. apply Hn. now left.
  - apply IH. intro H. apply Hn. now right.
Qed.

Lemma dict_get_delete_same k m :
  NoDup (dict_keys m) -> dict_get k (dict_delete k m) = None.
Proof.
  induction m as [|[k' v'] m IH]; intro Hnd; cbn [dict_delete];
    [reflexivity|].
  inversion Hnd as [|? ? Hnotin Hnd']; subst.
  destruct (String.eqb k k') eqn:E.
  - apply String.eqb_eq in E. subst k'. now apply dict_get_absent.
  - cbn [dict_get]. rewrite E. now apply IH.
Qed.

Lemma dict_set_absent k v m :
  dict_get k m = None -> dict_set k v m = m ++ [(k, v)].
Proof.
  induction m as [|[k' v'] m IH]; cbn [dict_get dict_set app]; [reflexivity|].
  destruct (String.eqb k k'); [discriminate|].
  intro H. now rewrite IH.
Qed.

Lemma in_keys_dict_set a k v m :
  In a (dict_keys (dict_set k v m)) -> a = k \/ In a (dict_keys m).
Proof.
  induction m as [|[k' v'] m IH]; cbn [dict_set dict_keys map fst].
  - intros [<- | []]. now left.
  - destruct (String.eqb k k'); cbn [map fst].
    + intro H. now right.
    + intros [<- | H]; [right; now left|].
      destruct (IH H); [now left | right; now right].
Qed.

Lemma NoDup_dict_set k v m :
  NoDup (dict_keys m) -> NoDup (dict_keys (dict_set k v m)).
Proof.
  induction m as [|[k' v'] m IH]; intro Hnd; cbn [dict_set].
  - repeat constructor. intros [].
  - inversion Hnd as [|? ? Hnotin Hnd']; subst.
    destruct (String.eqb k k') eqn:E; [exact Hnd|].
    cbn [dict_keys map fst]. constructor; [|now apply IH].
    intro Hin. destruct (in_keys_dict_set _ _ _ _ Hin) as [-> | H].
    + now rewrite String.eqb_refl in E.
    + now apply Hnotin.
Qed.

End DictLookups.

(** ** The registry never holds an empty lobby *)

Section NeverEmpty.

Variables Math_sin Math_cos : Q -> Q.

(** X10: whatever requests the server has handled, every lobby of the
    registry seats one or two players, and the periodic sweep, which looks
    for lobbies without players, deletes nothing and sends nothing. *)
Theorem sweep_finds_nothing (rs : list Request) (now : Z) :
  Forall (fun kl => (1 <= playerCount (snd kl) <= 2)%nat)
    (lobbies (run Math_sin Math_cos rs emptyServer)) /\
  cleanup now (run Math_sin Math_cos rs emptyServer) =
    (run Math_sin Math_cos rs emptyServer, []).
Proof.
  assert (Hok : registryOk (run Math_sin Math_cos rs emptyServer))
    by (apply registryOk_run; constructor).
  split; [exact Hok | now apply cleanup_nothing_to_do].
Qed.

End NeverEmpty.

(** ** Joining, leaving and disconnecting *)

Lemma server_eta (s : Server) : mkServer (lobbies s) (playerSockets s) = s.
Proof. now destruct s. Qed.

(** X11: a second [disconnect] of the same socket changes nothing and sends
    nothing. *)
Theorem disconnect_twice (sid : string) (s : Server) :
  NoDup (dict_keys (playerSockets s)) ->
  on_disconnect sid (fst (on_disconnect sid s)) =
    (fst (on_disconnect sid s), []).
Proof.
  intro Hnd. unfold on_disconnect at 2 3.
  destruct (dict_get sid (playerSockets s)) as [lobbyId|] eqn:Hs.
  - destruct (dict_get lobbyId (lobbies s)) as [l|] eqn:Hl.
    + unfold leave.
      destruct (removePlayer sid (playerSockets s) l)
        as [[[del socks] l'] out] eqn:Hr.
      assert (Hsocks : socks = dict_delete sid (playerSockets s)).
      { unfold removePlayer in Hr.
        repeat match type of Hr with
               | context [if ?c then _ else _] => destruct c
               | context [let (_, _) := ?c in _] => destruct c
               end; inversion Hr; reflexivity. }
      cbn [fst]. unfold on_disconnect.
      assert (Hnone : dict_get sid socks = None)
        by (rewrite Hsocks; now apply dict_get_delete_same).
      destruct del; cbn [playerSockets]; rewrite Hnone; reflexivity.
    + cbn [fst]. unfold on_disconnect. rewrite Hs, Hl. reflexivity.
  - cbn [fst]. unfold on_disconnect. rewrite Hs. reflexivity.
Qed.

Lemma disconnect_twice_witness :
  NoDup (dict_keys (playerSockets twoSeats)) /\
  on_disconnect "s1" (fst (on_disconnect "s1" twoSeats)) =
    (fst (on_disconnect "s1" twoSeats), []).
Proof.
  assert (Hnd : NoDup (dict_keys (playerSockets twoSeats))).
  { vm_compute. repeat constructor; cbn; intuition discriminate. }
  split; [exact Hnd|]. exact (disconnect_twice "s1" twoSeats Hnd).
Defined.

Lemma on_createLobby_state now sid lobbyId lobbyName playerName s :
  on_createLobby now sid lobbyId lobbyName playerName s =
  (mkServer
     (dict_set lobbyId (freshLobby now lobbyId lobbyName sid playerName)
        (lobbies s))
     (dict_set sid lobbyId (playerSockets s)),
   [mkEmit (Some sid) (joinedLobby lobbyId lobbyName 1);
    mkEmit None
      (lobbiesUpdate
         (dict_keys
            (dict_set lobbyId
               (freshLobby now lobbyId lobbyName sid playerName)
               (lobbies s))))]).
Proof. reflexivity. Qed.

(** X12: a socket that creates a second lobby stays seated in the first.
    When it disconnects, only the second lobby is left (and deleted); the
    first keeps the player, the socket is no longer routed anywhere, so a
    later [disconnect] or [playerInput] of that socket does nothing. *)
Theorem second_lobby_leaves_ghost_seat (now1 now2 : Z)
    (sid A B nameA nameB playerName : string) (s : Server) :
  A <> B ->
  NoDup (dict_keys (playerSockets s)) ->
  let s1 := fst (on_createLobby now1 sid A nameA playerName s) in
  let s2 := fst (on_createLobby now2 sid B nameB playerName s1) in
  let s3 := fst (on_disconnect sid s2) in
  (exists l,
     dict_get A (lobbies s3) = Some l /\
     GameLobby.players l = [(sid, newPlayer now1 sid 1 playerName)]) /\
  dict_get sid (playerSockets s3) = None /\
  on_disconnect sid s3 = (s3, []) /\
  forall data_input, on_playerInput sid data_input s3 = (s3, []).
Proof.
  intros Hne Hnd. cbv zeta.
  rewrite !on_createLobby_state. cbn [fst lobbies playerSockets].
  set (lA := freshLobby now1 A nameA sid playerName).
  set (lB := freshLobby now2 B nameB sid playerName).
  set (socks := dict_set sid B (dict_set sid A (playerSockets s))).
  set (lobs := dict_set B lB (dict_set A lA (lobbies s))).
  assert (E : on_disconnect sid (mkServer lobs socks) =
              (mkServer (dict_delete B lobs) (dict_delete sid socks),
               broadcastLobbyUpdates
                 (mkServer (dict_delete B lobs) (dict_delete sid socks)))).
  { unfold on_disconnect. cbn [playerSockets lobbies].
    unfold socks at 1. rewrite dict_get_set_same.
    unfold lobs at 1. rewrite dict_get_set_same.
    unfold leave, removePlayer, lB, freshLobby.
    cbn [GameLobby.players GameLobby.set_players dict_delete playerSockets].
    rewrite String.eqb_refl. reflexivity. }
  rewrite E. cbn [fst].
  assert (Hnd2 : NoDup (dict_keys socks))
    by (unfold socks; now apply NoDup_dict_set, NoDup_dict_set).
  assert (Hnone : dict_get sid (dict_delete sid socks) = None)
    by now apply dict_get_delete_same.
  split; [|split; [|split]].
  - exists lA. split; [|reflexivity]. cbn [lobbies].
    rewrite (dict_get_delete_other B A) by congruence.
    unfold lobs. rewrite (dict_get_set_other B A) by congruence.
    apply dict_get_set_same.
  - exact Hnone.
  - unfold on_disconnect. cbn [playerSockets]. now rewrite Hnone.
  - intro data_input. unfold on_playerInput. cbn [playerSockets].
    now rewrite Hnone.
Qed.

Lemma second_lobby_leaves_ghost_seat_witness :
  "A"%string <> "B"%string /\
  NoDup (dict_keys (playerSockets emptyServer)) /\
  dict_get "s1"
    (playerSockets
       (fst (on_disconnect "s1"
               (fst (on_createLobby 2 "s1" "B" "Second" "Ann"
                       (fst (on_createLobby 1 "s1" "A" "First" "Ann"
                               emptyServer))))))) = None.
Proof.
  assert (Hne : "A"%string <> "B"%string) by discriminate.
  assert (Hnd : NoDup (dict_keys (playerSockets emptyServer)))
    by constructor.
  split; [exact Hne|]. split; [exact Hnd|].
  exact (proj1 (proj2 (second_lobby_leaves_ghost_seat 1 2 "s1" "A" "B"
                         "First" "Second" "Ann" emptyServer Hne Hnd))).
Defined.

Lemma eqb_neq_false (a b : string) : a <> b -> String.eqb a b = false.
Proof. intro H. now apply String.eqb_neq. Qed.

(** X13: when a socket joins a lobby in which one other socket sits, it is
    appended as seat 2 and the match starts at once: empty road, 30 seconds
    on the clock, the loop installed, and [gameStart] sent to both, the
    earlier player first. *)
Theorem second_join_starts_match (now : Z) (sid playerName : string)
    (socks : Dict string) (l : GameLobby.t) (k0 : string) (p0 : Player) :
  GameLobby.players l = [(k0, p0)] ->
  sid <> k0 ->
  let r := addPlayer now sid playerName socks l in
  let l' := snd (fst r) in
  fst (fst (fst r)) = true /\
  snd (fst (fst r)) = dict_set sid (GameLobby.id l) socks /\
  GameLobby.players l' = [(k0, p0); (sid, newPlayer now sid 2 playerName)] /\
  GameLobby.gameStarted l' = true /\
  GameLobby.gameEnded l' = false /\
  GameLobby.gameLoop l' = true /\
  GameLobby.gameStartTime l' = now /\
  GameLobby.gameDuration l' = 30000%Z /\
  GameLobby.gameState l' = mkGameState [] [] 0 (Some 30%Z) /\
  snd r = [mkEmit (Some k0) gameStart; mkEmit (Some sid) gameStart].
Proof.
  intros Hps Hne. cbv zeta. unfold addPlayer, playerCount.
  rewrite Hps. cbn [dict_keys map List.length Nat.leb fst].
  lobby_fields. rewrite ?Hps. cbn [dict_set].
  rewrite (eqb_neq_false sid k0 Hne).
  cbn [dict_keys map List.length Nat.eqb fst snd].
  repeat split; reflexivity.
Qed.

Lemma second_join_starts_match_witness :
  GameLobby.players annAlone = [("s1"%string, ann)] /\
  "s2"%string <> "s1"%string /\
  GameLobby.gameStarted (snd (fst (addPlayer 7 "s2" "Bob" [] annAlone)))
    = true.
Proof.
  assert (Hne : "s2"%string <> "s1"%string) by discriminate.
  split; [reflexivity|]. split; [exact Hne|].
  apply (second_join_starts_match 7 "s2" "Bob" [] annAlone "s1" ann eq_refl
           Hne).
Defined.

(** X14: when the socket that sits alone in a lobby joins that same lobby
    again, the join succeeds without starting a match: its player record is
    replaced by a fresh one that carries seat 2, while the [joinedLobby]
    reply announces seat 1 (the number of players). *)
Theorem rejoin_replaces_player (now : Z) (sid lobbyId playerName : string)
    (s : Server) (l : GameLobby.t) (p0 : Player) :
  dict_get lobbyId (lobbies s) = Some l ->
  GameLobby.players l = [(sid, p0)] ->
  let s' := fst (on_joinLobby now sid lobbyId playerName s) in
  let l' :=
    GameLobby.set_players [(sid, newPlayer now sid 2 playerName)] l in
  dict_get lobbyId (lobbies s') = Some l' /\
  GameLobby.gameStarted l' = GameLobby.gameStarted l /\
  playerNum (newPlayer now sid 2 playerName) = 2%Z /\
  snd (on_joinLobby now sid lobbyId playerName s) =
    [mkEmit (Some sid) (joinedLobby lobbyId (GameLobby.name l) 1);
     mkEmit None (lobbiesUpdate (dict_keys (lobbies s')))].
Proof.
  intros Hg Hps. cbv zeta.
  assert (E : addPlayer now sid playerName (playerSockets s) l =
              (true, dict_set sid (GameLobby.id l) (playerSockets s),
               GameLobby.set_players
                 [(sid, newPlayer now sid 2 playerName)] l, [])).
  { unfold addPlayer, playerCount.
    rewrite Hps. cbn [dict_keys map List.length Nat.leb fst].
    lobby_fields. rewrite ?Hps. cbn [dict_set].
    rewrite String.eqb_refl.
    cbn [dict_keys map List.length Nat.eqb fst snd]. reflexivity. }
  unfold on_joinLobby. rewrite Hg, E. cbn [fst snd lobbies].
  rewrite dict_get_set_same. repeat split; reflexivity.
Qed.

Lemma rejoin_replaces_player_witness :
  dict_get "L" (lobbies (mkServer [("L"%string, annAlone)] [])) = Some annAlone /\
  GameLobby.players annAlone = [("s1"%string, ann)] /\
  dict_get "L"
    (lobbies (fst (on_joinLobby 9 "s1" "L" "Ann"
                     (mkServer [("L"%string, annAlone)] [])))) =
  Some (GameLobby.set_players [("s1"%string, newPlayer 9 "s1" 2 "Ann")]
          annAlone).
Proof.
  split; [reflexivity|]. split; [reflexivity|].
  apply (rejoin_replaces_player 9 "s1" "L" "Ann"
           (mkServer [("L"%string, annAlone)] []) annAlone ann
           eq_refl eq_refl).
Defined.

(** X15: when the earlier-seated of the two players of a started match is
    removed, the lobby is kept, the match is ended ([gameStarted],
    [gameEnded] and the loop all off) and the player left behind is sent
    [returnToLobby] with position, speed, heading, score, streak and
    multiplier reset; its velocity, boost state and [maxSpeed] are left as
    they were. *)
Theorem leaving_ends_match (socks : Dict string) (l : GameLobby.t)
    (k1 k2 : string) (p1 p2 : Player) :
  GameLobby.players l = [(k1, p1); (k2, p2)] ->
  k2 <> k1 ->
  GameLobby.gameStarted l = true ->
  let r := removePlayer k1 socks l in
  let l' := snd (fst r) in
  fst (fst (fst r)) = false /\
  snd (fst (fst r)) = dict_delete k1 socks /\
  GameLobby.players l' = [(k2, resetForLobby p2)] /\
  GameLobby.gameStarted l' = false /\
  GameLobby.gameEnded l' = false /\
  GameLobby.gameLoop l' = false /\
  snd r = [mkEmit (Some k2) returnToLobby] /\
  x (resetForLobby p2) = 200 /\ y (resetForLobby p2) = 500 /\
  speed (resetForLobby p2) = 0 /\ angle (resetForLobby p2) = 0 /\
  score (resetForLobby p2) = 0 /\ streak (resetForLobby p2) = 0%Z /\
  multiplier (resetForLobby p2) = 1 /\
  velocityX (resetForLobby p2) = velocityX p2 /\
  velocityY (resetForLobby p2) = velocityY p2 /\
  boosting (resetForLobby p2) = boosting p2 /\
  boostTime (resetForLobby p2) = boostTime p2 /\
  maxSpeed (resetForLobby p2) = maxSpeed p2.
Proof.
  intros Hps Hne Hst. cbv zeta. unfold removePlayer, playerCount.
  lobby_fields. rewrite Hps. cbn [dict_delete].
  rewrite String.eqb_refl.
  cbn [dict_keys map List.length Nat.eqb Nat.ltb Nat.leb fst snd].
  rewrite Hst. cbn [andb]. unfold endGame. cbv zeta. lobby_fields.
  destruct (GameLobby.gameLoop l) eqn:Hloop; lobby_fields; rewrite ?Hps;
    repeat split; try reflexivity; exact Hloop.
Qed.

Lemma leaving_ends_match_witness :
  GameLobby.players (lobbyOf twoSeats) =
    [("s1"%string, ann); ("s2"%string, newPlayer 0 "s2" 2 "Bob")] /\
  "s2"%string <> "s1"%string /\
  GameLobby.gameStarted (lobbyOf twoSeats) = true /\
  GameLobby.gameStarted
    (snd (fst (removePlayer "s1" [] (lobbyOf twoSeats)))) = false.
Proof.
  assert (Hne : "s2"%string <> "s1"%string) by discriminate.
  split; [vm_compute; reflexivity|]. split; [exact Hne|].
  split; [vm_compute; reflexivity|].
  apply (leaving_ends_match [] (lobbyOf twoSeats) "s1" "s2" ann
           (newPlayer 0 "s2" 2 "Bob")); [vm_compute; reflexivity | exact Hne |
           vm_compute; reflexivity].
Defined.

(** ** The match timer *)

Lemma ceiling_of_milliseconds (d : Z) :
  ((d <= 0)%Z -> (Qceiling (inject_Z d / 1000) <= 0)%Z) /\
  ((0 < d)%Z -> (1 <= Qceiling (inject_Z d / 1000))%Z) /\
  ((d <= 30000)%Z -> (Qceiling (inject_Z d / 1000) <= 30)%Z).
Proof.
  pose proof (Qle_ceiling (inject_Z d / 1000)) as Hle.
  pose proof (Qceiling_lt (inject_Z d / 1000)) as Hlt.
  set (c := Qceiling (inject_Z d / 1000)) in *. clearbody c.
  replace (c - 1)%Z with (c + -1)%Z in Hlt by lia.
  rewrite inject_Z_plus in Hlt. change (inject_Z (-1)) with (-(1)) in Hlt.
  unfold Qdiv in *. change (/ 1000) with (1 # 1000) in *.
  repeat split; intro H.
  - rewrite Zle_Qle in H. change (inject_Z 0) with 0 in H.
    assert (A : inject_Z c < inject_Z 1) by (change (inject_Z 1) with 1; lra).
    rewrite <- Zlt_Qlt in A. lia.
  - rewrite Zlt_Qlt in H. change (inject_Z 0) with 0 in H.
    assert (A : inject_Z 0 < inject_Z c) by (change (inject_Z 0) with 0; lra).
    rewrite <- Zlt_Qlt in A. lia.
  - rewrite Zle_Qle in H. change (inject_Z 30000) with 30000 in H.
    assert (A : inject_Z c < inject_Z 31)
      by (change (inject_Z 31) with 31; lra).
    rewrite <- Zlt_Qlt in A. lia.
Qed.

Lemma sameMatch_refl l : sameMatch l l.
Proof. unfold sameMatch. repeat split; reflexivity. Qed.

Lemma sameMatch_trans l1 l2 l3 :
  sameMatch l1 l2 -> sameMatch l2 l3 -> sameMatch l1 l3.
Proof.
  unfold sameMatch.
  intros (A1 & A2 & A3 & A4 & A5 & A6 & A7 & A8 & A9 & A10)
         (B1 & B2 & B3 & B4 & B5 & B6 & B7 & B8 & B9 & B10).
  repeat split; congruence.
Qed.

Section Timer.

Variables Math_sin Math_cos : Q -> Q.

Lemma updateGame_split now rng0 l :
  updateGame Math_sin Math_cos now rng0 l =
  if negb (GameLobby.gameEnded l) then
    let l0 :=
      GameLobby.set_gameState
        (with_timeRemaining (Some (remainingSeconds now l))
           (GameLobby.gameState l)) l in
    if (remainingSeconds now l <=? 0)%Z
    then (let (l1, out) := finishGame l0 in (l1, rng0, out))
    else simulate Math_sin Math_cos now rng0 l0
  else simulate Math_sin Math_cos now rng0 l.
Proof.
  unfold updateGame, simulate, remainingSeconds.
  destruct (negb (GameLobby.gameEnded l)); [|reflexivity].
  destruct (_ <=? 0)%Z; reflexivity.
Qed.

Lemma simulate_sameMatch now rng0 l :
  sameMatch l (fst (fst (simulate Math_sin Math_cos now rng0 l))).
Proof.
  unfold simulate.
  destruct (updatePlayers Math_sin Math_cos now (GameLobby.players l))
    as [ps out1].
  set (l1 := GameLobby.set_players ps l).
  assert (K1 : sameMatch l l1) by (unfold sameMatch; repeat split; reflexivity).
  clearbody l1.
  destruct (random rng0) as [r1 rng1].
  set (c2 := if Qltb r1 0.01 then createObstacles now rng1 l1 else (l1, rng1)).
  assert (K2 : sameMatch l1 (fst c2)).
  { unfold c2. destruct (Qltb r1 0.01); [|apply sameMatch_refl].
    unfold createObstacles. destruct (pushObstacles _ _ _ _).
    unfold sameMatch. repeat split; reflexivity. }
  destruct c2 as [l2 rng2]. cbn [fst] in K2.
  destruct (random rng2) as [r2 rng3].
  set (c3 := if Qltb r2 0.005 then createBoostPads now rng3 l2 else (l2, rng3)).
  assert (K3 : sameMatch l2 (fst c3)).
  { unfold c3. destruct (Qltb r2 0.005); [|apply sameMatch_refl].
    unfold createBoostPads. destruct (pushBoostPads _ _ _ _).
    unfold sameMatch. repeat split; reflexivity. }
  destruct c3 as [l3 rng4]. cbn [fst] in K3.
  assert (K4 : sameMatch l3 (updateBoostPads (updateObstacles now l3))).
  { unfold updateBoostPads, updateObstacles.
    destruct (filterObstacles _ _ _).
    unfold sameMatch. repeat split; reflexivity. }
  set (l4 := updateBoostPads (updateObstacles now l3)) in *. clearbody l4.
  assert (K5 : sameMatch l4 (fst (checkCollisions now l4))).
  { unfold checkCollisions.
    destruct (checkPlayers _ _ _ _) as [[[ps' obs'] pads'] out'].
    unfold sameMatch. repeat split; reflexivity. }
  destruct (checkCollisions now l4) as [l5 out2]. cbn [fst] in *.
  eauto using sameMatch_trans.
Qed.

(** X16: a match of duration 30000 that has not ended is finished by the
    first [updateGame] whose clock reading is at least 30000 ms past the
    start: [gameEnded] is set, the loop is removed, every player is sent
    [gameFinished], the remaining time reads 0 and neither the players nor
    the road are touched.  Before that the match goes on, the tick changes
    nothing of the match but the players and the road, and the remaining
    time stored is at least 1 second, and at most 30 when the clock is not
    behind the start. *)
Theorem match_ends_after_duration (now : Z) (rng0 : Rng) (l : GameLobby.t) :
  GameLobby.gameEnded l = false ->
  GameLobby.gameDuration l = 30000%Z ->
  let r := updateGame Math_sin Math_cos now rng0 l in
  let l' := fst (fst r) in
  ((30000 <= now - GameLobby.gameStartTime l)%Z ->
   GameLobby.gameEnded l' = true /\
   GameLobby.gameLoop l' = false /\
   GameLobby.players l' = GameLobby.players l /\
   obstacles (GameLobby.gameState l') = obstacles (GameLobby.gameState l) /\
   boostPads (GameLobby.gameState l') = boostPads (GameLobby.gameState l) /\
   timeRemaining (GameLobby.gameState l') = Some 0%Z /\
   snd r = emit_to_all (dict_keys (GameLobby.players l)) gameFinished) /\
  ((now - GameLobby.gameStartTime l < 30000)%Z ->
   GameLobby.gameEnded l' = false /\
   GameLobby.gameStarted l' = GameLobby.gameStarted l /\
   GameLobby.gameLoop l' = GameLobby.gameLoop l /\
   GameLobby.gameStartTime l' = GameLobby.gameStartTime l /\
   timeRemaining (GameLobby.gameState l') = Some (remainingSeconds now l) /\
   (1 <= remainingSeconds now l)%Z /\
   ((0 <= now - GameLobby.gameStartTime l)%Z ->
    (remainingSeconds now l <= 30)%Z)).
Proof.
  intros Hend Hdur. cbv zeta.
  rewrite updateGame_split, Hend. cbn [negb].
  pose proof (ceiling_of_milliseconds
                (GameLobby.gameDuration l - (now - GameLobby.gameStartTime l)))
    as (C1 & C2 & C3).
  split; intro Ht.
  - assert (Hr : remainingSeconds now l = 0%Z)
      by (unfold remainingSeconds; lia).
    rewrite Hr. cbn [Z.leb Z.compare]. unfold finishGame. cbn [fst snd].
    lobby_fields.
    destruct (GameLobby.gameLoop l) eqn:Hloop; cbn [fst snd]; lobby_fields;
      repeat split; try reflexivity; exact Hloop.
  - assert (Hr : (1 <= remainingSeconds now l)%Z)
      by (unfold remainingSeconds; lia).
    destruct (remainingSeconds now l <=? 0)%Z eqn:E;
      [apply Z.leb_le in E; lia|].
    match goal with
    | |- context [simulate _ _ _ _ ?l0] =>
        pose proof (simulate_sameMatch now rng0 l0)
          as (_ & _ & S3 & S4 & _ & S6 & _ & S8 & S9 & _)
    end.
    revert S3 S4 S6 S8 S9. lobby_fields. intros S3 S4 S6 S8 S9.
    repeat split; try assumption; try congruence.
    intro H0. unfold remainingSeconds. lia.
Qed.

End Timer.

Lemma match_ends_after_duration_witness :
  GameLobby.gameEnded (lobbyOf twoSeats) = false /\
  GameLobby.gameDuration (lobbyOf twoSeats) = 30000%Z /\
  GameLobby.gameEnded
    (fst (fst (updateGame sin_poly cos_poly 30000 steady (lobbyOf twoSeats))))
    = true.
Proof.
  split; [vm_compute; reflexivity|]. split; [vm_compute; reflexivity|].
  assert (He : GameLobby.gameEnded (lobbyOf twoSeats) = false)
    by (vm_compute; reflexivity).
  assert (Hd : GameLobby.gameDuration (lobbyOf twoSeats) = 30000%Z)
    by (vm_compute; reflexivity).
  apply (proj1 (match_ends_after_duration sin_poly cos_poly 30000 steady
                  (lobbyOf twoSeats) He Hd)).
  vm_compute. discriminate.
Defined.

(** ** What is on the road *)

Lemma pushObstacles_shape now ps : forall rng obs,
  unitDraws rng -> Forall obstacleShape obs ->
  Forall obstacleShape (fst (pushObstacles now ps rng obs)) /\
  draws (snd (pushObstacles now ps rng obs)) = draws rng.
Proof.
  induction ps as [|p ps IH]; intros rng obs Hu Hobs; [split; auto|].
  cbn [pushObstacles]. unfold random. cbn [draws cursor].
  match goal with
  | |- context [pushObstacles now ps ?r ?o] =>
      destruct (IH r o) as [H1 H2]
  end.
  - exact Hu.
  - apply Forall_app. split; [exact Hobs|]. constructor; [|constructor].
    unfold obstacleShape.
    cbn [Obstacle.speed Obstacle.x Obstacle.width Obstacle.height].
    destruct (Hu (S (cursor rng))) as [A1 A2].
    destruct (Hu (S (S (cursor rng)))) as [B1 B2].
    repeat split; try reflexivity; lra.
  - split; [exact H1 | exact H2].
Qed.

Lemma pushBoostPads_shape now ps : forall rng pads,
  unitDraws rng -> Forall padShape pads ->
  Forall padShape (fst (pushBoostPads now ps rng pads)) /\
  draws (snd (pushBoostPads now ps rng pads)) = draws rng.
Proof.
  induction ps as [|p ps IH]; intros rng pads Hu Hpads; [split; auto|].
  cbn [pushBoostPads]. unfold random. cbn [draws cursor].
  match goal with
  | |- context [pushBoostPads now ps ?r ?o] =>
      destruct (IH r o) as [H1 H2]
  end.
  - exact Hu.
  - apply Forall_app. split; [exact Hpads|]. constructor; [|constructor].
    unfold padShape.
    cbn [BoostPad.speed BoostPad.x BoostPad.width BoostPad.height].
    destruct (Hu (S (cursor rng))) as [A1 A2].
    repeat split; try reflexivity; lra.
  - split; [exact H1 | exact H2].
Qed.

Lemma checkObstacles_keeps (P : Obstacle.t -> Prop) :
  (forall q o, P o -> P (snd (fst (checkObstacle q o)))) ->
  forall obs p, Forall P obs -> Forall P (snd (fst (checkObstacles p obs))).
Proof.
  intros HP. induction obs as [|o rest IH]; intros p Hall; [constructor|].
  inversion Hall as [|? ? Ho Hrest]; subst. cbn [checkObstacles].
  pose proof (HP p o Ho) as H1.
  destruct (checkObstacle p o) as [[p1 o1] out1]. cbn [fst snd] in H1.
  specialize (IH p1 Hrest).
  destruct (checkObstacles p1 rest) as [[p2 rest2] out2].
  cbn [fst snd] in *. constructor; assumption.
Qed.

Lemma checkBoostPads_keeps (P : BoostPad.t -> Prop) now :
  (forall q b, P b -> P (snd (checkBoostPad now q b))) ->
  forall pads p, Forall P pads -> Forall P (snd (checkBoostPads now p pads)).
Proof.
  intros HP. induction pads as [|b rest IH]; intros p Hall; [constructor|].
  inversion Hall as [|? ? Hb Hrest]; subst. cbn [checkBoostPads].
  pose proof (HP p b Hb) as H1.
  destruct (checkBoostPad now p b) as [p1 b1]. cbn [snd] in H1.
  specialize (IH p1 Hrest).
  destruct (checkBoostPads now p1 rest) as [p2 rest2].
  cbn [snd] in *. constructor; assumption.
Qed.

Lemma checkPlayers_keeps (P : Obstacle.t -> Prop) (R : BoostPad.t -> Prop)
    now :
  (forall q o, P o -> P (snd (fst (checkObstacle q o)))) ->
  (forall q b, R b -> R (snd (checkBoostPad now q b))) ->
  forall ps obs pads, Forall P obs -> Forall R pads ->
  Forall P (snd (fst (fst (checkPlayers now ps obs pads)))) /\
  Forall R (snd (fst (checkPlayers now ps obs pads))).
Proof.
  intros HP HR. induction ps as [|[k p] ps IH]; intros obs pads Ho Hp;
    [split; assumption|].
  cbn [checkPlayers].
  pose proof (checkObstacles_keeps P HP obs p Ho) as H1.
  destruct (checkObstacles p obs) as [[p1 obs1] out1]. cbn [fst snd] in H1.
  pose proof (checkBoostPads_keeps R now HR pads p1 Hp) as H2.
  destruct (checkBoostPads now p1 pads) as [p2 pads2]. cbn [snd] in H2.
  specialize (IH obs1 pads2 H1 H2).
  destruct (checkPlayers now ps obs1 pads2) as [[[ps' obs'] pads'] out'].
  exact IH.
Qed.

Lemma checkObstacle_placed q o :
  obstacleShape o /\ obstaclePlaced o ->
  obstacleShape (snd (fst (checkObstacle q o))) /\
  obstaclePlaced (snd (fst (checkObstacle q o))).
Proof.
  intros [Hs Hp].
  destruct (checkObstacle_cases q o) as [E | [E | [_ E]]]; rewrite E;
    cbn [fst snd]; split; try assumption.
  right. reflexivity.
Qed.

Lemma checkBoostPad_placed now q b :
  padShape b /\ BoostPad.y b <= 650 ->
  padShape (snd (checkBoostPad now q b)) /\
  BoostPad.y (snd (checkBoostPad now q b)) <= 650.
Proof.
  intro H. unfold checkBoostPad. destruct (_ && _); exact H.
Qed.

Section Road.

Variables Math_sin Math_cos : Q -> Q.

Lemma simulate_road now rng0 l :
  unitDraws rng0 ->
  Forall obstacleShape (obstacles (GameLobby.gameState l)) ->
  Forall padShape (boostPads (GameLobby.gameState l)) ->
  let l' := fst (fst (simulate Math_sin Math_cos now rng0 l)) in
  Forall (fun o => obstacleShape o /\ obstaclePlaced o)
    (obstacles (GameLobby.gameState l')) /\
  Forall (fun b => padShape b /\ BoostPad.y b <= 650)
    (boostPads (GameLobby.gameState l')).
Proof.
  intros Hu Ho Hp. cbv zeta. unfold simulate.
  destruct (updatePlayers Math_sin Math_cos now (GameLobby.players l))
    as [ps out1].
  set (l1 := GameLobby.set_players ps l).
  assert (O1 : Forall obstacleShape (obstacles (GameLobby.gameState l1)))
    by exact Ho.
  assert (P1 : Forall padShape (boostPads (GameLobby.gameState l1)))
    by exact Hp.
  clearbody l1.
  assert (U1 : unitDraws (snd (random rng0))) by exact Hu.
  destruct (random rng0) as [r1 rng1]. cbn [snd] in U1.
  set (c2 := if Qltb r1 0.01 then createObstacles now rng1 l1 else (l1, rng1)).
  assert (K2 : Forall obstacleShape (obstacles (GameLobby.gameState (fst c2)))
               /\ Forall padShape (boostPads (GameLobby.gameState (fst c2)))
               /\ unitDraws (snd c2)).
  { unfold c2. destruct (Qltb _ _); [|auto].
    unfold createObstacles.
    destruct (pushObstacles_shape now (dict_values (GameLobby.players l1))
                rng1 (obstacles (GameLobby.gameState l1)) U1 O1) as [A B].
    destruct (pushObstacles _ _ _ _) as [obs rng']. cbn [fst snd] in *.
    lobby_fields. split; [assumption | split; [assumption|]].
    intro k. rewrite B. apply U1. }
  destruct c2 as [l2 rng2]. cbn [fst snd] in K2.
  destruct K2 as (O2 & P2 & U2).
  assert (U3 : unitDraws (snd (random rng2))) by exact U2.
  destruct (random rng2) as [r2 rng3]. cbn [snd] in U3.
  set (c3 := if Qltb r2 0.005 then createBoostPads now rng3 l2 else (l2, rng3)).
  assert (K3 : Forall obstacleShape (obstacles (GameLobby.gameState (fst c3)))
               /\ Forall padShape (boostPads (GameLobby.gameState (fst c3)))).
  { unfold c3. destruct (Qltb _ _); [|auto].
    unfold createBoostPads.
    destruct (pushBoostPads_shape now (dict_values (GameLobby.players l2))
                rng3 (boostPads (GameLobby.gameState l2)) U3 P2) as [A B].
    destruct (pushBoostPads _ _ _ _) as [pads rng']. cbn [fst snd] in *.
    lobby_fields. split; assumption. }
  destruct c3 as [l3 rng4]. cbn [fst] in K3. destruct K3 as (O3 & P3).
  set (l4 := updateBoostPads (updateObstacles now l3)).
  assert (O4 : Forall (fun o => obstacleShape o /\ obstaclePlaced o)
                 (obstacles (GameLobby.gameState l4))).
  { assert (E : obstacles (GameLobby.gameState l4) =
                obstacles (GameLobby.gameState (updateObstacles now l3)))
      by reflexivity.
    rewrite E, updateObstacles_obstacles. apply Forall_forall.
    intros o Hin. apply filter_In in Hin. destruct Hin as [Hin Hon].
    apply in_map_iff in Hin. destruct Hin as (o0 & <- & Hin0).
    rewrite Forall_forall in O3. split; [exact (O3 o0 Hin0)|].
    left. apply Qle_bool_iff. exact Hon. }
  assert (P4 : Forall (fun b => padShape b /\ BoostPad.y b <= 650)
                 (boostPads (GameLobby.gameState l4))).
  { unfold l4, updateBoostPads, updateObstacles.
    destruct (filterObstacles _ _ _) as [ps' obs']. lobby_fields.
    apply Forall_forall.
    intros b Hin. apply filter_In in Hin. destruct Hin as [Hin Hon].
    apply in_map_iff in Hin. destruct Hin as (b0 & <- & Hin0).
    rewrite Forall_forall in P3. split; [exact (P3 b0 Hin0)|].
    apply Qle_bool_iff. exact Hon. }
  clearbody l4. unfold checkCollisions.
  destruct (checkPlayers_keeps _ _ now checkObstacle_placed
              (checkBoostPad_placed now) (GameLobby.players l4)
              (obstacles (GameLobby.gameState l4))
              (boostPads (GameLobby.gameState l4)) O4 P4) as [A B].
  destruct (checkPlayers _ _ _ _) as [[[ps' obs'] pads'] out'].
  cbn [fst snd] in *. lobby_fields. split; assumption.
Qed.

(** X17: when the draws are numbers of [0, 1) and the obstacles and pads on
    the road have the shape they are spawned with (obstacles 30 by 60 at
    [40 <= x < 360] with speed in [2, 5); pads 60 by 30 at [60 <= x < 340]
    with speed 2), [updateGame] leaves a road of that shape; and after a
    tick that does not end the match every obstacle is at [y <= 650] or
    parked at 700 by a collision, and every pad is at [y <= 650]. *)
Theorem road_keeps_its_shape (now : Z) (rng0 : Rng) (l : GameLobby.t) :
  unitDraws rng0 ->
  Forall obstacleShape (obstacles (GameLobby.gameState l)) ->
  Forall padShape (boostPads (GameLobby.gameState l)) ->
  let l' := fst (fst (updateGame Math_sin Math_cos now rng0 l)) in
  Forall obstacleShape (obstacles (GameLobby.gameState l')) /\
  Forall padShape (boostPads (GameLobby.gameState l')) /\
  (GameLobby.gameEnded l' = false ->
   Forall obstaclePlaced (obstacles (GameLobby.gameState l')) /\
   Forall (fun b => BoostPad.y b <= 650)
     (boostPads (GameLobby.gameState l'))).
Proof.
  intros Hu Ho Hp. cbv zeta. rewrite updateGame_split.
  assert (Hsim : forall l0,
    obstacles (GameLobby.gameState l0) = obstacles (GameLobby.gameState l) ->
    boostPads (GameLobby.gameState l0) = boostPads (GameLobby.gameState l) ->
    let l' := fst (fst (simulate Math_sin Math_cos now rng0 l0)) in
    Forall obstacleShape (obstacles (GameLobby.gameState l')) /\
    Forall padShape (boostPads (GameLobby.gameState l')) /\
    (GameLobby.gameEnded l' = false ->
     Forall obstaclePlaced (obstacles (GameLobby.gameState l')) /\
     Forall (fun b => BoostPad.y b <= 650)
       (boostPads (GameLobby.gameState l')))).
  { intros l0 E1 E2. cbv zeta.
    destruct (simulate_road now rng0 l0 Hu) as [A B];
      [now rewrite E1 | now rewrite E2 |].
    rewrite Forall_forall in A, B.
    repeat split; try intros _; apply Forall_forall; intros z Hz;
      try apply (A z Hz); apply (B z Hz). }
  destruct (negb (GameLobby.gameEnded l)); [|now apply Hsim].
  cbv zeta. destruct (_ <=? 0)%Z; [|now apply Hsim].
  unfold finishGame. cbn [fst snd]. lobby_fields.
  destruct (GameLobby.gameLoop _); cbn [fst]; lobby_fields;
    (split; [exact Ho|]; split; [exact Hp|]; discriminate).
Qed.

End Road.

Lemma road_keeps_its_shape_witness :
  unitDraws steady /\
  Forall obstacleShape (obstacles (GameLobby.gameState beforeCrash)) /\
  Forall padShape (boostPads (GameLobby.gameState beforeCrash)) /\
  Forall obstacleShape
    (obstacles
       (GameLobby.gameState
          (fst (fst (updateGame sin_poly cos_poly 16 steady beforeCrash))))).
Proof.
  assert (Hu : unitDraws steady) by (intro k; cbn; split; lra).
  assert (Ho : Forall obstacleShape
                 (obstacles (GameLobby.gameState beforeCrash))).
  { vm_compute. repeat constructor; try discriminate; reflexivity. }
  assert (Hp : Forall padShape (boostPads (GameLobby.gameState beforeCrash)))
    by (vm_compute; constructor).
  split; [exact Hu|]. split; [exact Ho|]. split; [exact Hp|].
  exact (proj1 (road_keeps_its_shape sin_poly cos_poly 16 steady beforeCrash
                  Hu Ho Hp)).
Defined.

(** ** The results of a match *)

Lemma insertByScore_perm p : forall sorted,
  Permutation (p :: sorted) (insertByScore p sorted).
Proof.
  induction sorted as [|q rest IH]; [apply Permutation_refl|].
  cbn [insertByScore]. destruct (Qle_bool (score q) (score p)).
  - apply Permutation_refl.
  - eapply Permutation_trans; [apply perm_swap|].
    apply perm_skip. exact IH.
Qed.

Lemma sortByScore_perm : forall ps, Permutation ps (sortByScore ps).
Proof.
  induction ps as [|p rest IH]; [constructor|]. cbn [sortByScore].
  eapply Permutation_trans; [apply perm_skip; exact IH|].
  apply insertByScore_perm.
Qed.

(** The first of the sorted players is the first player, in the order of
    [Object.values], whose score no other player exceeds. *)
Lemma sortByScore_head : forall ps,
  match hd_error (sortByScore ps) with
  | None => ps = []
  | Some w =>
      exists before after,
        ps = before ++ w :: after /\
        Forall (fun q => score q < score w) before /\
        Forall (fun q => score q <= score w) after
  end.
Proof.
  induction ps as [|p rest IH]; [reflexivity|]. cbn [sortByScore].
  destruct (sortByScore rest) as [|w sorted] eqn:E; cbn [hd_error] in IH.
  - subst rest. cbn [insertByScore hd_error].
    exists [], []. repeat split; constructor.
  - destruct IH as (before & after & -> & Hb & Ha).
    cbn [insertByScore].
    destruct (Qle_bool (score w) (score p)) eqn:Hle; cbn [hd_error].
    + apply Qle_bool_iff in Hle.
      exists [], (before ++ w :: after). repeat split; [constructor|].
      apply Forall_app. split.
      * eapply Forall_impl; [|exact Hb]. cbn. intros q Hq. lra.
      * constructor; [exact Hle|].
        eapply Forall_impl; [|exact Ha]. cbn. intros q Hq. lra.
    + assert (Hlt : score p < score w).
      { apply Qnot_le_lt. intro H. apply Qle_bool_iff in H. congruence. }
      exists (p :: before), after. repeat split; [|exact Ha].
      constructor; assumption.
Qed.

(** X18: the results [finishGame] computes list every player of the lobby
    once ([standings] is a permutation of the players' standings), and the
    winner is the first player, in the order of the players object, whose
    score no other player exceeds: every player before it has a strictly
    smaller score, every player after it a score at most as large, and no
    reported score is above the winner's.  A lobby without players has no
    winner. *)
Theorem winner_is_first_top_scorer (l : GameLobby.t) :
  Permutation (map standingOf (dict_values (GameLobby.players l)))
    (standings (gameResults l)) /\
  match winner (gameResults l) with
  | None => GameLobby.players l = []
  | Some s =>
      hd_error (standings (gameResults l)) = Some s /\
      exists before w after,
        s = standingOf w /\
        dict_values (GameLobby.players l) = before ++ w :: after /\
        Forall (fun q => score q < score w) before /\
        Forall (fun q => score q <= score w) after /\
        Forall (fun r => (standingScore r <= standingScore s)%Z)
          (standings (gameResults l))
  end.
Proof.
  unfold gameResults. cbn [winner standings]. split.
  { apply Permutation_map, sortByScore_perm. }
  pose proof (sortByScore_head (dict_values (GameLobby.players l))) as H.
  pose proof (sortByScore_perm (dict_values (GameLobby.players l))) as HP.
  destruct (sortByScore (dict_values (GameLobby.players l)))
    as [|w sorted] eqn:E; cbn [hd_error option_map] in *.
  - unfold dict_values in H. now apply map_eq_nil in H.
  - split; [reflexivity|].
    destruct H as (before & after & Hps & Hb & Ha).
    exists before, w, after. repeat split; try assumption.
    apply Forall_forall. intros r Hr.
    change (standingOf w :: map standingOf sorted)
      with (map standingOf (w :: sorted)) in Hr.
    apply in_map_iff in Hr. destruct Hr as (q & <- & Hq).
    apply (Permutation_in _ (Permutation_sym HP)) in Hq.
    rewrite Hps in Hq. cbn [standingOf standingScore].
    apply Qfloor_resp_le.
    apply in_app_or in Hq. destruct Hq as [Hq | [<- | Hq]].
    + rewrite Forall_forall in Hb. apply Qlt_le_weak, Hb, Hq.
    + apply Qle_refl.
    + rewrite Forall_forall in Ha. apply Ha, Hq.
Qed.

(** ** A full lobby sent back to the waiting room *)

Section DictKeys.

Context {V : Type}.
Implicit Types (m : Dict V) (k : string).

Lemma dict_delete_absent k m : ~ In k (dict_keys m) -> dict_delete k m = m.
Proof.
  induction m as [|[k' v'] m IH]; intro Hn; cbn [dict_delete]; [reflexivity|].
  destruct (String.eqb k k') eqn:E.
  - apply String.eqb_eq in E. subst. exfalso. apply Hn. now left.
  - f_equal. apply IH. intro H. apply Hn. now right.
Qed.

Lemma dict_keys_set_present k (v v0 : V) m :
  dict_get k m = Some v0 -> dict_keys (dict_set k v m) = dict_keys m.
Proof.
  induction m as [|[k' v'] m IH]; cbn [dict_get dict_set]; [discriminate|].
  destruct (String.eqb k k') eqn:E; intro H.
  - reflexivity.
  - cbn [dict_keys map fst]. f_equal. now apply IH.
Qed.

End DictKeys.

Lemma endGame_waiting l :
  waitingWith (dict_keys (GameLobby.players l)) (fst (endGame l)).
Proof.
  unfold endGame, waitingWith. cbn [fst]. lobby_fields.
  destruct (GameLobby.gameLoop l) eqn:E; lobby_fields;
    rewrite dict_keys_map; repeat split; try reflexivity; exact E.
Qed.

Lemma leave_other sid lobbyId l0 s k :
  lobbyId <> k ->
  dict_get k (lobbies (fst (leave sid lobbyId l0 s))) = dict_get k (lobbies s).
Proof.
  intro Hne. unfold leave.
  destruct (removePlayer sid (playerSockets s) l0) as [[[del socks] l1] out].
  destruct del; cbn [fst lobbies].
  - now apply dict_get_delete_other.
  - now apply dict_get_set_other.
Qed.

(** [removePlayer] for a socket that is not seated in a waiting lobby. *)
Lemma leave_outsider sid lobbyId keys l s :
  List.length keys = 2%nat ->
  waitingWith keys l -> ~ In sid keys ->
  exists l',
    dict_get lobbyId (lobbies (fst (leave sid lobbyId l s))) = Some l' /\
    waitingWith keys l'.
Proof.
  intros Hfull (Hk & Hs & He & Hg) Hout. unfold leave, removePlayer.
  rewrite (dict_delete_absent sid (GameLobby.players l))
    by (rewrite Hk; exact Hout).
  set (l1 := GameLobby.set_players (GameLobby.players l) l).
  assert (Hc : playerCount l1 = 2%nat).
  { unfold playerCount, l1. lobby_fields. now rewrite Hk. }
  assert (Hs1 : GameLobby.gameStarted l1 = false) by exact Hs.
  rewrite Hc, Hs1. cbn [Nat.eqb andb fst lobbies].
  rewrite dict_get_set_same. exists l1. split; [reflexivity|].
  unfold waitingWith, l1. lobby_fields. now repeat split.
Qed.

Section Stranded.

Variables Math_sin Math_cos : Q -> Q.
Variables (lobbyId : string) (keys : list string).
Hypothesis full : List.length keys = 2%nat.

Lemma waitsAt_handle (r : Request) (s : Server) :
  waitsAt lobbyId keys s -> keepsSeats lobbyId keys r ->
  waitsAt lobbyId keys (fst (handle Math_sin Math_cos r s)).
Proof.
  intros [Hok (l & Hl & Hw)] Hr.
  split; [exact (registryOk_run Math_sin Math_cos [r] s Hok)|].
  assert (Hsame : exists l', dict_get lobbyId (lobbies s) = Some l' /\
                             waitingWith keys l') by eauto.
  destruct r as [sid | now sid newId lobbyName playerName
                 | now sid to playerName | sid from | sid data_input
                 | now sid which | sid which | sid | now | now rng0 which];
    cbn [handle keepsSeats] in *.
  - exact Hsame.
  - rewrite on_createLobby_state. cbn [fst lobbies].
    rewrite dict_get_set_other by exact Hr. exact Hsame.
  - unfold on_joinLobby.
    destruct (dict_get to (lobbies s)) as [l0|] eqn:E; [|exact Hsame].
    destruct (String.eqb_spec to lobbyId) as [-> | Hne].
    + rewrite Hl in E. injection E as <-.
      rewrite addPlayer_full
        by (unfold playerCount; now rewrite (proj1 Hw)).
      cbn [fst lobbies]. rewrite dict_get_set_same. eauto.
    + destruct (addPlayer now sid playerName (playerSockets s) l0)
        as [[[ok socks] l1] out].
      destruct ok; cbn [fst lobbies];
        rewrite dict_get_set_other by exact Hne; exact Hsame.
  - unfold on_leaveLobby.
    destruct (dict_get from (lobbies s)) as [l0|] eqn:E; [|exact Hsame].
    destruct (String.eqb_spec from lobbyId) as [-> | Hne].
    + rewrite Hl in E. injection E as <-.
      destruct Hr as [Hr | Hr]; [now elim Hr|].
      now apply leave_outsider.
    + rewrite leave_other by exact Hne. exact Hsame.
  - unfold on_playerInput.
    destruct (dict_get sid (playerSockets s)) as [which|]; [|exact Hsame].
    destruct (dict_get which (lobbies s)) as [l0|] eqn:E; [|exact Hsame].
    destruct (dict_get sid (GameLobby.players l0)) as [p|] eqn:Ep;
      [|exact Hsame].
    cbn [fst lobbies].
    destruct (String.eqb_spec which lobbyId) as [-> | Hne].
    + rewrite Hl in E. injection E as <-.
      rewrite dict_get_set_same. eexists. split; [reflexivity|].
      destruct Hw as (Hk & Hs & He & Hg).
      unfold waitingWith. lobby_fields.
      rewrite (dict_keys_set_present sid _ p _ Ep). now repeat split.
    + rewrite dict_get_set_other by exact Hne. exact Hsame.
  - unfold on_restartGame.
    destruct (dict_get which (lobbies s)) as [l0|] eqn:E; [|exact Hsame].
    destruct (dict_get sid (GameLobby.players l0)) as [p|]; [|exact Hsame].
    destruct (String.eqb_spec which lobbyId) as [-> | Hne].
    + rewrite Hl in E. injection E as <-.
      destruct Hw as (Hk & Hs & He & Hg). rewrite He. exact Hsame.
    + destruct (GameLobby.gameEnded l0); [|exact Hsame].
      destruct (restartGame now l0) as [l1 out]. cbn [fst lobbies].
      rewrite dict_get_set_other by exact Hne. exact Hsame.
  - unfold on_backToLobbyFromResults.
    destruct (dict_get which (lobbies s)) as [l0|] eqn:E; [|exact Hsame].
    destruct (dict_get sid (GameLobby.players l0)) as [p|]; [|exact Hsame].
    pose proof (endGame_waiting l0) as Hend.
    destruct (endGame l0) as [l1 out]. cbn [fst lobbies] in *.
    destruct (String.eqb_spec which lobbyId) as [-> | Hne].
    + rewrite Hl in E. injection E as <-.
      rewrite dict_get_set_same. exists l1. split; [reflexivity|].
      now rewrite (proj1 Hw) in Hend.
    + rewrite dict_get_set_other by exact Hne. exact Hsame.
  - unfold on_disconnect.
    destruct (dict_get sid (playerSockets s)) as [which|]; [|exact Hsame].
    destruct (dict_get which (lobbies s)) as [l0|] eqn:E; [|exact Hsame].
    destruct (String.eqb_spec which lobbyId) as [-> | Hne].
    + rewrite Hl in E. injection E as <-. now apply leave_outsider.
    + rewrite leave_other by exact Hne. exact Hsame.
  - rewrite (cleanup_nothing_to_do now s Hok). exact Hsame.
  - unfold on_tick.
    destruct (dict_get which (lobbies s)) as [l0|] eqn:E; [|exact Hsame].
    destruct (String.eqb_spec which lobbyId) as [-> | Hne].
    + rewrite Hl in E. injection E as <-.
      destruct Hw as (Hk & Hs & He & Hg). rewrite Hg. eauto 6.
    + destruct (GameLobby.gameLoop l0); [|exact Hsame].
      destruct (tick Math_sin Math_cos now rng0 l0) as [[l1 r1] out].
      cbn [fst lobbies]. rewrite dict_get_set_other by exact Hne.
      exact Hsame.
Qed.

Lemma waitsAt_run (rs : list Request) : forall s,
  waitsAt lobbyId keys s -> Forall (keepsSeats lobbyId keys) rs ->
  waitsAt lobbyId keys (run Math_sin Math_cos rs s).
Proof.
  induction rs as [|r rs IH]; intros s Hs Hall; [exact Hs|].
  inversion Hall as [|? ? Hr Hrs]; subst. cbn [run].
  apply IH; [|exact Hrs]. now apply waitsAt_handle.
Qed.

End Stranded.

(** X19: once a player of a full lobby has sent [backToLobbyFromResults],
    the lobby waits with both players and no match, and it stays so
    whatever is requested afterwards, as long as neither of the two leaves
    or disconnects and no lobby is created under the same id: [restartGame]
    is ignored because [gameEnded] is false, [joinLobby] is refused because
    the lobby is full, and nothing else calls [startGame]. *)
Theorem full_lobby_stays_in_waiting_room (Math_sin Math_cos : Q -> Q)
    (s : Server) (sid lobbyId : string) (l : GameLobby.t)
    (rs : list Request) :
  registryOk s ->
  dict_get lobbyId (lobbies s) = Some l ->
  playerCount l = 2%nat ->
  dict_get sid (GameLobby.players l) <> None ->
  Forall (keepsSeats lobbyId (dict_keys (GameLobby.players l))) rs ->
  exists l',
    dict_get lobbyId
      (lobbies
         (run Math_sin Math_cos (BackToLobbyFromResults sid lobbyId :: rs) s))
      = Some l' /\
    dict_keys (GameLobby.players l') = dict_keys (GameLobby.players l) /\
    GameLobby.gameStarted l' = false /\
    GameLobby.gameEnded l' = false /\
    GameLobby.gameLoop l' = false.
Proof.
  intros Hok Hl Hfull Hsid Hrs.
  apply (waitsAt_run Math_sin Math_cos lobbyId _ Hfull rs); [|exact Hrs].
  split; [exact (registryOk_run Math_sin Math_cos
                   [BackToLobbyFromResults sid lobbyId] s Hok)|].
  cbn [run fst handle]. unfold on_backToLobbyFromResults. rewrite Hl.
  destruct (dict_get sid (GameLobby.players l)); [|now elim Hsid].
  pose proof (endGame_waiting l) as Hend.
  destruct (endGame l) as [l1 out]. cbn [fst lobbies] in *.
  rewrite dict_get_set_same. eauto.
Qed.

Lemma full_lobby_stays_in_waiting_room_witness :
  exists l',
    dict_get "L"
      (lobbies
         (run sin_poly cos_poly
            [BackToLobbyFromResults "s1" "L"; RestartGame 9 "s1" "L";
             JoinLobby 9 "s3" "L" "Cy"; Tick 16 steady "L"]
            twoSeats)) = Some l' /\
    dict_keys (GameLobby.players l') = ["s1"; "s2"]%string /\
    GameLobby.gameStarted l' = false /\
    GameLobby.gameEnded l' = false /\
    GameLobby.gameLoop l' = false.
Proof.
  assert (Hok : registryOk twoSeats).
  { vm_compute. repeat constructor. }
  assert (Hl : dict_get "L" (lobbies twoSeats) = Some (lobbyOf twoSeats))
    by (vm_compute; reflexivity).
  assert (Hfull : playerCount (lobbyOf twoSeats) = 2%nat)
    by (vm_compute; reflexivity).
  assert (Hsid : dict_get "s1" (GameLobby.players (lobbyOf twoSeats)) <> None)
    by (vm_compute; discriminate).
  assert (Hrs : Forall
                  (keepsSeats "L"
                     (dict_keys (GameLobby.players (lobbyOf twoSeats))))
                  [RestartGame 9 "s1" "L"; JoinLobby 9 "s3" "L" "Cy";
                   Tick 16 steady "L"])
    by (repeat constructor).
  exact (full_lobby_stays_in_waiting_room sin_poly cos_poly twoSeats "s1" "L"
           (lobbyOf twoSeats) _ Hok Hl Hfull Hsid Hrs).
Defined.

(** ** Who receives the messages of a tick *)

Section Addressing.

Variables Math_sin Math_cos : Q -> Q.

Lemma id_handleBoost p : id (handleBoost p) = id p.
Proof.
  unfold handleBoost. destruct (boosting p); [|reflexivity].
  destruct (boostTime (set_boostTime _ p) <=? 0)%Z; reflexivity.
Qed.

Lemma id_applySteering i p : id (applySteering i p) = id p.
Proof.
  unfold applySteering. destruct (left i); [|destruct (right i)]; reflexivity.
Qed.

Lemma id_applyComboTimer p : id (applyComboTimer p) = id p.
Proof.
  unfold applyComboTimer.
  destruct (0 <? comboTimer p)%Z; [|reflexivity]. simpl.
  destruct (comboTimer p - 1 =? 0)%Z; reflexivity.
Qed.

Lemma id_applyStreakDecay now p : id (applyStreakDecay now p) = id p.
Proof.
  unfold applyStreakDecay.
  destruct (3000 <? now - lastObstacleTime p)%Z; [|reflexivity].
  destruct (0 <? streak p)%Z; reflexivity.
Qed.

Lemma id_applySpeedScore p :
  id (fst (applySpeedScore p)) = id p /\
  Forall (fun e => target e = Some (id p)) (snd (applySpeedScore p)).
Proof.
  unfold applySpeedScore.
  match goal with |- context [if ?c then _ else _] => destruct c end;
    cbn [fst snd]; split; try reflexivity; repeat constructor.
Qed.

Lemma id_updatePlayer now p :
  id (fst (updatePlayer Math_sin Math_cos now p)) = id p /\
  Forall (fun e => target e = Some (id p))
    (snd (updatePlayer Math_sin Math_cos now p)).
Proof.
  unfold updatePlayer. destruct (input p) as [i|]; [|split; constructor].
  pose proof (id_applySpeedScore
                (applyMovement Math_sin Math_cos
                   (applySteering i (applySpeed i (handleBoost p))))) as H.
  destruct (applySpeedScore _) as [q out]. cbn [fst snd] in *.
  assert (E : id (applyMovement Math_sin Math_cos
                    (applySteering i (applySpeed i (handleBoost p)))) = id p).
  { change (id (applySteering i (applySpeed i (handleBoost p))) = id p).
    rewrite id_applySteering.
    change (id (handleBoost p) = id p). apply id_handleBoost. }
  rewrite E in H. destruct H as [H1 H2].
  rewrite id_applyStreakDecay, id_applyComboTimer. split; assumption.
Qed.

Lemma id_awardSurvival now p : id (awardSurvival now p) = id p.
Proof. reflexivity. Qed.

Lemma id_awardNearMiss p :
  id (fst (awardNearMiss p)) = id p /\
  Forall (fun e => target e = Some (id p)) (snd (awardNearMiss p)).
Proof.
  unfold awardNearMiss.
  match goal with |- context [if ?c then _ else _] => destruct c end;
    cbn [fst snd]; split; try reflexivity; repeat constructor.
Qed.

Lemma id_checkObstacle p o :
  id (fst (fst (checkObstacle p o))) = id p /\
  Forall (fun e => target e = Some (id p)) (snd (checkObstacle p o)).
Proof.
  unfold checkObstacle.
  destruct (_ =? _)%Z; [|split; constructor].
  destruct (overlaps _ _ _ _ _); [split; constructor|].
  destruct (nearMissRange p o); [|split; constructor].
  destruct (negb _); [|split; constructor].
  pose proof (id_awardNearMiss p) as H.
  destruct (awardNearMiss p) as [q out]. exact H.
Qed.

Lemma id_checkObstacles obs : forall p,
  id (fst (fst (checkObstacles p obs))) = id p /\
  Forall (fun e => target e = Some (id p)) (snd (checkObstacles p obs)).
Proof.
  induction obs as [|o rest IH]; intro p; [split; constructor|].
  cbn [checkObstacles].
  pose proof (id_checkObstacle p o) as H1.
  destruct (checkObstacle p o) as [[p1 o1] out1]. cbn [fst snd] in H1.
  specialize (IH p1).
  destruct (checkObstacles p1 rest) as [[p2 rest2] out2].
  cbn [fst snd] in *. destruct H1 as [E1 F1]. destruct IH as [E2 F2].
  rewrite E1 in *. split; [exact E2|].
  apply Forall_app. split; assumption.
Qed.

Lemma id_checkBoostPads now pads : forall p,
  id (fst (checkBoostPads now p pads)) = id p.
Proof.
  induction pads as [|b rest IH]; intro p; [reflexivity|].
  cbn [checkBoostPads].
  assert (H1 : id (fst (checkBoostPad now p b)) = id p).
  { unfold checkBoostPad. destruct (_ && _); reflexivity. }
  destruct (checkBoostPad now p b) as [p1 b1]. cbn [fst] in H1.
  specialize (IH p1). destruct (checkBoostPads now p1 rest) as [p2 rest2].
  cbn [fst] in *. congruence.
Qed.

(** The messages collected over a [Dict] of players go to their ids. *)
Lemma to_seat_ids (ps : Dict Player) k p out :
  Forall (fun e => target e = Some (id p)) out ->
  Forall (addressedTo (map snd (seatIds ((k, p) :: ps)))) out.
Proof.
  intro H. eapply Forall_impl; [|exact H]. cbn beta.
  intros e He. exists (id p). split; [exact He | now left].
Qed.

Lemma to_more_seat_ids (ps : Dict Player) kp out :
  Forall (addressedTo (map snd (seatIds ps))) out ->
  Forall (addressedTo (map snd (seatIds (kp :: ps)))) out.
Proof.
  intro H. eapply Forall_impl; [|exact H]. cbn beta.
  intros e (sid & He & Hin). exists sid. split; [exact He | now right].
Qed.

Lemma seatIds_updatePlayers now ps :
  seatIds (fst (updatePlayers Math_sin Math_cos now ps)) = seatIds ps /\
  Forall (addressedTo (map snd (seatIds ps)))
    (snd (updatePlayers Math_sin Math_cos now ps)).
Proof.
  induction ps as [|[k p] rest IH]; [split; constructor|].
  cbn [updatePlayers].
  pose proof (id_updatePlayer now p) as H1.
  destruct (updatePlayer Math_sin Math_cos now p) as [p1 out1].
  destruct (updatePlayers Math_sin Math_cos now rest) as [rest1 out2].
  cbn [fst snd] in *. destruct H1 as [E1 F1]. destruct IH as [E2 F2].
  split.
  - cbn [seatIds map fst snd]. fold (seatIds rest1) (seatIds rest).
    now rewrite E1, E2.
  - apply Forall_app. split.
    + now apply to_seat_ids.
    + now apply to_more_seat_ids.
Qed.

Lemma seatIds_update_first f g (ps : Dict Player) :
  (forall p, id (g p) = id p) ->
  seatIds (update_first f g ps) = seatIds ps.
Proof.
  intro Hg. induction ps as [|[k p] rest IH]; [reflexivity|].
  cbn [update_first]. destruct (f p); cbn [seatIds map fst snd].
  - now rewrite Hg.
  - fold (seatIds (update_first f g rest)) (seatIds rest). now rewrite IH.
Qed.

Lemma seatIds_filterObstacles now obs : forall ps,
  seatIds (fst (filterObstacles now ps obs)) = seatIds ps.
Proof.
  induction obs as [|o rest IH]; intro ps; [reflexivity|].
  cbn [filterObstacles]. destruct (Qgtb _ _).
  - rewrite IH. apply seatIds_update_first. apply id_awardSurvival.
  - specialize (IH ps). destruct (filterObstacles now ps rest) as [ps1 r1].
    exact IH.
Qed.

Lemma seatIds_checkPlayers now ps : forall obs pads,
  seatIds (fst (fst (fst (checkPlayers now ps obs pads)))) = seatIds ps /\
  Forall (addressedTo (map snd (seatIds ps)))
    (snd (checkPlayers now ps obs pads)).
Proof.
  induction ps as [|[k p] rest IH]; intros obs pads; [split; constructor|].
  cbn [checkPlayers].
  pose proof (id_checkObstacles obs p) as H1.
  destruct (checkObstacles p obs) as [[p1 obs1] out1]. cbn [fst snd] in H1.
  pose proof (id_checkBoostPads now pads p1) as H2.
  destruct (checkBoostPads now p1 pads) as [p2 pads2]. cbn [fst] in H2.
  specialize (IH obs1 pads2).
  destruct (checkPlayers now rest obs1 pads2) as [[[rest' obs'] pads'] out'].
  cbn [fst snd] in *. destruct H1 as [E1 F1]. destruct IH as [E2 F2].
  split.
  - cbn [seatIds map fst snd]. fold (seatIds rest') (seatIds rest).
    rewrite E2. f_equal. f_equal. congruence.
  - apply Forall_app. split.
    + now apply to_seat_ids.
    + now apply to_more_seat_ids.
Qed.

Lemma simulate_seatIds now rng0 l :
  seatIds (GameLobby.players
             (fst (fst (simulate Math_sin Math_cos now rng0 l))))
    = seatIds (GameLobby.players l) /\
  Forall (addressedTo (map snd (seatIds (GameLobby.players l))))
    (snd (simulate Math_sin Math_cos now rng0 l)).
Proof.
  unfold simulate.
  pose proof (seatIds_updatePlayers now (GameLobby.players l)) as H1.
  destruct (updatePlayers Math_sin Math_cos now (GameLobby.players l))
    as [ps out1]. cbn [fst snd] in H1. destruct H1 as [E1 F1].
  set (l1 := GameLobby.set_players ps l).
  assert (K1 : seatIds (GameLobby.players l1) = seatIds (GameLobby.players l))
    by exact E1.
  clearbody l1.
  destruct (random rng0) as [r1 rng1].
  set (c2 := if Qltb r1 0.01 then createObstacles now rng1 l1 else (l1, rng1)).
  assert (K2 : GameLobby.players (fst c2) = GameLobby.players l1).
  { unfold c2. destruct (Qltb r1 0.01); [|reflexivity].
    unfold createObstacles. destruct (pushObstacles _ _ _ _). reflexivity. }
  destruct c2 as [l2 rng2]. cbn [fst] in K2.
  destruct (random rng2) as [r2 rng3].
  set (c3 := if Qltb r2 0.005 then createBoostPads now rng3 l2 else (l2, rng3)).
  assert (K3 : GameLobby.players (fst c3) = GameLobby.players l2).
  { unfold c3. destruct (Qltb r2 0.005); [|reflexivity].
    unfold createBoostPads. destruct (pushBoostPads _ _ _ _). reflexivity. }
  destruct c3 as [l3 rng4]. cbn [fst] in K3.
  assert (K4 : seatIds (GameLobby.players
                          (updateBoostPads (updateObstacles now l3)))
               = seatIds (GameLobby.players l3)).
  { unfold updateBoostPads, updateObstacles.
    pose proof (seatIds_filterObstacles now
                  (obstacles (GameLobby.gameState l3))
                  (GameLobby.players l3)) as H.
    destruct (filterObstacles _ _ _) as [ps' obs']. exact H. }
  set (l4 := updateBoostPads (updateObstacles now l3)) in *. clearbody l4.
  unfold checkCollisions.
  pose proof (seatIds_checkPlayers now (GameLobby.players l4)
                (obstacles (GameLobby.gameState l4))
                (boostPads (GameLobby.gameState l4))) as H5.
  destruct (checkPlayers _ _ _ _) as [[[ps' obs'] pads'] out'].
  cbn [fst snd] in *. destruct H5 as [E5 F5]. lobby_fields.
  assert (E : seatIds (GameLobby.players l4) = seatIds (GameLobby.players l))
    by congruence.
  split; [congruence|].
  apply Forall_app. split; [exact F1|]. now rewrite <- E.
Qed.

Lemma keys_seatIds (ps : Dict Player) : dict_keys ps = map fst (seatIds ps).
Proof.
  unfold dict_keys, seatIds. rewrite map_map. reflexivity.
Qed.

Lemma keyed_ids (ps : Dict Player) :
  Forall (fun kp => id (snd kp) = fst kp) ps ->
  map snd (seatIds ps) = dict_keys ps.
Proof.
  induction 1 as [|[k p] rest Hk _ IH]; [reflexivity|].
  cbn [seatIds dict_keys map fst snd] in *.
  fold (seatIds rest) (dict_keys rest). now rewrite Hk, IH.
Qed.

Lemma keyed_by_seatIds (ps ps' : Dict Player) :
  seatIds ps' = seatIds ps ->
  Forall (fun kp => id (snd kp) = fst kp) ps ->
  Forall (fun kp => id (snd kp) = fst kp) ps'.
Proof.
  revert ps. induction ps' as [|[k' p'] rest' IH]; intros ps E H;
    [constructor|].
  destruct ps as [|[k p] rest]; [discriminate|].
  cbn [seatIds map fst snd] in E. injection E as Ek Ei Er.
  inversion H as [|? ? Hk Hrest]; subst. cbn [fst snd] in *.
  constructor; [cbn [fst snd]; congruence|].
  exact (IH rest Er Hrest).
Qed.

Lemma updateGame_seatIds now rng0 l :
  keyed l ->
  seatIds (GameLobby.players
             (fst (fst (updateGame Math_sin Math_cos now rng0 l))))
    = seatIds (GameLobby.players l) /\
  Forall (addressedTo (dict_keys (GameLobby.players l)))
    (snd (updateGame Math_sin Math_cos now rng0 l)).
Proof.
  intro Hk. rewrite updateGame_split.
  assert (Hsim : forall l0,
    GameLobby.players l0 = GameLobby.players l ->
    seatIds (GameLobby.players
               (fst (fst (simulate Math_sin Math_cos now rng0 l0))))
      = seatIds (GameLobby.players l) /\
    Forall (addressedTo (dict_keys (GameLobby.players l)))
      (snd (simulate Math_sin Math_cos now rng0 l0))).
  { intros l0 E. destruct (simulate_seatIds now rng0 l0) as [A B].
    rewrite E in A, B. rewrite (keyed_ids _ Hk) in B. split; assumption. }
  assert (Hfin : forall l0,
    GameLobby.players l0 = GameLobby.players l ->
    seatIds (GameLobby.players (fst (finishGame l0)))
      = seatIds (GameLobby.players l) /\
    Forall (addressedTo (dict_keys (GameLobby.players l)))
      (snd (finishGame l0))).
  { intros l0 E. unfold finishGame. cbn [fst snd]. lobby_fields.
    destruct (GameLobby.gameLoop l0); lobby_fields; rewrite E;
      (split; [reflexivity|]); apply Forall_forall; intros e He;
      unfold emit_to_all in He; apply in_map_iff in He;
      destruct He as (sid & <- & Hin); exists sid; split;
      try reflexivity; exact Hin. }
  destruct (negb (GameLobby.gameEnded l)); [|now apply Hsim].
  cbv zeta. destruct (_ <=? 0)%Z; [|now apply Hsim].
  pose proof (Hfin (GameLobby.set_gameState
                      (with_timeRemaining
                         (Some (remainingSeconds now l))
                         (GameLobby.gameState l)) l) eq_refl) as H.
  unfold remainingSeconds in H.
  destruct (finishGame _) as [l1 out]. exact H.
Qed.

Lemma keyed_updateGame now rng0 l :
  keyed l -> keyed (fst (fst (updateGame Math_sin Math_cos now rng0 l))).
Proof.
  intro Hk. unfold keyed.
  exact (keyed_by_seatIds _ _ (proj1 (updateGame_seatIds now rng0 l Hk)) Hk).
Qed.

Lemma keyed_dict_map (f : Player -> Player) (ps : Dict Player) :
  (forall p, id (f p) = id p) ->
  Forall (fun kp => id (snd kp) = fst kp) ps ->
  Forall (fun kp => id (snd kp) = fst kp) (dict_map f ps).
Proof.
  intros Hf H. unfold dict_map. apply Forall_map.
  eapply Forall_impl; [|exact H]. cbn. intros [k p] E. cbn in *.
  now rewrite Hf.
Qed.

Lemma keyed_dict_set sid (p : Player) (ps : Dict Player) :
  id p = sid ->
  Forall (fun kp => id (snd kp) = fst kp) ps ->
  Forall (fun kp => id (snd kp) = fst kp) (dict_set sid p ps).
Proof.
  intros Hp. induction 1 as [|[k q] rest Hk Hrest IH]; cbn [dict_set].
  - constructor; [exact Hp | constructor].
  - destruct (String.eqb sid k) eqn:E.
    + apply String.eqb_eq in E. subst k.
      constructor; [exact Hp | assumption].
    + constructor; assumption.
Qed.

Lemma keyed_dict_delete sid (ps : Dict Player) :
  Forall (fun kp => id (snd kp) = fst kp) ps ->
  Forall (fun kp => id (snd kp) = fst kp) (dict_delete sid ps).
Proof.
  intro H. apply Forall_forall. intros kp Hin.
  rewrite Forall_forall in H. apply H. eapply in_dict_delete; eauto.
Qed.

Lemma keyed_endGame l : keyed l -> keyed (fst (endGame l)).
Proof.
  intro Hk. unfold keyed, endGame. cbn [fst]. lobby_fields.
  destruct (GameLobby.gameLoop l); lobby_fields;
    apply keyed_dict_map; try exact Hk; reflexivity.
Qed.

Lemma keyed_addPlayer now sid playerName socks l :
  keyed l -> keyed (snd (fst (addPlayer now sid playerName socks l))).
Proof.
  intro Hk. unfold addPlayer.
  destruct (2 <=? playerCount l)%nat; [exact Hk|].
  set (l1 := GameLobby.set_players _ l).
  assert (H1 : keyed l1).
  { unfold keyed, l1. lobby_fields. apply keyed_dict_set; [reflexivity|].
    exact Hk. }
  destruct (playerCount l1 =? 2)%nat; [|exact H1].
  unfold startGame. cbn [fst snd]. exact H1.
Qed.

Lemma keyed_run (rs : list Request) (s : Server) :
  registryHolds keyed s ->
  registryHolds keyed (run Math_sin Math_cos rs s).
Proof.
  apply invariant_run.
  - intros. unfold newGameLobby.
    match goal with
    | |- context [addPlayer ?a ?b ?c ?d ?e] =>
        assert (Hadd : keyed (snd (fst (addPlayer a b c d e))))
          by (apply keyed_addPlayer; constructor);
        destruct (addPlayer a b c d e) as [[[ok socks'] l'] out]
    end.
    exact Hadd.
  - intros. now apply keyed_addPlayer.
  - intros sid socks l Hl _. unfold removePlayer.
    set (l1 := GameLobby.set_players _ l).
    assert (H1 : keyed l1).
    { unfold keyed, l1. lobby_fields. now apply keyed_dict_delete. }
    destruct (playerCount l1 =? 0)%nat; [exact H1|].
    destruct (GameLobby.gameStarted l1 && _); [|exact H1].
    pose proof (keyed_endGame l1 H1) as He.
    destruct (endGame l1) as [l2 out]. exact He.
  - intros sid data_input p l Hl Hp. unfold keyed. lobby_fields.
    apply keyed_dict_set; [|exact Hl].
    unfold keyed in Hl. rewrite Forall_forall in Hl.
    exact (Hl (sid, p) (dict_get_in sid p _ Hp)).
  - intros now l Hl. unfold restartGame, startGame. cbn [fst].
    unfold keyed. lobby_fields. apply keyed_dict_map; [reflexivity | exact Hl].
  - intros l Hl. now apply keyed_endGame.
  - intros now rng0 l Hl. now apply keyed_updateGame.
Qed.

(** X20: in every lobby of a server that has handled any sequence of
    requests, each player object is stored under its own socket id, and
    every message a tick of that lobby sends (score events, [gameFinished],
    the [gameState] broadcast) is addressed to one of the lobby's own
    players: no tick sends to another lobby or to every connection. *)
Theorem tick_messages_stay_in_lobby (rs : list Request) (now : Z)
    (rng0 : Rng) (k : string) (l : GameLobby.t) :
  In (k, l) (lobbies (run Math_sin Math_cos rs emptyServer)) ->
  Forall (fun kp => id (snd kp) = fst kp) (GameLobby.players l) /\
  Forall (addressedTo (dict_keys (GameLobby.players l)))
    (snd (tick Math_sin Math_cos now rng0 l)).
Proof.
  intro Hin.
  assert (Hk : keyed l).
  { pose proof (keyed_run rs emptyServer (Forall_nil _)) as H.
    unfold registryHolds in H. rewrite Forall_forall in H.
    exact (H (k, l) Hin). }
  split; [exact Hk|]. unfold tick.
  destruct (updateGame_seatIds now rng0 l Hk) as [E F].
  destruct (updateGame Math_sin Math_cos now rng0 l) as [[l1 rng1] out].
  cbn [fst snd] in *. apply Forall_app. split; [exact F|].
  unfold broadcastGameState, emit_to_all.
  rewrite (keys_seatIds (GameLobby.players l1)), E, <- keys_seatIds.
  apply Forall_forall. intros e He. apply in_map_iff in He.
  destruct He as (sid & <- & Hs). exists sid. now split.
Qed.

End Addressing.

Lemma tick_messages_stay_in_lobby_witness :
  In ("L"%string, lobbyOf twoSeats)
    (lobbies (run sin_poly cos_poly openingMoves emptyServer)) /\
  Forall (addressedTo ["s1"; "s2"]%string)
    (snd (tick sin_poly cos_poly 16 steady (lobbyOf twoSeats))).
Proof.
  assert (Hin : In ("L"%string, lobbyOf twoSeats)
                  (lobbies (run sin_poly cos_poly openingMoves emptyServer)))
    by (left; vm_compute; reflexivity).
  split; [exact Hin|].
  exact (proj2 (tick_messages_stay_in_lobby sin_poly cos_poly openingMoves
                  16 steady "L" (lobbyOf twoSeats) Hin)).
Defined.

(** * Collisions and the sweep over whole ticks *)

(** ** The steps of a tick *)

Lemma stampTime_fields now l :
  GameLobby.players (stampTime now l) = GameLobby.players l /\
  obstacles (GameLobby.gameState (stampTime now l)) =
    obstacles (GameLobby.gameState l) /\
  boostPads (GameLobby.gameState (stampTime now l)) =
    boostPads (GameLobby.gameState l) /\
  GameLobby.gameEnded (stampTime now l) = GameLobby.gameEnded l /\
  GameLobby.gameStartTime (stampTime now l) = GameLobby.gameStartTime l /\
  GameLobby.gameDuration (stampTime now l) = GameLobby.gameDuration l.
Proof.
  unfold stampTime. destruct (GameLobby.gameEnded l) eqn:E;
    repeat split; try reflexivity; exact E.
Qed.

Section Steps.

Variables Math_sin Math_cos : Q -> Q.

Lemma simulate_steps now rng0 l :
  simulate Math_sin Math_cos now rng0 l =
  let '(m, rng1, out1) := beforeCollisions Math_sin Math_cos now rng0 l in
  let (l2, out2) := checkCollisions now m in
  (l2, rng1, out1 ++ out2).
Proof.
  unfold simulate, beforeCollisions, movePlayers, spawn.
  destruct (updatePlayers Math_sin Math_cos now (GameLobby.players l))
    as [ps out1].
  destruct (random rng0) as [r1 rng1].
  destruct (Qltb r1 0.01).
  - destruct (createObstacles now rng1 (GameLobby.set_players ps l))
      as [l2 rng2].
    destruct (random rng2) as [r2 rng3].
    destruct (Qltb r2 0.005); [|reflexivity].
    destruct (createBoostPads now rng3 l2) as [l3 rng4]. reflexivity.
  - destruct (random rng1) as [r2 rng3].
    destruct (Qltb r2 0.005); [|reflexivity].
    destruct (createBoostPads now rng3 (GameLobby.set_players ps l))
      as [l3 rng4]. reflexivity.
Qed.

Lemma running_remaining now l :
  running now l -> (remainingSeconds now l <=? 0)%Z = false.
Proof.
  intros [_ Hlt]. unfold remainingSeconds. apply Z.leb_gt.
  destruct (ceiling_of_milliseconds
              (GameLobby.gameDuration l - (now - GameLobby.gameStartTime l)))
    as (_ & Hpos & _).
  specialize (Hpos ltac:(lia)). lia.
Qed.

(** While the match is running a tick is the steps above, the collision
    pass and the broadcast. *)
Lemma running_tick now rng0 l :
  running now l ->
  tick Math_sin Math_cos now rng0 l =
  let '(m, rng1, out1) :=
    beforeCollisions Math_sin Math_cos now rng0 (stampTime now l) in
  let (l2, out2) := checkCollisions now m in
  (l2, rng1, (out1 ++ out2) ++ broadcastGameState l2).
Proof.
  intro Hrun. unfold tick. rewrite updateGame_split.
  rewrite (running_remaining now l Hrun).
  destruct Hrun as [He _]. unfold stampTime. rewrite He. cbn [negb].
  cbv zeta. rewrite simulate_steps.
  destruct (beforeCollisions _ _ _ _ _) as [[m rng1] out1].
  destruct (checkCollisions now m) as [l2 out2]. reflexivity.
Qed.

Lemma running_tick_lobby now rng0 l :
  running now l ->
  fst (fst (tick Math_sin Math_cos now rng0 l)) =
  fst (checkCollisions now (atCollisionPass Math_sin Math_cos now rng0 l)).
Proof.
  intro Hrun. rewrite (running_tick now rng0 l Hrun). unfold atCollisionPass.
  destruct (beforeCollisions _ _ _ _ _) as [[m rng1] out1]. cbn [fst].
  destruct (checkCollisions now m) as [l2 out2]. reflexivity.
Qed.

End Steps.

(** ** The collision pass, seat by seat *)

Lemma body_collide p : body (collide p) = body p.
Proof. reflexivity. Qed.

Lemma body_awardNearMiss p : body (fst (awardNearMiss p)) = body p.
Proof.
  unfold awardNearMiss.
  match goal with |- context [if ?c then _ else _] => destruct c end;
    reflexivity.
Qed.

Lemma body_awardSurvival now p : body (awardSurvival now p) = body p.
Proof. reflexivity. Qed.

Lemma body_collectBoost now p : body (collectBoost now p) = body p.
Proof. reflexivity. Qed.

Lemma body_playerNum p q : body p = body q -> playerNum p = playerNum q.
Proof. unfold body. intro H. now injection H. Qed.

Lemma overlaps_body p q bx by_ bw bh :
  body p = body q -> overlaps p bx by_ bw bh = overlaps q bx by_ bw bh.
Proof.
  unfold body. intro H. injection H as Hn Hx Hy Hw Hh.
  unfold overlaps. now rewrite Hx, Hy, Hw, Hh.
Qed.

Lemma meets_body p q o : body p = body q -> meets p o = meets q o.
Proof.
  intro H. unfold meets. rewrite (overlaps_body p q _ _ _ _ H).
  unfold body in H. injection H as Hn Hx Hy Hw Hh.
  unfold nearMissRange. now rewrite Hn, Hx, Hy, Hw, Hh.
Qed.

Lemma collects_body p q b : body p = body q -> collects p b = collects q b.
Proof.
  intro H. unfold collects. rewrite (overlaps_body p q _ _ _ _ H).
  now rewrite (body_playerNum p q H).
Qed.

Lemma checkObstacle_misses p o :
  meets p o = false -> checkObstacle p o = (p, o, []).
Proof.
  unfold meets, checkObstacle.
  destruct (Obstacle.playerNum o =? playerNum p)%Z; [|reflexivity].
  cbn [andb]. intro H. apply orb_false_iff in H. destruct H as [H1 H2].
  rewrite H1. destruct (nearMissRange p o); [|reflexivity].
  cbn [andb] in H2. rewrite H2. reflexivity.
Qed.

Lemma body_checkObstacle p o : body (fst (fst (checkObstacle p o))) = body p.
Proof.
  destruct (checkObstacle_cases p o) as [E | [E | [_ E]]]; rewrite E;
    cbn [fst]; [reflexivity | reflexivity | apply body_awardNearMiss].
Qed.

Lemma seat_checkObstacle p o :
  Obstacle.playerNum (snd (fst (checkObstacle p o))) = Obstacle.playerNum o.
Proof.
  destruct (checkObstacle_cases p o) as [E | [E | [_ E]]]; rewrite E;
    reflexivity.
Qed.

Lemma checkObstacle_other p o :
  Obstacle.playerNum o <> playerNum p ->
  checkObstacle p o = (p, o, []).
Proof.
  intro Hne. unfold checkObstacle.
  destruct (Obstacle.playerNum o =? playerNum p)%Z eqn:E; [|reflexivity].
  apply Z.eqb_eq in E. contradiction.
Qed.

Lemma checkObstacles_app p a : forall b,
  checkObstacles p (a ++ b) =
  let '(p1, a', out1) := checkObstacles p a in
  let '(p2, b', out2) := checkObstacles p1 b in
  (p2, a' ++ b', out1 ++ out2).
Proof.
  revert p. induction a as [|o a IH]; intros p b; cbn [app checkObstacles].
  - destruct (checkObstacles p b) as [[p2 b'] out2]. reflexivity.
  - destruct (checkObstacle p o) as [[p1 o1] out1].
    rewrite IH.
    destruct (checkObstacles p1 a) as [[p2 a'] out2].
    destruct (checkObstacles p2 b) as [[p3 b'] out3].
    cbn [app]. now rewrite app_assoc.
Qed.

Lemma checkObstacles_misses p obs :
  (forall o, In o obs -> meets p o = false) ->
  checkObstacles p obs = (p, obs, []).
Proof.
  induction obs as [|o rest IH]; intro H; [reflexivity|].
  cbn [checkObstacles].
  rewrite (checkObstacle_misses p o (H o (or_introl eq_refl))).
  rewrite IH by (intros o2 Hin; apply H; now right). reflexivity.
Qed.

Lemma body_checkObstacles obs : forall p,
  body (fst (fst (checkObstacles p obs))) = body p.
Proof.
  induction obs as [|o rest IH]; intro p; [reflexivity|].
  cbn [checkObstacles].
  pose proof (body_checkObstacle p o) as H1.
  destruct (checkObstacle p o) as [[p1 o1] out1]. cbn [fst] in H1.
  specialize (IH p1).
  destruct (checkObstacles p1 rest) as [[p2 rest2] out2]. cbn [fst] in *.
  congruence.
Qed.

Lemma checkObstacles_other s obs : forall p,
  playerNum p <> s ->
  sameSeatObstacles s obs (snd (fst (checkObstacles p obs))).
Proof.
  unfold sameSeatObstacles.
  induction obs as [|o rest IH]; intros p Hne; [constructor|].
  cbn [checkObstacles].
  pose proof (body_checkObstacle p o) as Hb.
  pose proof (seat_checkObstacle p o) as Hs.
  assert (Hsame : Obstacle.playerNum o = s ->
                  snd (fst (checkObstacle p o)) = o).
  { intro Ho. rewrite checkObstacle_other; [reflexivity | congruence]. }
  destruct (checkObstacle p o) as [[p1 o1] out1]. cbn [fst snd] in *.
  assert (Hne1 : playerNum p1 <> s)
    by (rewrite (body_playerNum _ _ Hb); exact Hne).
  specialize (IH p1 Hne1).
  destruct (checkObstacles p1 rest) as [[p2 rest2] out2]. cbn [fst snd] in *.
  constructor; [split; assumption | exact IH].
Qed.

(** The same for boost pads. *)
Lemma checkBoostPad_misses now p b :
  collects p b = false -> checkBoostPad now p b = (p, b).
Proof. unfold collects, checkBoostPad. now intros ->. Qed.

Lemma body_checkBoostPad now p b : body (fst (checkBoostPad now p b)) = body p.
Proof. unfold checkBoostPad. destruct (_ && _); reflexivity. Qed.

Lemma seat_checkBoostPad now p b :
  BoostPad.playerNum (snd (checkBoostPad now p b)) = BoostPad.playerNum b.
Proof. unfold checkBoostPad. destruct (_ && _); reflexivity. Qed.

Lemma checkBoostPad_other now p b :
  BoostPad.playerNum b <> playerNum p -> checkBoostPad now p b = (p, b).
Proof.
  intro Hne. unfold checkBoostPad.
  destruct (BoostPad.playerNum b =? playerNum p)%Z eqn:E; [|reflexivity].
  apply Z.eqb_eq in E. contradiction.
Qed.

Lemma checkBoostPads_misses now p pads :
  (forall b, In b pads -> collects p b = false) ->
  checkBoostPads now p pads = (p, pads).
Proof.
  induction pads as [|b rest IH]; intro H; [reflexivity|].
  cbn [checkBoostPads].
  rewrite (checkBoostPad_misses now p b (H b (or_introl eq_refl))).
  rewrite IH by (intros b2 Hin; apply H; now right). reflexivity.
Qed.

Lemma body_checkBoostPads now pads : forall p,
  body (fst (checkBoostPads now p pads)) = body p.
Proof.
  induction pads as [|b rest IH]; intro p; [reflexivity|].
  cbn [checkBoostPads].
  pose proof (body_checkBoostPad now p b) as H1.
  destruct (checkBoostPad now p b) as [p1 b1]. cbn [fst] in H1.
  specialize (IH p1). destruct (checkBoostPads now p1 rest) as [p2 rest2].
  cbn [fst] in *. congruence.
Qed.

Lemma checkBoostPads_other now s pads : forall p,
  playerNum p <> s ->
  sameSeatPads s pads (snd (checkBoostPads now p pads)).
Proof.
  unfold sameSeatPads.
  induction pads as [|b rest IH]; intros p Hne; [constructor|].
  cbn [checkBoostPads].
  pose proof (body_checkBoostPad now p b) as Hb.
  pose proof (seat_checkBoostPad now p b) as Hs.
  assert (Hsame : BoostPad.playerNum b = s ->
                  snd (checkBoostPad now p b) = b).
  { intro Ho. rewrite checkBoostPad_other; [reflexivity | congruence]. }
  destruct (checkBoostPad now p b) as [p1 b1]. cbn [fst snd] in *.
  assert (Hne1 : playerNum p1 <> s)
    by (rewrite (body_playerNum _ _ Hb); exact Hne).
  specialize (IH p1 Hne1).
  destruct (checkBoostPads now p1 rest) as [p2 rest2]. cbn [fst snd] in *.
  constructor; [split; assumption | exact IH].
Qed.

(** The relations are reflexive and transitive, and respect the tests. *)
Lemma sameSeatObstacles_refl s obs : sameSeatObstacles s obs obs.
Proof. induction obs; constructor; auto. Qed.

Lemma sameSeatObstacles_trans s a : forall b c,
  sameSeatObstacles s a b -> sameSeatObstacles s b c ->
  sameSeatObstacles s a c.
Proof.
  unfold sameSeatObstacles.
  induction a as [|x a IH]; intros b c Hab Hbc;
    inversion Hab; subst; inversion Hbc; subst; constructor.
  - match goal with
    | H1 : _ /\ _, H2 : _ /\ _ |- _ =>
        destruct H1 as [A1 A2]; destruct H2 as [B1 B2]
    end.
    split; [congruence|]. intro Hs. rewrite B2 by congruence. now apply A2.
  - eapply IH; eassumption.
Qed.

Lemma sameSeatPads_refl s pads : sameSeatPads s pads pads.
Proof. induction pads; constructor; auto. Qed.

Lemma sameSeatPads_trans s a : forall b c,
  sameSeatPads s a b -> sameSeatPads s b c -> sameSeatPads s a c.
Proof.
  unfold sameSeatPads.
  induction a as [|x a IH]; intros b c Hab Hbc;
    inversion Hab; subst; inversion Hbc; subst; constructor.
  - match goal with
    | H1 : _ /\ _, H2 : _ /\ _ |- _ =>
        destruct H1 as [A1 A2]; destruct H2 as [B1 B2]
    end.
    split; [congruence|]. intro Hs. rewrite B2 by congruence. now apply A2.
  - eapply IH; eassumption.
Qed.

Lemma meets_sameSeat p obs obs' :
  sameSeatObstacles (playerNum p) obs obs' ->
  (forall o, In o obs -> meets p o = false) ->
  forall o, In o obs' -> meets p o = false.
Proof.
  unfold sameSeatObstacles. induction 1 as [|a a' obs obs' [Hn Hs] _ IH];
    intros H o Hin; [destruct Hin|].
  destruct Hin as [<- | Hin].
  - destruct (Z.eq_dec (Obstacle.playerNum a) (playerNum p)) as [E | E].
    + rewrite (Hs E). apply H. now left.
    + unfold meets. rewrite Hn.
      apply Z.eqb_neq in E. now rewrite E.
  - apply IH; [|exact Hin]. intros o2 H2. apply H. now right.
Qed.

Lemma collects_sameSeat p pads pads' :
  sameSeatPads (playerNum p) pads pads' ->
  (forall b, In b pads -> collects p b = false) ->
  forall b, In b pads' -> collects p b = false.
Proof.
  unfold sameSeatPads. induction 1 as [|a a' pads pads' [Hn Hs] _ IH];
    intros H b Hin; [destruct Hin|].
  destruct Hin as [<- | Hin].
  - destruct (Z.eq_dec (BoostPad.playerNum a) (playerNum p)) as [E | E].
    + rewrite (Hs E). apply H. now left.
    + unfold collects. rewrite Hn.
      apply Z.eqb_neq in E. now rewrite E.
  - apply IH; [|exact Hin]. intros b2 H2. apply H. now right.
Qed.

(** An entry of seat [s] keeps its place in a list related to its own. *)
Lemma sameSeatObstacles_split s before o after obs' :
  sameSeatObstacles s (before ++ o :: after) obs' ->
  Obstacle.playerNum o = s ->
  exists before' after',
    obs' = before' ++ o :: after' /\
    sameSeatObstacles s before before' /\
    sameSeatObstacles s after after'.
Proof.
  unfold sameSeatObstacles. intros H Ho.
  apply Forall2_app_inv_l in H.
  destruct H as (before' & rest & Hb & Hr & ->).
  inversion Hr as [|? o' ? after' [_ Hs] Ha]; subst.
  rewrite (Hs eq_refl). exists before', after'. now repeat split.
Qed.

Lemma sameSeatObstacles_length s obs obs' :
  sameSeatObstacles s obs obs' -> List.length obs' = List.length obs.
Proof. intro H. symmetry. exact (Forall2_length H). Qed.

(** Players of other seats leave the obstacles and pads of seat [s] as they
    are. *)
Lemma checkPlayers_others now s ps : forall obs pads,
  Forall (fun kp => playerNum (snd kp) <> s) ps ->
  let r := checkPlayers now ps obs pads in
  List.length (fst (fst (fst r))) = List.length ps /\
  sameSeatObstacles s obs (snd (fst (fst r))) /\
  sameSeatPads s pads (snd (fst r)).
Proof.
  induction ps as [|[k p] rest IH]; intros obs pads Hall; cbv zeta.
  - cbn. repeat split;
      [apply sameSeatObstacles_refl | apply sameSeatPads_refl].
  - inversion Hall as [|? ? Hp Hrest]; subst. cbn [snd] in Hp.
    cbn [checkPlayers].
    pose proof (checkObstacles_other s obs p Hp) as H1.
    pose proof (body_checkObstacles obs p) as Hb.
    destruct (checkObstacles p obs) as [[p1 obs1] out1]. cbn [fst snd] in *.
    assert (Hp1 : playerNum p1 <> s)
      by (rewrite (body_playerNum _ _ Hb); exact Hp).
    pose proof (checkBoostPads_other now s pads p1 Hp1) as H2.
    destruct (checkBoostPads now p1 pads) as [p2 pads2]. cbn [snd] in H2.
    specialize (IH obs1 pads2 Hrest). cbv zeta in IH.
    destruct (checkPlayers now rest obs1 pads2) as [[[rest' obs'] pads'] out'].
    cbn [fst snd] in *. destruct IH as (L & O & P).
    repeat split.
    + cbn [List.length]. now rewrite L.
    + eapply sameSeatObstacles_trans; eassumption.
    + eapply sameSeatPads_trans; eassumption.
Qed.

Lemma checkPlayers_app now ps1 : forall ps2 obs pads,
  checkPlayers now (ps1 ++ ps2) obs pads =
  let '(ps1', obs1, pads1, out1) := checkPlayers now ps1 obs pads in
  let '(ps2', obs2, pads2, out2) := checkPlayers now ps2 obs1 pads1 in
  (ps1' ++ ps2', obs2, pads2, out1 ++ out2).
Proof.
  induction ps1 as [|[k p] ps1 IH]; intros ps2 obs pads;
    cbn [app checkPlayers].
  - destruct (checkPlayers now ps2 obs pads) as [[[a b] c] d]. reflexivity.
  - destruct (checkObstacles p obs) as [[p1 obs1] out1].
    destruct (checkBoostPads now p1 pads) as [p2 pads2].
    rewrite IH.
    destruct (checkPlayers now ps1 obs1 pads2) as [[[a b] c] d].
    destruct (checkPlayers now ps2 b c) as [[[a2 b2] c2] d2].
    cbn [app]. now rewrite app_assoc.
Qed.

(** The pass for the only holder of a seat that overlaps one obstacle of
    that seat and meets nothing else. *)
Lemma collision_pass now pre k p post before o after pads :
  Forall (fun kp => playerNum (snd kp) <> playerNum p) (pre ++ post) ->
  Obstacle.playerNum o = playerNum p ->
  overlaps p (Obstacle.x o) (Obstacle.y o)
    (Obstacle.width o) (Obstacle.height o) = true ->
  (forall o2, In o2 (before ++ after) -> meets p o2 = false) ->
  (forall b, In b pads -> collects p b = false) ->
  let r := checkPlayers now (pre ++ (k, p) :: post) (before ++ o :: after)
             pads in
  exists pre' post' before' after',
    fst (fst (fst r)) = pre' ++ (k, collide p) :: post' /\
    List.length pre' = List.length pre /\
    snd (fst (fst r)) = before' ++ Obstacle.set_y 700 o :: after' /\
    List.length before' = List.length before.
Proof.
  intros Hothers Hseat Hov Hobs Hpads. cbv zeta.
  apply Forall_app in Hothers. destruct Hothers as [Hpre Hpost].
  rewrite checkPlayers_app.
  pose proof (checkPlayers_others now (playerNum p) pre
                (before ++ o :: after) pads Hpre) as H1. cbv zeta in H1.
  destruct (checkPlayers now pre (before ++ o :: after) pads)
    as [[[pre' obs1] pads1] out1]. cbn [fst snd] in H1.
  destruct H1 as (L1 & O1 & P1).
  destruct (sameSeatObstacles_split _ _ _ _ _ O1 Hseat)
    as (b1 & a1 & -> & Ob & Oa).
  assert (Hb1 : forall o2, In o2 b1 -> meets p o2 = false).
  { apply (meets_sameSeat p before b1 Ob).
    intros o2 Hin. apply Hobs. apply in_or_app. now left. }
  assert (Ha1 : forall o2, In o2 a1 -> meets (collide p) o2 = false).
  { intros o2 Hin. rewrite (meets_body _ p o2 (body_collide p)).
    apply (meets_sameSeat p after a1 Oa); [|exact Hin].
    intros o3 H3. apply Hobs. apply in_or_app. now right. }
  assert (Hp1 : forall b, In b pads1 -> collects (collide p) b = false).
  { intros b Hin. rewrite (collects_body _ p b (body_collide p)).
    exact (collects_sameSeat p pads pads1 P1 Hpads b Hin). }
  cbn [checkPlayers].
  rewrite checkObstacles_app, (checkObstacles_misses p b1 Hb1).
  cbn [checkObstacles]. rewrite (checkObstacle_collision p o Hseat Hov).
  rewrite (checkObstacles_misses (collide p) a1 Ha1).
  rewrite (checkBoostPads_misses now (collide p) pads1 Hp1).
  cbn [app].
  pose proof (checkPlayers_others now (playerNum p) post
                (b1 ++ Obstacle.set_y 700 o :: a1) pads1 Hpost) as H2.
  cbv zeta in H2.
  destruct (checkPlayers now post (b1 ++ Obstacle.set_y 700 o :: a1) pads1)
    as [[[post' obs2] pads2] out2]. cbn [fst snd] in *.
  destruct H2 as (L2 & O2 & P2).
  destruct (sameSeatObstacles_split _ _ (Obstacle.set_y 700 o) _ _ O2 Hseat)
    as (b2 & a2 & -> & Ob2 & Oa2).
  exists pre', post', b2, a2. repeat split; try assumption.
  rewrite (sameSeatObstacles_length _ _ _ Ob2).
  apply (sameSeatObstacles_length _ _ _ Ob).
Qed.

(** ** What a step reads and writes *)

Lemma pushObstacles_app now ps : forall rng0 a b,
  pushObstacles now ps rng0 (a ++ b) =
  (a ++ fst (pushObstacles now ps rng0 b), snd (pushObstacles now ps rng0 b)).
Proof.
  induction ps as [|p ps IH]; intros rng0 a b; [reflexivity|].
  cbn [pushObstacles]. unfold random. cbn [draws cursor].
  rewrite <- app_assoc. apply IH.
Qed.

Lemma pushObstacles_from_nil now ps rng0 a :
  pushObstacles now ps rng0 a =
  (a ++ fst (pushObstacles now ps rng0 []),
   snd (pushObstacles now ps rng0 [])).
Proof.
  pose proof (pushObstacles_app now ps rng0 a []) as H.
  now rewrite app_nil_r in H.
Qed.

Lemma pushObstacles_y now ps : forall rng0 acc,
  Forall (fun o => Obstacle.y o = -(50)) acc ->
  Forall (fun o => Obstacle.y o = -(50)) (fst (pushObstacles now ps rng0 acc)).
Proof.
  induction ps as [|p ps IH]; intros rng0 acc Hacc; [exact Hacc|].
  cbn [pushObstacles]. unfold random. cbn [draws cursor].
  apply IH. apply Forall_app. split; [exact Hacc|].
  constructor; [reflexivity | constructor].
Qed.

Lemma updateObstacles_fields now l :
  GameLobby.players (updateObstacles now l) =
    fst (filterObstacles now (GameLobby.players l)
           (obstacles (GameLobby.gameState l))) /\
  boostPads (GameLobby.gameState (updateObstacles now l)) =
    boostPads (GameLobby.gameState l).
Proof.
  unfold updateObstacles.
  destruct (filterObstacles now (GameLobby.players l)
              (obstacles (GameLobby.gameState l))) as [ps obs].
  split; reflexivity.
Qed.

Lemma updateBoostPads_fields l :
  GameLobby.players (updateBoostPads l) = GameLobby.players l /\
  obstacles (GameLobby.gameState (updateBoostPads l)) =
    obstacles (GameLobby.gameState l) /\
  boostPads (GameLobby.gameState (updateBoostPads l)) =
    filter (fun b => Qle_bool (BoostPad.y b) 650)
      (map advanceBoostPad (boostPads (GameLobby.gameState l))).
Proof. repeat split; reflexivity. Qed.

(** [spawn] appends to the road; what it appends depends on the players
    and the draws only. *)
Lemma spawn_appends now rng0 l l' :
  GameLobby.players l' = GameLobby.players l ->
  boostPads (GameLobby.gameState l') = boostPads (GameLobby.gameState l) ->
  exists sp,
    obstacles (GameLobby.gameState (fst (spawn now rng0 l))) =
      obstacles (GameLobby.gameState l) ++ sp /\
    obstacles (GameLobby.gameState (fst (spawn now rng0 l'))) =
      obstacles (GameLobby.gameState l') ++ sp /\
    boostPads (GameLobby.gameState (fst (spawn now rng0 l'))) =
      boostPads (GameLobby.gameState (fst (spawn now rng0 l))) /\
    GameLobby.players (fst (spawn now rng0 l)) = GameLobby.players l /\
    GameLobby.players (fst (spawn now rng0 l')) = GameLobby.players l' /\
    (unitDraws rng0 -> Forall obstacleShape sp /\
                       Forall (fun o => Obstacle.y o = -(50)) sp).
Proof.
  intros Hps Hpads. unfold spawn.
  assert (U1 : unitDraws rng0 -> unitDraws (snd (random rng0)))
    by (intro H; exact H).
  destruct (random rng0) as [r1 rng1]. cbn [snd] in U1.
  destruct (Qltb r1 0.01).
  - unfold createObstacles. rewrite Hps.
    rewrite (pushObstacles_from_nil now _ rng1
               (obstacles (GameLobby.gameState l))).
    rewrite (pushObstacles_from_nil now _ rng1
               (obstacles (GameLobby.gameState l'))).
    assert (Hshape : unitDraws rng1 ->
              Forall obstacleShape
                (fst (pushObstacles now (dict_values (GameLobby.players l))
                        rng1 [])) /\
              unitDraws
                (snd (pushObstacles now (dict_values (GameLobby.players l))
                        rng1 []))).
    { intro Hu.
      destruct (pushObstacles_shape now (dict_values (GameLobby.players l))
                  rng1 [] Hu (Forall_nil _)) as [A B].
      split; [exact A|]. intro j. rewrite B. apply Hu. }
    assert (Hy : Forall (fun o => Obstacle.y o = -(50))
                   (fst (pushObstacles now (dict_values (GameLobby.players l))
                           rng1 [])))
      by (apply pushObstacles_y; constructor).
    destruct (pushObstacles now (dict_values (GameLobby.players l)) rng1 [])
      as [sp rng2]. cbn [fst snd] in *.
    exists sp.
    destruct (random rng2) as [r2 rng3].
    destruct (Qltb r2 0.005).
    + unfold createBoostPads. lobby_fields. rewrite Hps, Hpads.
      destruct (pushBoostPads now (dict_values (GameLobby.players l)) rng3
                  (boostPads (GameLobby.gameState l))) as [pads rng4].
      cbn [fst]. lobby_fields. repeat split;
        first [reflexivity | exact Hy | exact Hps | exact Hpads
              | (apply Hshape, U1; assumption)].
    + cbn [fst]. lobby_fields. repeat split;
        first [reflexivity | exact Hy | exact Hps | exact Hpads
              | (apply Hshape, U1; assumption)].
  - exists []. rewrite !app_nil_r.
    destruct (random rng1) as [r2 rng3].
    destruct (Qltb r2 0.005).
    + unfold createBoostPads. rewrite Hps, Hpads.
      destruct (pushBoostPads now (dict_values (GameLobby.players l)) rng3
                  (boostPads (GameLobby.gameState l))) as [pads rng4].
      cbn [fst]. lobby_fields. repeat split;
        first [reflexivity | exact Hps | exact Hpads | constructor].
    + cbn [fst]. repeat split;
        first [reflexivity | exact Hps | exact Hpads | constructor].
Qed.

(** The obstacles and pads that come out of the collision pass depend on
    the players through their seats, positions and sizes only. *)
Lemma checkObstacle_body p q o :
  body p = body q ->
  snd (fst (checkObstacle p o)) = snd (fst (checkObstacle q o)) /\
  body (fst (fst (checkObstacle p o))) = body (fst (fst (checkObstacle q o))).
Proof.
  intro H. split; [|now rewrite !body_checkObstacle].
  unfold checkObstacle. rewrite (body_playerNum p q H).
  rewrite (overlaps_body p q _ _ _ _ H).
  assert (Hn : nearMissRange p o = nearMissRange q o).
  { unfold body in H. injection H as Hn Hx Hy Hw Hh.
    unfold nearMissRange. now rewrite Hx, Hy, Hw, Hh. }
  rewrite Hn.
  destruct (_ =? _)%Z; [|reflexivity].
  destruct (overlaps q _ _ _ _); [reflexivity|].
  destruct (nearMissRange q o); [|reflexivity].
  destruct (negb _); [|reflexivity].
  destruct (awardNearMiss p), (awardNearMiss q). reflexivity.
Qed.

Lemma checkObstacles_body obs : forall p q,
  body p = body q ->
  snd (fst (checkObstacles p obs)) = snd (fst (checkObstacles q obs)).
Proof.
  induction obs as [|o rest IH]; intros p q H; [reflexivity|].
  cbn [checkObstacles].
  destruct (checkObstacle_body p q o H) as [Ho Hb].
  destruct (checkObstacle p o) as [[p1 o1] out1].
  destruct (checkObstacle q o) as [[q1 o2] out2]. cbn [fst snd] in *.
  specialize (IH p1 q1 Hb).
  destruct (checkObstacles p1 rest) as [[p2 r1] out3].
  destruct (checkObstacles q1 rest) as [[q2 r2] out4]. cbn [fst snd] in *.
  congruence.
Qed.

Lemma checkBoostPads_body now pads : forall p q,
  body p = body q ->
  snd (checkBoostPads now p pads) = snd (checkBoostPads now q pads).
Proof.
  induction pads as [|b rest IH]; intros p q H; [reflexivity|].
  cbn [checkBoostPads].
  assert (Hb : snd (checkBoostPad now p b) = snd (checkBoostPad now q b) /\
               body (fst (checkBoostPad now p b)) =
               body (fst (checkBoostPad now q b))).
  { split; [|now rewrite !body_checkBoostPad].
    unfold checkBoostPad. fold (collects p b) (collects q b).
    rewrite (collects_body p q b H). destruct (collects q b); reflexivity. }
  destruct Hb as [Hpad Hbody].
  destruct (checkBoostPad now p b) as [p1 b1].
  destruct (checkBoostPad now q b) as [q1 b2]. cbn [fst snd] in *.
  specialize (IH p1 q1 Hbody).
  destruct (checkBoostPads now p1 rest) as [p2 r1].
  destruct (checkBoostPads now q1 rest) as [q2 r2]. cbn [snd] in *.
  congruence.
Qed.

Lemma checkPlayers_bodies now ps : forall qs obs pads,
  bodies ps = bodies qs ->
  snd (fst (fst (checkPlayers now ps obs pads))) =
    snd (fst (fst (checkPlayers now qs obs pads))) /\
  snd (fst (checkPlayers now ps obs pads)) =
    snd (fst (checkPlayers now qs obs pads)).
Proof.
  induction ps as [|[k p] ps IH]; intros qs obs pads H;
    destruct qs as [|[k' q] qs]; try discriminate; [split; reflexivity|].
  cbn [bodies map fst snd] in H.
  assert (Hb : body p = body q) by congruence.
  assert (Hrest : bodies ps = bodies qs) by (unfold bodies; congruence).
  clear H. cbn [checkPlayers].
  pose proof (checkObstacles_body obs p q Hb) as Ho.
  pose proof (body_checkObstacles obs p) as Bp.
  pose proof (body_checkObstacles obs q) as Bq.
  destruct (checkObstacles p obs) as [[p1 obs1] out1].
  destruct (checkObstacles q obs) as [[q1 obs2] out2]. cbn [fst snd] in *.
  subst obs2.
  assert (Hb1 : body p1 = body q1) by congruence.
  pose proof (checkBoostPads_body now pads p1 q1 Hb1) as Hp.
  destruct (checkBoostPads now p1 pads) as [p2 pads1].
  destruct (checkBoostPads now q1 pads) as [q2 pads2]. cbn [snd] in Hp.
  subst pads2.
  specialize (IH qs obs1 pads1 Hrest).
  destruct (checkPlayers now ps obs1 pads1) as [[[a b] c] d].
  destruct (checkPlayers now qs obs1 pads1) as [[[a2 b2] c2] d2].
  exact IH.
Qed.

Lemma bodies_update_first f g (ps : Dict Player) :
  (forall p, body (g p) = body p) ->
  bodies (update_first f g ps) = bodies ps.
Proof.
  intro Hg. induction ps as [|[k p] rest IH]; [reflexivity|].
  cbn [update_first]. destruct (f p); cbn [bodies map fst snd].
  - now rewrite Hg.
  - fold (bodies (update_first f g rest)) (bodies rest). now rewrite IH.
Qed.

Lemma bodies_filterObstacles now obs : forall ps,
  bodies (fst (filterObstacles now ps obs)) = bodies ps.
Proof.
  induction obs as [|o rest IH]; intro ps; [reflexivity|].
  cbn [filterObstacles]. destruct (Qgtb _ _).
  - rewrite IH. apply bodies_update_first. apply body_awardSurvival.
  - specialize (IH ps). destruct (filterObstacles now ps rest) as [ps1 r1].
    exact IH.
Qed.

Section AsIfDeleted.

Variables Math_sin Math_cos : Q -> Q.

(** An obstacle that leaves the screen changes nothing of what the
    collision pass finds on the road, nor where it finds the players. *)
Lemma beforeCollisions_deleted now rng0 l l' before o after :
  GameLobby.players l' = GameLobby.players l ->
  boostPads (GameLobby.gameState l') = boostPads (GameLobby.gameState l) ->
  obstacles (GameLobby.gameState l) = before ++ o :: after ->
  obstacles (GameLobby.gameState l') = before ++ after ->
  onScreen (advanceObstacle o) = false ->
  let m := fst (fst (beforeCollisions Math_sin Math_cos now rng0 l)) in
  let m' := fst (fst (beforeCollisions Math_sin Math_cos now rng0 l')) in
  obstacles (GameLobby.gameState m') = obstacles (GameLobby.gameState m) /\
  boostPads (GameLobby.gameState m') = boostPads (GameLobby.gameState m) /\
  bodies (GameLobby.players m') = bodies (GameLobby.players m).
Proof.
  intros Hps Hpads Hobs Hobs' Hoff. cbv zeta.
  unfold beforeCollisions, movePlayers. rewrite Hps.
  destruct (updatePlayers Math_sin Math_cos now (GameLobby.players l))
    as [ps out1].
  destruct (spawn_appends now rng0 (GameLobby.set_players ps l)
              (GameLobby.set_players ps l') eq_refl Hpads)
    as (sp & S1 & S2 & S3 & S4 & S5 & _).
  destruct (spawn now rng0 (GameLobby.set_players ps l)) as [l2 rng2].
  destruct (spawn now rng0 (GameLobby.set_players ps l')) as [l2' rng2'].
  cbn [fst] in *. lobby_fields.
  destruct (updateBoostPads_fields (updateObstacles now l2)) as (A1 & A2 & A3).
  destruct (updateBoostPads_fields (updateObstacles now l2'))
    as (B1 & B2 & B3).
  destruct (updateObstacles_fields now l2) as (C1 & C2).
  destruct (updateObstacles_fields now l2') as (D1 & D2).
  rewrite A1, A2, A3, B1, B2, B3, C1, C2, D1, D2.
  rewrite !updateObstacles_obstacles, !bodies_filterObstacles.
  rewrite S1, S2, S3, S4, S5. lobby_fields. rewrite Hobs, Hobs'.
  repeat split; try reflexivity.
  rewrite <- !app_assoc. cbn [app].
  rewrite !map_app, !filter_app. cbn [map filter]. rewrite Hoff.
  now rewrite ?map_app, ?filter_app.
Qed.

(** While the match is running, the obstacle list a tick leaves is the one
    it would leave had an obstacle that is about to go off screen been
    deleted from the list beforehand. *)
Lemma tick_as_if_deleted now rng0 l before o after :
  running now l ->
  obstacles (GameLobby.gameState l) = before ++ o :: after ->
  onScreen (advanceObstacle o) = false ->
  obstacles (GameLobby.gameState
               (fst (fst (tick Math_sin Math_cos now rng0
                            (withObstacles (before ++ after) l))))) =
  obstacles (GameLobby.gameState
               (fst (fst (tick Math_sin Math_cos now rng0 l)))).
Proof.
  intros Hrun Hobs Hoff.
  assert (Hrun' : running now (withObstacles (before ++ after) l))
    by exact Hrun.
  rewrite (running_tick_lobby Math_sin Math_cos now rng0 _ Hrun).
  rewrite (running_tick_lobby Math_sin Math_cos now rng0 _ Hrun').
  unfold atCollisionPass.
  destruct (stampTime_fields now l) as (F1 & F2 & F3 & _).
  destruct (stampTime_fields now (withObstacles (before ++ after) l))
    as (G1 & G2 & G3 & _).
  assert (P1 : GameLobby.players
                 (stampTime now (withObstacles (before ++ after) l)) =
               GameLobby.players (stampTime now l))
    by now rewrite G1, F1.
  assert (P2 : boostPads (GameLobby.gameState
                 (stampTime now (withObstacles (before ++ after) l))) =
               boostPads (GameLobby.gameState (stampTime now l)))
    by now rewrite G3, F3.
  assert (P3 : obstacles (GameLobby.gameState (stampTime now l)) =
               before ++ o :: after) by now rewrite F2.
  destruct (beforeCollisions_deleted now rng0 (stampTime now l)
              (stampTime now (withObstacles (before ++ after) l))
              before o after P1 P2 P3 G2 Hoff)
    as (E1 & E2 & E3).
  unfold checkCollisions. rewrite E1, E2.
  destruct (checkPlayers_bodies now _ _
              (obstacles (GameLobby.gameState
                 (fst (fst (beforeCollisions Math_sin Math_cos now rng0
                              (stampTime now l))))))
              (boostPads (GameLobby.gameState
                 (fst (fst (beforeCollisions Math_sin Math_cos now rng0
                              (stampTime now l)))))) E3) as [K1 K2].
  destruct (checkPlayers now _ _ _) as [[[a b] c] d].
  destruct (checkPlayers now _ _ _) as [[[a2 b2] c2] d2].
  cbn [fst snd] in *. lobby_fields. exact K1.
Qed.

End AsIfDeleted.

(** ** A collision, tick by tick *)

Lemma parked_not_placed o :
  2 <= Obstacle.speed o ->
  ~ obstaclePlaced (advanceObstacle (Obstacle.set_y 700 o)).
Proof.
  intros Hs [H | H]; unfold advanceObstacle in H;
    cbn [Obstacle.y Obstacle.speed Obstacle.set_y] in H.
  - lra.
  - assert (E : 700 + (Obstacle.speed o + 3) == 700) by now rewrite H.
    lra.
Qed.

Section CollisionTick.

Variables Math_sin Math_cos : Q -> Q.

Lemma running_after_tick now now2 rng0 l :
  running now l -> running now2 l ->
  running now2 (fst (fst (tick Math_sin Math_cos now rng0 l))).
Proof.
  intros Hrun [He Hlt]. unfold tick. rewrite updateGame_split.
  rewrite (running_remaining now l Hrun). rewrite He. cbn [negb]. cbv zeta.
  match goal with
  | |- context [simulate _ _ _ _ ?l0] =>
      pose proof (simulate_sameMatch Math_sin Math_cos now rng0 l0) as Hs;
      destruct (simulate Math_sin Math_cos now rng0 l0) as [[l1 rng1] out]
  end.
  cbn [fst] in *.
  destruct Hs as (_ & _ & _ & _ & _ & S6 & S7 & S8 & _).
  unfold running. rewrite S6, S7, S8. lobby_fields. split; assumption.
Qed.

(** What the collision pass leaves on the road is on screen or parked. *)
Lemma running_tick_placed now rng0 l :
  running now l ->
  Forall obstaclePlaced
    (obstacles (GameLobby.gameState
                  (fst (fst (tick Math_sin Math_cos now rng0 l))))).
Proof.
  intro Hrun. rewrite (running_tick_lobby Math_sin Math_cos now rng0 l Hrun).
  unfold atCollisionPass, beforeCollisions.
  destruct (movePlayers Math_sin Math_cos now (stampTime now l)) as [l1 out1].
  destruct (spawn now rng0 l1) as [l2 rng2]. cbn [fst].
  assert (H : Forall obstaclePlaced
                (obstacles (GameLobby.gameState
                              (updateBoostPads (updateObstacles now l2))))).
  { destruct (updateBoostPads_fields (updateObstacles now l2)) as (_ & A & _).
    rewrite A, updateObstacles_obstacles. apply Forall_forall.
    intros o Hin. apply filter_In in Hin. destruct Hin as [_ Hon].
    left. apply Qle_bool_iff. exact Hon. }
  unfold checkCollisions.
  assert (K : forall q o, obstaclePlaced o ->
                obstaclePlaced (snd (fst (checkObstacle q o)))).
  { intros q o Ho.
    destruct (checkObstacle_cases q o) as [E | [E | [_ E]]]; rewrite E;
      cbn [fst snd]; [exact Ho | now right | exact Ho]. }
  assert (HT : Forall (fun _ : BoostPad.t => True)
                 (boostPads (GameLobby.gameState
                               (updateBoostPads (updateObstacles now l2)))))
    by (apply Forall_forall; intros; exact I).
  destruct (checkPlayers_keeps obstaclePlaced (fun _ => True) now K
              (fun _ _ _ => I)
              (GameLobby.players (updateBoostPads (updateObstacles now l2)))
              _ _ H HT) as [A _].
  destruct (checkPlayers now _ _ _) as [[[ps' obs'] pads'] out'].
  exact A.
Qed.

(** C4, amended: a player that, when the collision pass of a tick begins,
    overlaps an obstacle of its seat, holds that seat alone and meets
    nothing else in the pass (no other overlap, no near miss to be awarded,
    no boost pad to collect) leaves the tick with its score lowered by
    exactly [50 + 5 * streak], its streak, multiplier and near-miss counter
    at 0, 1 and 0, and the obstacle parked at [y = 700] in its place in the
    list.  After the next tick, provided the match has not run out of time
    by then, the obstacle is no longer in the list: the list is the one that
    tick would leave had the obstacle been deleted at once, and it does not
    hold the parked obstacle moved on.  The speed bound is the one every
    spawned obstacle satisfies. *)
Theorem collision_penalty_and_removal (now : Z) (rng0 : Rng)
    (l : GameLobby.t) (pre : Dict Player) (k : string) (p : Player)
    (post : Dict Player) (before : list Obstacle.t) (o : Obstacle.t)
    (after : list Obstacle.t) :
  running now l ->
  let m := atCollisionPass Math_sin Math_cos now rng0 l in
  GameLobby.players m = pre ++ (k, p) :: post ->
  Forall (fun kp => playerNum (snd kp) <> playerNum p) (pre ++ post) ->
  obstacles (GameLobby.gameState m) = before ++ o :: after ->
  Obstacle.playerNum o = playerNum p ->
  overlaps p (Obstacle.x o) (Obstacle.y o)
    (Obstacle.width o) (Obstacle.height o) = true ->
  2 <= Obstacle.speed o ->
  (forall o2, In o2 (before ++ after) -> meets p o2 = false) ->
  (forall b, In b (boostPads (GameLobby.gameState m)) ->
             collects p b = false) ->
  let l1 := fst (fst (tick Math_sin Math_cos now rng0 l)) in
  exists pre' p' post' before' after',
    GameLobby.players l1 = pre' ++ (k, p') :: post' /\
    List.length pre' = List.length pre /\
    score p' == score p - (50 + inject_Z (streak p) * 5) /\
    streak p' = 0%Z /\
    multiplier p' == 1 /\
    nearMissCount p' = 0%Z /\
    obstacles (GameLobby.gameState l1) =
      before' ++ Obstacle.set_y 700 o :: after' /\
    List.length before' = List.length before /\
    forall now2 rng2,
      running now2 l ->
      let l2 := fst (fst (tick Math_sin Math_cos now2 rng2 l1)) in
      obstacles (GameLobby.gameState l2) =
        obstacles
          (GameLobby.gameState
             (fst (fst (tick Math_sin Math_cos now2 rng2
                          (withObstacles (before' ++ after') l1))))) /\
      ~ In (advanceObstacle (Obstacle.set_y 700 o))
          (obstacles (GameLobby.gameState l2)).
Proof.
  intros Hrun m Hps Hothers Hobs Hseat Hov Hsp Hclear Hpads l1.
  assert (E1 : l1 = fst (checkCollisions now m))
    by apply (running_tick_lobby Math_sin Math_cos now rng0 l Hrun).
  pose proof (collision_pass now pre k p post before o after
                (boostPads (GameLobby.gameState m))
                Hothers Hseat Hov Hclear Hpads) as Hpass.
  cbv zeta in Hpass.
  destruct Hpass as (pre' & post' & before' & after' & P1 & P2 & P3 & P4).
  assert (F : GameLobby.players l1 = pre' ++ (k, collide p) :: post' /\
              obstacles (GameLobby.gameState l1) =
                before' ++ Obstacle.set_y 700 o :: after').
  { rewrite E1. unfold checkCollisions. rewrite Hps, Hobs.
    destruct (checkPlayers now (pre ++ (k, p) :: post)
                (before ++ o :: after) (boostPads (GameLobby.gameState m)))
      as [[[ps' obs'] pads'] out']. cbn [fst snd] in *.
    split; assumption. }
  destruct F as [F1 F2].
  destruct (collide_fields p) as (Hs & Hst & Hm & Hn & _).
  exists pre', (collide p), post', before', after'.
  split; [exact F1|]. split; [exact P2|]. split; [exact Hs|].
  split; [exact Hst|]. split; [exact Hm|]. split; [exact Hn|].
  split; [exact F2|]. split; [exact P4|].
  intros now2 rng2 Hrun2 l2.
  assert (Hrun3 : running now2 l1) by now apply running_after_tick.
  split.
  - symmetry.
    apply (tick_as_if_deleted Math_sin Math_cos now2 rng2 l1 before'
             (Obstacle.set_y 700 o) after' Hrun3 F2).
    now apply collided_offScreen.
  - intro Hin.
    pose proof (running_tick_placed now2 rng2 l1 Hrun3) as Hall.
    rewrite Forall_forall in Hall.
    exact (parked_not_placed o Hsp (Hall _ Hin)).
Qed.

End CollisionTick.

(** ** The two matches *)


Lemma collision_penalty_and_removal_witness :
  let l := lobbyOf (stillMatch earlyRock 98) in
  let m := atCollisionPass sin_poly cos_poly 1584 steady l in
  let p := seat "s1" m in
  let o := hd rock (obstacles (GameLobby.gameState m)) in
  let l1 := fst (fst (tick sin_poly cos_poly 1584 steady l)) in
  running 1584 l /\
  Obstacle.playerNum o = playerNum p /\
  overlaps p (Obstacle.x o) (Obstacle.y o)
    (Obstacle.width o) (Obstacle.height o) = true /\
  2 <= Obstacle.speed o /\
  (exists p',
     In ("s1"%string, p') (GameLobby.players l1) /\
     score p' == score p - (50 + inject_Z (streak p) * 5) /\
     streak p' = 0%Z /\ multiplier p' == 1 /\ nearMissCount p' = 0%Z) /\
  In (Obstacle.set_y 700 o) (obstacles (GameLobby.gameState l1)) /\
  ~ In (advanceObstacle (Obstacle.set_y 700 o))
      (obstacles
         (GameLobby.gameState
            (fst (fst (tick sin_poly cos_poly 1600 steady l1))))).
Proof.
  cbv zeta.
  set (l := lobbyOf (stillMatch earlyRock 98)).
  set (m := atCollisionPass sin_poly cos_poly 1584 steady l).
  set (p := seat "s1" m).
  set (o := hd rock (obstacles (GameLobby.gameState m))).
  assert (Hrun : running 1584 l) by (split; vm_compute; reflexivity).
  assert (Hrun2 : running 1600 l) by (split; vm_compute; reflexivity).
  assert (Hps : GameLobby.players m =
                [] ++ ("s1"%string, p) :: [("s2"%string, seat "s2" m)])
    by (vm_compute; reflexivity).
  assert (Hothers : Forall (fun kp => playerNum (snd kp) <> playerNum p)
                      ([] ++ [("s2"%string, seat "s2" m)]))
    by (repeat constructor; vm_compute; discriminate).
  assert (Hobs : obstacles (GameLobby.gameState m) =
                 [] ++ o :: tl (obstacles (GameLobby.gameState m)))
    by (vm_compute; reflexivity).
  assert (Hseat : Obstacle.playerNum o = playerNum p)
    by (vm_compute; reflexivity).
  assert (Hov : overlaps p (Obstacle.x o) (Obstacle.y o)
                  (Obstacle.width o) (Obstacle.height o) = true)
    by (vm_compute; reflexivity).
  assert (Hsp : 2 <= Obstacle.speed o) by (vm_compute; discriminate).
  assert (Hclear : forall o2,
             In o2 ([] ++ tl (obstacles (GameLobby.gameState m))) ->
             meets p o2 = false).
  { intros o2 Hin. vm_compute in Hin. destruct Hin as [<- | []].
    vm_compute. reflexivity. }
  assert (Hpads : forall b, In b (boostPads (GameLobby.gameState m)) ->
                            collects p b = false).
  { intros b Hin. vm_compute in Hin. destruct Hin. }
  destruct (collision_penalty_and_removal sin_poly cos_poly 1584 steady l
              [] "s1"%string p [("s2"%string, seat "s2" m)] [] o
              (tl (obstacles (GameLobby.gameState m)))
              Hrun Hps Hothers Hobs Hseat Hov Hsp Hclear Hpads)
    as (pre' & p' & post' & before' & after' &
        G1 & G2 & G3 & G4 & G5 & G6 & G7 & G8 & G9).
  split; [exact Hrun|]. split; [exact Hseat|]. split; [exact Hov|].
  split; [exact Hsp|]. split.
  { exists p'. split; [|repeat split; assumption].
    rewrite G1. apply in_or_app. right. now left. }
  split.
  { rewrite G7. apply in_or_app. right. now left. }
  exact (proj2 (G9 1600%Z steady Hrun2)).
Defined.

Lemma late_match_reached :
  lateEve = stillMatch lateRocks 1873 /\
  lateCrash = stillMatch lateRocks 1874 /\
  lateEnd = stillMatch lateRocks 1875.
Proof.
  split; [vm_compute; reflexivity|].
  split; vm_compute; reflexivity.
Qed.

(** C4, as stated, fails on the last simulated tick of the late match.
    When the collision pass of tick 1874 begins, seat 1 overlaps the first
    obstacle of its seat; it has 25 points and streak 0.  In that pass it
    also comes into near-miss range of the second obstacle of its seat, so
    the tick leaves it with 0 points, not -25, and with a near-miss counter
    of 1, not 0.  The next tick, at 30000 ms, ends the match before
    [updateObstacles] is reached: the parked obstacle is still in the list. *)
Lemma collision_with_near_miss_and_timeout :
  let l := lobbyOf lateEve in
  let m := atCollisionPass sin_poly cos_poly 29984 steady l in
  let o := hd rock (obstacles (GameLobby.gameState m)) in
  let l1 := fst (fst (tick sin_poly cos_poly 29984 steady l)) in
  let l2 := fst (fst (tick sin_poly cos_poly 30000 steady l1)) in
  lateEve = stillMatch lateRocks 1873 /\
  lobbyOf (stillMatch lateRocks 1874) = l1 /\
  lobbyOf (stillMatch lateRocks 1875) = l2 /\
  Obstacle.playerNum o = playerNum (seat "s1" m) /\
  overlaps (seat "s1" m) (Obstacle.x o) (Obstacle.y o)
    (Obstacle.width o) (Obstacle.height o) = true /\
  streak (seat "s1" m) = 0%Z /\
  score (seat "s1" l) == 25 /\
  score (seat "s1" m) == 25 /\
  score (seat "s1" l1) == 0 /\
  ~ score (seat "s1" l1) ==
      score (seat "s1" m) - (50 + inject_Z (streak (seat "s1" m)) * 5) /\
  nearMissCount (seat "s1" l1) = 1%Z /\
  In (Obstacle.set_y 700 o) (obstacles (GameLobby.gameState l1)) /\
  GameLobby.gameEnded l2 = true /\
  In (Obstacle.set_y 700 o) (obstacles (GameLobby.gameState l2)).
Proof.
  cbv zeta. destruct late_match_reached as (R1 & R2 & R3).
  split; [exact R1|].
  split; [rewrite <- R2; vm_compute; reflexivity|].
  split; [rewrite <- R3; vm_compute; reflexivity|].
  do 6 (split; [vm_compute; reflexivity|]).
  split; [intro H; vm_compute in H; discriminate H|].
  split; [vm_compute; reflexivity|].
  split; [vm_compute; left; reflexivity|].
  split; [vm_compute; reflexivity|].
  vm_compute. left. reflexivity.
Qed.


(** ** The award that follows a collision, tick by tick *)







Section AfterCollisionTick.

Variables Math_sin Math_cos : Q -> Q.






End AfterCollisionTick.



(** ** The sweep on the registries the server can reach *)




Section SweepAndTicks.

Variables Math_sin Math_cos : Q -> Q.




End SweepAndTicks.

